(** * Robo AI - chat with documents: knowledge-group store and chat session

    A shallow embedding of the state handled by the [App] component
    (the knowledge-group store, the document ingestion, the suggestion
    fetcher and the chat request cycle) and of the URL form of the
    [KnowledgeBaseManager] component, with the properties of these
    handlers.

    Conventions of the embedding.
    - A JavaScript string is a [string]: one [ascii] per code unit, so the
      model covers the strings whose code units are below 256.
    - A React state cell is a field of a record; a handler is a function
      from the state before the event to the state after it.  A functional
      updater [setX(prev => f prev)] is the application of [f] to the field.
    - An [async] handler is cut at its [await]: the part after it is a
      function of the awaited outcome and of the state found at that time,
      and it keeps the variables of the render it was created in (the
      captured [activeUrlGroupId], the captured placeholder message).
    - Exceptions are the [Throw] results of a small error monad.
    - [Date.now()] is an argument; the collaborators that are not part of
      the repository (the WHATWG URL parser, [JSON.parse], the Word and PDF
      decoders, the remote service) are fields of the class [Platform] or
      arguments that carry their outcome. *)

From Stdlib Require Import String Ascii List Bool Arith NArith QArith Lia DecimalString.
From Stdlib Require DecimalN DecimalPos.
From Stdlib Require Init.Byte.
Import ListNotations.

#[local] Set Warnings "-register-all".
#[local] Open Scope string_scope.
#[local] Open Scope list_scope.
#[local] Open Scope nat_scope.

(* ================================================================== *)
(** ** JavaScript values used by the handlers *)
(* ================================================================== *)

Module JS.

(** [\s] of regular expressions and the characters removed by
    [String.prototype.trim], among the code units below 256:
    TAB, LF, VT, FF, CR, SPACE and NO-BREAK SPACE. *)
Definition isSpace (c : ascii) : bool :=
  let n := nat_of_ascii c in
  ((9 <=? n) && (n <=? 13)) || (n =? 32) || (n =? 160).

(** [\w] of regular expressions: [A-Za-z0-9_]. *)
Definition isWordChar (c : ascii) : bool :=
  let n := nat_of_ascii c in
  ((65 <=? n) && (n <=? 90)) || ((97 <=? n) && (n <=? 122))
  || ((48 <=? n) && (n <=? 57)) || (n =? 95).

Definition isNewline (c : ascii) : bool := nat_of_ascii c =? 10.

Definition isEmpty (s : string) : bool :=
  match s with EmptyString => true | String _ _ => false end.

Fixpoint trimStart (s : string) : string :=
  match s with
  | EmptyString => EmptyString
  | String c s' => if isSpace c then trimStart s' else s
  end.

Fixpoint trimEnd (s : string) : string :=
  match s with
  | EmptyString => EmptyString
  | String c s' =>
      match trimEnd s' with
      | EmptyString => if isSpace c then EmptyString else String c EmptyString
      | t => String c t
      end
  end.

(** [s.trim()] *)
Definition trim (s : string) : string := trimEnd (trimStart s).

(** [forall c in s, p c] *)
Fixpoint allChars (p : ascii -> bool) (s : string) : bool :=
  match s with
  | EmptyString => true
  | String c s' => p c && allChars p s'
  end.

(** The first character of [s], when it has one, passes [p]. *)
Definition startsWithChar (p : ascii -> bool) (s : string) : bool :=
  match s with
  | String c _ => p c
  | EmptyString => false
  end.

(** [s.toLowerCase()] on one code unit: [A-Z] and the Latin-1 capitals
    U+00C0..U+00DE (U+00D7, the multiplication sign, apart). *)
Definition lowerChar (c : ascii) : ascii :=
  let n := nat_of_ascii c in
  if ((65 <=? n) && (n <=? 90))
     || ((192 <=? n) && (n <=? 222) && negb (n =? 215))
  then ascii_of_nat (n + 32) else c.

Fixpoint toLowerCase (s : string) : string :=
  match s with
  | EmptyString => EmptyString
  | String c s' => String (lowerChar c) (toLowerCase s')
  end.

(** [s.startsWith(p)] is [String.prefix p s]; [s.endsWith(suffix)]: *)
Definition endsWith (s suffix : string) : bool :=
  let n := String.length s in
  let k := String.length suffix in
  (k <=? n) && (substring (n - k) k s =? suffix)%string.

(** [String(n)] for a non-negative integer. *)
Definition numberToString (n : N) : string :=
  NilZero.string_of_uint (N.to_uint n).

(** Truthiness of an optional string: [undefined] and [''] are falsy. *)
Definition truthyStr (o : option string) : bool :=
  match o with
  | Some s => negb (isEmpty s)
  | None => false
  end.

(** [o || d] for an optional string [o] and a string [d]. *)
Definition orElse (o : option string) (d : string) : string :=
  match o with
  | Some s => if isEmpty s then d else s
  | None => d
  end.

(** [xs.join(sep)] on strings. *)
Fixpoint join (sep : string) (xs : list string) : string :=
  match xs with
  | [] => EmptyString
  | [x] => x
  | x :: rest => x ++ sep ++ join sep rest
  end.

(** A value produced by [JSON.parse]. The fields of an object are kept in
    source order; [JSON.parse] lets the last of several equal keys win. *)
Inductive Value : Type :=
| Null
| Bool (b : bool)
| Number (x : Q)
| Str (s : string)
| Array (elements : list Value)
| Object (fields : list (string * Value)).

(** [ToBoolean] on a parsed value. *)
Definition truthy (v : Value) : bool :=
  match v with
  | Null => false
  | Bool b => b
  | Number x => negb (Qeq_bool x 0)
  | Str s => negb (isEmpty s)
  | Array _ | Object _ => true
  end.

Fixpoint lookupLast (key : string) (fields : list (string * Value)) : option Value :=
  match fields with
  | [] => None
  | (k, v) :: rest =>
      match lookupLast key rest with
      | Some w => Some w
      | None => if (k =? key)%string then Some v else None
      end
  end.

(** [v.key] for a key that is no member of a prototype ([None] is
    [undefined]): only an object has own properties under such a key. *)
Definition getProperty (v : Value) (key : string) : option Value :=
  match v with
  | Object fields => lookupLast key fields
  | _ => None
  end.

(** [typeof v === 'string'] *)
Definition isString (v : Value) : bool :=
  match v with Str _ => true | _ => false end.

(** The strings among [vs], in order: [vs.filter(s => typeof s === 'string')]. *)
Fixpoint strings (vs : list Value) : list string :=
  match vs with
  | [] => []
  | Str s :: rest => s :: strings rest
  | _ :: rest => strings rest
  end.

(** What a [throw] or a rejected promise carries: an [Error] object with
    its message, or another value that is not [null] or [undefined],
    whose [message] property may be missing. *)
Inductive Thrown : Type :=
| ErrorObject (message : string)
| OtherValue (message : option string).

(** [e.message] *)
Definition messageOf (e : Thrown) : option string :=
  match e with
  | ErrorObject m => Some m
  | OtherValue m => m
  end.

(** The outcome of a computation that may throw (also of an awaited
    promise: fulfilled or rejected). *)
Inductive Result (A : Type) : Type :=
| Ok (a : A)
| Throw (e : Thrown).
Arguments Ok {A} a.
Arguments Throw {A} e.

Definition bind {A B : Type} (r : Result A) (k : A -> Result B) : Result B :=
  match r with
  | Ok a => k a
  | Throw e => Throw e
  end.

End JS.

Notation "x <- r ;; k" := (JS.bind r (fun x => k))
  (at level 61, r at next level, right associativity).

(** Line feed and the double quote, as strings. *)
Definition LF : string := String (ascii_of_nat 10) EmptyString.
Definition DQ : string := String (ascii_of_nat 34) EmptyString.

(* ================================================================== *)
(** ** types.ts *)
(* ================================================================== *)

Variant MessageSender : Type := USER | MODEL | SYSTEM.

Module UrlContextMetadataItem.
Record t : Type := mk { retrievedUrl : string; urlRetrievalStatus : string }.
End UrlContextMetadataItem.

Module ChatMessage.
(** [isLoading] and [urlContext] are optional properties. *)
Record t : Type := mk {
  id : string;
  text : string;
  sender : MessageSender;
  timestamp : N;
  isLoading : option bool;
  urlContext : option (list UrlContextMetadataItem.t)
}.
End ChatMessage.

Module KnowledgeUrl.
Record t : Type := mk { url : string; title : string }.
End KnowledgeUrl.

Module LocalDocument.
Record t : Type := mk { id : string; name : string; content : string }.
End LocalDocument.

Module URLGroup.
Record t : Type := mk {
  id : string;
  name : string;
  urls : list KnowledgeUrl.t;
  documents : list LocalDocument.t
}.
End URLGroup.

(* ================================================================== *)
(** ** Collaborators *)
(* ================================================================== *)

(** An item of a PDF page's text content: a text item has a [str]
    property, a marked-content item has none. *)
Variant TextContentItem : Type :=
| TextItem (str : string)
| TextMarkedContent.

(** A loaded PDF: its pages in order ([numPages] is their number); loading
    a page or reading its text content may reject. *)
Definition PdfDocument : Type := list (JS.Result (list TextContentItem)).

Module File.
(** The browser's [File]: its name and the outcome of [arrayBuffer()]. *)
Record t : Type := mk { name : string; arrayBuffer : JS.Result (list Byte.byte) }.
End File.

(** What the handlers call and the repository does not define. *)
Class Platform : Type := {
  (** [new URL(s)] returns (it does not throw) *)
  URL_constructs : string -> bool;
  (** [JSON.parse(s)]; [None] when it throws *)
  JSON_parse : string -> option JS.Value;
  (** [(await mammoth.extractRawText({arrayBuffer})).value] *)
  mammoth_extractRawText : list Byte.byte -> JS.Result string;
  (** [await pdfjsLib.getDocument(new Uint8Array(arrayBuffer)).promise] *)
  pdfjs_getDocument : list Byte.byte -> JS.Result PdfDocument
}.

(** Response of [generateContentWithUrlContext]. *)
Module GenerateResponse.
Record t : Type := mk {
  text : option string;
  urlContextMetadata : option (list UrlContextMetadataItem.t)
}.
End GenerateResponse.

(** Response of [getInitialSuggestions]. *)
Module SuggestionsResponse.
Record t : Type := mk { text : option string }.
End SuggestionsResponse.

(* ================================================================== *)
(** ** The fence pattern of the suggestion fetcher *)
(* ================================================================== *)

(** A backtracking matcher for
    [/^```( \w* )?\s*\n?(.*?)\n?\s*```$/s] (blanks added inside the first
    group for this comment), written with continuations the
    way the engine tries its alternatives: a greedy quantifier tries the
    longest run first and gives back one character at a time, the lazy
    [.*?] tries the shortest capture first, and the first alternative
    whose continuation succeeds is the match. The flag [s] lets [.] match
    every character, [$] is the end of the input. Only the second group
    is read by the caller; the optional first group consumes what [\w*]
    consumes. *)
Module FenceRegex.

Section Combinators.
Context {A : Type}.

(** [p*] followed by [k], greedy. *)
Fixpoint greedyStar (p : ascii -> bool) (k : string -> option A) (s : string) : option A :=
  match s with
  | String c s' =>
      if p c then
        match greedyStar p k s' with
        | Some r => Some r
        | None => k s
        end
      else k s
  | EmptyString => k s
  end.

(** [p?] followed by [k], greedy. *)
Definition optional (p : ascii -> bool) (k : string -> option A) (s : string) : option A :=
  match s with
  | String c s' =>
      if p c then
        match k s' with
        | Some r => Some r
        | None => k s
        end
      else k s
  | EmptyString => k s
  end.

(** A literal followed by [k]. *)
Fixpoint literal (lit : string) (k : string -> option A) (s : string) : option A :=
  match lit with
  | EmptyString => k s
  | String c lit' =>
      match s with
      | String d s' => if Ascii.eqb c d then literal lit' k s' else None
      | EmptyString => None
      end
  end.

(** [(.*?)] followed by [k], lazy; [captured] is what the group holds so
    far, and [k] receives the capture. *)
Fixpoint lazyAny (k : string -> string -> option A) (captured s : string) : option A :=
  match k captured s with
  | Some r => Some r
  | None =>
      match s with
      | String c s' => lazyAny k (captured ++ String c EmptyString) s'
      | EmptyString => None
      end
  end.

End Combinators.

Definition fence : string := "```".

(** [$]: succeeds with [r] at the end of the input only. *)
Definition atEnd {A : Type} (r : A) (s : string) : option A :=
  if JS.isEmpty s then Some r else None.

(** [\n?\s*```$], returning the capture. *)
Definition closing (captured s : string) : option string :=
  optional JS.isNewline (greedyStar JS.isSpace (literal fence (atEnd captured))) s.

(** [jsonStr.match(fenceRegex)]: [None] for [null], otherwise the second
    group. *)
Definition exec (s : string) : option string :=
  literal fence
    (greedyStar JS.isWordChar
       (greedyStar JS.isSpace
          (optional JS.isNewline
             (lazyAny closing EmptyString)))) s.

End FenceRegex.

(* ================================================================== *)
(** ** The App component *)
(* ================================================================== *)

Module App.

Definition GEMINI_DOCS_KNOWLEDGE_URLS : list KnowledgeUrl.t := [
  KnowledgeUrl.mk "https://ai.google.dev/gemini-api/docs" "Gemini API Documentation";
  KnowledgeUrl.mk "https://ai.google.dev/gemini-api/docs/quickstart" "Gemini API Quickstart";
  KnowledgeUrl.mk "https://ai.google.dev/gemini-api/docs/api-key" "Get an API Key";
  KnowledgeUrl.mk "https://ai.google.dev/gemini-api/docs/libraries" "SDK Libraries";
  KnowledgeUrl.mk "https://ai.google.dev/gemini-api/docs/models" "Gemini Models";
  KnowledgeUrl.mk "https://ai.google.dev/gemini-api/docs/pricing" "Pricing Information";
  KnowledgeUrl.mk "https://ai.google.dev/gemini-api/docs/rate-limits" "Rate Limits";
  KnowledgeUrl.mk "https://ai.google.dev/gemini-api/docs/billing" "Billing and Payments";
  KnowledgeUrl.mk "https://ai.google.dev/gemini-api/docs/changelog" "API Changelog"
]%list.

Definition MODEL_CAPABILITIES_KNOWLEDGE_URLS : list KnowledgeUrl.t := [
  KnowledgeUrl.mk "https://ai.google.dev/gemini-api/docs/text-generation" "Text Generation";
  KnowledgeUrl.mk "https://ai.google.dev/gemini-api/docs/image-generation" "Image Generation";
  KnowledgeUrl.mk "https://ai.google.dev/gemini-api/docs/video" "Video Modality";
  KnowledgeUrl.mk "https://ai.google.dev/gemini-api/docs/speech-generation" "Speech Generation";
  KnowledgeUrl.mk "https://ai.google.dev/gemini-api/docs/music-generation" "Music Generation";
  KnowledgeUrl.mk "https://ai.google.dev/gemini-api/docs/long-context" "Long Context";
  KnowledgeUrl.mk "https://ai.google.dev/gemini-api/docs/structured-output" "Structured Output (JSON)";
  KnowledgeUrl.mk "https://ai.google.dev/gemini-api/docs/thinking" "Model Thinking";
  KnowledgeUrl.mk "https://ai.google.dev/gemini-api/docs/function-calling" "Function Calling";
  KnowledgeUrl.mk "https://ai.google.dev/gemini-api/docs/document-processing" "Document Processing";
  KnowledgeUrl.mk "https://ai.google.dev/gemini-api/docs/image-understanding" "Image Understanding";
  KnowledgeUrl.mk "https://ai.google.dev/gemini-api/docs/video-understanding" "Video Understanding";
  KnowledgeUrl.mk "https://ai.google.dev/gemini-api/docs/audio" "Audio Modality";
  KnowledgeUrl.mk "https://ai.google.dev/gemini-api/docs/code-execution" "Code Execution";
  KnowledgeUrl.mk "https://ai.google.dev/gemini-api/docs/grounding" "Grounding with Google Search"
]%list.

Definition INITIAL_URL_GROUPS : list URLGroup.t := [
  URLGroup.mk "gemini-overview" "Gemini Docs Overview" GEMINI_DOCS_KNOWLEDGE_URLS [];
  URLGroup.mk "model-capabilities" "Model Capabilities" MODEL_CAPABILITIES_KNOWLEDGE_URLS []
]%list.

Definition MAX_URLS : nat := 20.
Definition MAX_DOCS : nat := 5.

(** The state cells of the component that its handlers read or write. *)
Record State : Type := mkState {
  urlGroups : list URLGroup.t;
  activeUrlGroupId : string;
  chatMessages : list ChatMessage.t;
  isLoading : bool;
  isFetchingSuggestions : bool;
  initialQuerySuggestions : list string;
  isProcessingDoc : bool;
  docError : option string
}.

(** [useState] initial values; [INITIAL_URL_GROUPS[0].id] is the id of the
    first initial group. *)
Definition initialState : State := {|
  urlGroups := INITIAL_URL_GROUPS;
  activeUrlGroupId := "gemini-overview";
  chatMessages := [];
  isLoading := false;
  isFetchingSuggestions := false;
  initialQuerySuggestions := [];
  isProcessingDoc := false;
  docError := None
|}.

(** *** State setters *)

Definition setUrlGroups (f : list URLGroup.t -> list URLGroup.t) (st : State) : State :=
  mkState (f (urlGroups st)) (activeUrlGroupId st) (chatMessages st) (isLoading st)
    (isFetchingSuggestions st) (initialQuerySuggestions st) (isProcessingDoc st) (docError st).

(** The setter that the component passes as [onSetGroupId]: the group
    selector calls it with the value of the chosen option. *)
Definition setActiveUrlGroupId (groupId : string) (st : State) : State :=
  mkState (urlGroups st) groupId (chatMessages st) (isLoading st)
    (isFetchingSuggestions st) (initialQuerySuggestions st) (isProcessingDoc st) (docError st).

Definition setChatMessages (f : list ChatMessage.t -> list ChatMessage.t) (st : State) : State :=
  mkState (urlGroups st) (activeUrlGroupId st) (f (chatMessages st)) (isLoading st)
    (isFetchingSuggestions st) (initialQuerySuggestions st) (isProcessingDoc st) (docError st).

Definition setIsLoading (b : bool) (st : State) : State :=
  mkState (urlGroups st) (activeUrlGroupId st) (chatMessages st) b
    (isFetchingSuggestions st) (initialQuerySuggestions st) (isProcessingDoc st) (docError st).

Definition setIsFetchingSuggestions (b : bool) (st : State) : State :=
  mkState (urlGroups st) (activeUrlGroupId st) (chatMessages st) (isLoading st)
    b (initialQuerySuggestions st) (isProcessingDoc st) (docError st).

Definition setInitialQuerySuggestions (l : list string) (st : State) : State :=
  mkState (urlGroups st) (activeUrlGroupId st) (chatMessages st) (isLoading st)
    (isFetchingSuggestions st) l (isProcessingDoc st) (docError st).

Definition setIsProcessingDoc (b : bool) (st : State) : State :=
  mkState (urlGroups st) (activeUrlGroupId st) (chatMessages st) (isLoading st)
    (isFetchingSuggestions st) (initialQuerySuggestions st) b (docError st).

Definition setDocError (e : option string) (st : State) : State :=
  mkState (urlGroups st) (activeUrlGroupId st) (chatMessages st) (isLoading st)
    (isFetchingSuggestions st) (initialQuerySuggestions st) (isProcessingDoc st) e.

(** *** Derived values of a render *)

(** [urlGroups.find(group => group.id === activeUrlGroupId)] *)
Definition activeGroup (st : State) : option URLGroup.t :=
  find (fun group => (URLGroup.id group =? activeUrlGroupId st)%string) (urlGroups st).

Definition currentUrlsForChat (st : State) : list KnowledgeUrl.t :=
  match activeGroup st with
  | Some g => URLGroup.urls g
  | None => []
  end.

Definition currentDocsForChat (st : State) : list LocalDocument.t :=
  match activeGroup st with
  | Some g => URLGroup.documents g
  | None => []
  end.

(** *** The knowledge-group store *)

Definition withUrls (group : URLGroup.t) (urls : list KnowledgeUrl.t) : URLGroup.t :=
  URLGroup.mk (URLGroup.id group) (URLGroup.name group) urls (URLGroup.documents group).

Definition withDocuments (group : URLGroup.t) (documents : list LocalDocument.t) : URLGroup.t :=
  URLGroup.mk (URLGroup.id group) (URLGroup.name group) (URLGroup.urls group) documents.

(** [group.urls.some(item => item.url === url)] *)
Definition hasUrl (url : string) (urls : list KnowledgeUrl.t) : bool :=
  existsb (fun item => (KnowledgeUrl.url item =? url)%string) urls.

(** The updater of [handleAddUrl], with the [activeUrlGroupId] of the
    render that created the handler. *)
Definition addUrlUpdater (activeId url : string) (prevGroups : list URLGroup.t) : list URLGroup.t :=
  map (fun group =>
         if (URLGroup.id group =? activeId)%string then
           if (length (URLGroup.urls group) <? MAX_URLS) && negb (hasUrl url (URLGroup.urls group))
           then withUrls group (URLGroup.urls group ++ [KnowledgeUrl.mk url url])
           else group
         else group) prevGroups.

Definition handleAddUrl (url : string) (st : State) : State :=
  setUrlGroups (addUrlUpdater (activeUrlGroupId st) url) st.

Definition removeUrlUpdater (activeId urlToRemove : string) (prevGroups : list URLGroup.t) : list URLGroup.t :=
  map (fun group =>
         if (URLGroup.id group =? activeId)%string then
           withUrls group
             (filter (fun item => negb (KnowledgeUrl.url item =? urlToRemove)%string)
                (URLGroup.urls group))
         else group) prevGroups.

Definition handleRemoveUrl (urlToRemove : string) (st : State) : State :=
  setUrlGroups (removeUrlUpdater (activeUrlGroupId st) urlToRemove) st.

Definition removeDocumentUpdater (activeId docIdToRemove : string) (prevGroups : list URLGroup.t) : list URLGroup.t :=
  map (fun group =>
         if (URLGroup.id group =? activeId)%string then
           withDocuments group
             (filter (fun doc => negb (LocalDocument.id doc =? docIdToRemove)%string)
                (URLGroup.documents group))
         else group) prevGroups.

Definition handleRemoveDocument (docIdToRemove : string) (st : State) : State :=
  setUrlGroups (removeDocumentUpdater (activeUrlGroupId st) docIdToRemove) st.

(** *** Document ingestion *)

Section Ingestion.
Context {P : Platform}.

Definition unsupportedTypeMessage : string :=
  "Unsupported file type. Please select a .docx or .pdf file.".

Definition noTextMessage : string :=
  "Could not extract any text from the document. It might be empty or image-based.".

Definition readFailureMessage : string :=
  "Failed to read the content of this file.".

Definition maxDocsMessage : string :=
  "Maximum of " ++ JS.numberToString (N.of_nat MAX_DOCS) ++ " documents reached.".

(** [content.items.map(item => ('str' in item ? item.str : '')).join(' ')] *)
Definition pageText (items : list TextContentItem) : string :=
  JS.join " "
    (map (fun item => match item with TextItem str => str | TextMarkedContent => "" end) items).

(** The loop over the pages [1..numPages], from the text gathered so far. *)
Fixpoint extractPages (pages : PdfDocument) (extractedText : string) : JS.Result string :=
  match pages with
  | [] => JS.Ok extractedText
  | page :: rest =>
      items <- page ;;
      extractPages rest (extractedText ++ pageText items ++ LF ++ LF)
  end.

Definition isDocx (file : File.t) : bool :=
  JS.endsWith (JS.toLowerCase (File.name file)) ".docx".

Definition isPdf (file : File.t) : bool :=
  JS.endsWith (JS.toLowerCase (File.name file)) ".pdf".

(** The [textContent] of [handleAddDocument], up to the test of its
    emptiness. *)
Definition extractTextContent (file : File.t) : JS.Result string :=
  arrayBuffer <- File.arrayBuffer file ;;
  if isDocx file then
    mammoth_extractRawText arrayBuffer
  else if isPdf file then
    pdf <- pdfjs_getDocument arrayBuffer ;;
    extractedText <- extractPages pdf "" ;;
    JS.Ok (JS.trim extractedText)
  else JS.Throw (JS.ErrorObject unsupportedTypeMessage).

(** The [newDocument] of [handleAddDocument]; [now] is [Date.now()]. *)
Definition newDocument (now : N) (file : File.t) : JS.Result LocalDocument.t :=
  textContent <- extractTextContent file ;;
  if JS.isEmpty (JS.trim textContent) then JS.Throw (JS.ErrorObject noTextMessage)
  else JS.Ok (LocalDocument.mk
                ("doc-" ++ JS.numberToString now ++ "-" ++ File.name file)
                (File.name file) textContent).

(** The updater of [handleAddDocument]: the new groups. *)
Definition addDocumentUpdater (activeId : string) (newDoc : LocalDocument.t)
    (prevGroups : list URLGroup.t) : list URLGroup.t :=
  map (fun group =>
         if (URLGroup.id group =? activeId)%string then
           if length (URLGroup.documents group) <? MAX_DOCS
           then withDocuments group (URLGroup.documents group ++ [newDoc])
           else group
         else group) prevGroups.

(** The updater of [handleAddDocument]: whether it calls [setDocError],
    which it does for a group with the active id that is full. *)
Definition addDocumentOverflows (activeId : string) (prevGroups : list URLGroup.t) : bool :=
  existsb (fun group =>
             (URLGroup.id group =? activeId)%string
             && negb (length (URLGroup.documents group) <? MAX_DOCS)) prevGroups.

(** [error instanceof Error ? error.message : ...] *)
Definition docErrorMessage (error : JS.Thrown) : string :=
  match error with
  | JS.ErrorObject message => message
  | JS.OtherValue _ => readFailureMessage
  end.

(** Before the first [await]. *)
Definition handleAddDocument_start (st : State) : State :=
  setDocError None (setIsProcessingDoc true st).

(** From the first [await] to the end, on the state found then;
    [activeId] is the [activeUrlGroupId] of the render that created the
    handler. *)
Definition handleAddDocument_finish (activeId : string) (now : N) (file : File.t)
    (st : State) : State :=
  setIsProcessingDoc false
    match newDocument now file with
    | JS.Ok newDoc =>
        let st' := setUrlGroups (addDocumentUpdater activeId newDoc) st in
        if addDocumentOverflows activeId (urlGroups st)
        then setDocError (Some maxDocsMessage) st'
        else st'
    | JS.Throw error => setDocError (Some (docErrorMessage error)) st
    end.

(** The handler run without another event in between. *)
Definition handleAddDocument (now : N) (file : File.t) (st : State) : State :=
  handleAddDocument_finish (activeUrlGroupId st) now file (handleAddDocument_start st).

End Ingestion.

(** *** The chat request cycle *)

(** The readings of the clock taken by [handleSendMessage], in order. *)
Record SendClock : Type := mkSendClock {
  userIdNow : N;
  userTimestamp : N;
  modelIdNow : N;
  modelTimestamp : N
}.

Definition missingKeyMessage : string :=
  "ERROR: API Key (process.env.API_KEY) is not configured. Please set it up to send messages.".

Definition emptyResponseMessage : string := "I received an empty response.".

Definition noResponseMessage : string := "Failed to get response from AI.".

Definition userMessage (clock : SendClock) (query : string) : ChatMessage.t := {|
  ChatMessage.id := "user-" ++ JS.numberToString (userIdNow clock);
  ChatMessage.text := query;
  ChatMessage.sender := USER;
  ChatMessage.timestamp := userTimestamp clock;
  ChatMessage.isLoading := None;
  ChatMessage.urlContext := None
|}.

Definition modelPlaceholderMessage (clock : SendClock) : ChatMessage.t := {|
  ChatMessage.id := "model-response-" ++ JS.numberToString (modelIdNow clock);
  ChatMessage.text := "Thinking...";
  ChatMessage.sender := MODEL;
  ChatMessage.timestamp := modelTimestamp clock;
  ChatMessage.isLoading := Some true;
  ChatMessage.urlContext := None
|}.

Definition apiKeyErrorMessage (now timestamp : N) : ChatMessage.t := {|
  ChatMessage.id := "error-apikey-" ++ JS.numberToString now;
  ChatMessage.text := missingKeyMessage;
  ChatMessage.sender := SYSTEM;
  ChatMessage.timestamp := timestamp;
  ChatMessage.isLoading := None;
  ChatMessage.urlContext := None
|}.

(** How the synchronous part of [handleSendMessage] ends. *)
Variant SendStart : Type :=
| Ignored                                   (* the guard returned *)
| MissingKey                                (* the API-key error was appended *)
| Requested (placeholder : ChatMessage.t).  (* the request is issued *)

(** [handleSendMessage] up to its [await]; [apiKey] is
    [process.env.API_KEY]. *)
Definition handleSendMessage_start (apiKey : option string) (clock : SendClock)
    (query : string) (st : State) : State * SendStart :=
  if JS.isEmpty (JS.trim query) || isLoading st || isFetchingSuggestions st then
    (st, Ignored)
  else if negb (JS.truthyStr apiKey) then
    (setChatMessages
       (fun prev => prev ++ [apiKeyErrorMessage (userIdNow clock) (userTimestamp clock)]) st,
     MissingKey)
  else
    (setChatMessages
       (fun prevMessages => prevMessages ++ [userMessage clock query; modelPlaceholderMessage clock])
       (setInitialQuerySuggestions [] (setIsLoading true st)),
     Requested (modelPlaceholderMessage clock)).

(** [{...modelPlaceholderMessage, text: response.text || ..., isLoading:
    false, urlContext: response.urlContextMetadata}] *)
Definition resolvedMessage (placeholder : ChatMessage.t) (response : GenerateResponse.t)
    : ChatMessage.t := {|
  ChatMessage.id := ChatMessage.id placeholder;
  ChatMessage.text := JS.orElse (GenerateResponse.text response) emptyResponseMessage;
  ChatMessage.sender := ChatMessage.sender placeholder;
  ChatMessage.timestamp := ChatMessage.timestamp placeholder;
  ChatMessage.isLoading := Some false;
  ChatMessage.urlContext := GenerateResponse.urlContextMetadata response
|}.

(** [e.message || 'Failed to get response from AI.'] *)
Definition failureReason (e : JS.Thrown) : string :=
  JS.orElse (JS.messageOf e) noResponseMessage.

(** [{...modelPlaceholderMessage, text: `Error: ${errorMessage}`, sender:
    MessageSender.SYSTEM, isLoading: false}] *)
Definition failedMessage (placeholder : ChatMessage.t) (e : JS.Thrown) : ChatMessage.t := {|
  ChatMessage.id := ChatMessage.id placeholder;
  ChatMessage.text := "Error: " ++ failureReason e;
  ChatMessage.sender := SYSTEM;
  ChatMessage.timestamp := ChatMessage.timestamp placeholder;
  ChatMessage.isLoading := Some false;
  ChatMessage.urlContext := ChatMessage.urlContext placeholder
|}.

(** [prevMessages.map(msg => msg.id === placeholder.id ? replacement : msg)] *)
Definition replaceById (placeholder replacement : ChatMessage.t)
    (prevMessages : list ChatMessage.t) : list ChatMessage.t :=
  map (fun msg =>
         if (ChatMessage.id msg =? ChatMessage.id placeholder)%string
         then replacement else msg) prevMessages.

(** [handleSendMessage] after its [await]: the [try] continues or the
    [catch] runs, then the [finally]. *)
Definition handleSendMessage_settle (placeholder : ChatMessage.t)
    (outcome : JS.Result GenerateResponse.t) (st : State) : State :=
  setIsLoading false
    match outcome with
    | JS.Ok response =>
        setChatMessages (replaceById placeholder (resolvedMessage placeholder response)) st
    | JS.Throw e =>
        setChatMessages (replaceById placeholder (failedMessage placeholder e)) st
    end.

(** [handleSendMessage] of the render [render], called when the state
    is [st]: the guard reads the [isLoading] and [isFetchingSuggestions]
    that the render captured, the setters act on the state found.
    [handleSendMessage_start] is the call on the state of the render
    itself. *)
Definition handleSendMessage_called (render : State) (apiKey : option string)
    (clock : SendClock) (query : string) (st : State) : State * SendStart :=
  if JS.isEmpty (JS.trim query) || isLoading render || isFetchingSuggestions render then
    (st, Ignored)
  else if negb (JS.truthyStr apiKey) then
    (setChatMessages
       (fun prev => prev ++ [apiKeyErrorMessage (userIdNow clock) (userTimestamp clock)]) st,
     MissingKey)
  else
    (setChatMessages
       (fun prevMessages => prevMessages ++ [userMessage clock query; modelPlaceholderMessage clock])
       (setInitialQuerySuggestions [] (setIsLoading true st)),
     Requested (modelPlaceholderMessage clock)).

(** The handler run without another event before the service answers. *)
Definition handleSendMessage (apiKey : option string) (clock : SendClock) (query : string)
    (outcome : JS.Result GenerateResponse.t) (st : State) : State :=
  match handleSendMessage_start apiKey clock query st with
  | (st', Requested placeholder) => handleSendMessage_settle placeholder outcome st'
  | (st', _) => st'
  end.

(** The arguments of [generateContentWithUrlContext]. *)
Definition generationRequest (query : string) (st : State) : string * list string * list string :=
  (query, map KnowledgeUrl.url (currentUrlsForChat st),
   map LocalDocument.content (currentDocsForChat st)).

(** *** The suggestion fetcher *)

Section Suggestions.
Context {P : Platform}.

Definition systemMessage (idPrefix : string) (now timestamp : N) (text : string)
    : ChatMessage.t := {|
  ChatMessage.id := idPrefix ++ JS.numberToString now;
  ChatMessage.text := text;
  ChatMessage.sender := SYSTEM;
  ChatMessage.timestamp := timestamp;
  ChatMessage.isLoading := None;
  ChatMessage.urlContext := None
|}.

Definition unexpectedFormatMessage : string :=
  "Received suggestions in an unexpected format.".

Definition parseErrorMessage : string := "Error parsing suggestions from AI.".

Definition fetchFailureMessage : string := "Failed to fetch initial suggestions.".

(** The string handed to [JSON.parse]: the trimmed text, or the trimmed
    second group of the fence pattern when the pattern matches and the
    group is not empty. *)
Definition jsonStrOf (text : string) : string :=
  let jsonStr := JS.trim text in
  match FenceRegex.exec jsonStr with
  | Some group2 => if JS.isEmpty group2 then jsonStr else JS.trim group2
  | None => jsonStr
  end.

(** What the inner [try] makes of a truthy response text. *)
Variant Parsed : Type :=
| Suggestions (suggestionsArray : list string)
| UnexpectedFormat
| ParseError.

Definition parseSuggestions (text : string) : Parsed :=
  match JSON_parse (jsonStrOf text) with
  | Some parsed =>
      if JS.truthy parsed then
        match JS.getProperty parsed "suggestions" with
        | Some (JS.Array elements) => Suggestions (JS.strings elements)
        | _ => UnexpectedFormat
        end
      else UnexpectedFormat
  | None => ParseError
  end.

(** [fetchAndSetInitialSuggestions] up to its [await]; the boolean tells
    whether the request is issued. *)
Definition fetchAndSetInitialSuggestions_start (urls : list string)
    (docs : list LocalDocument.t) (st : State) : State * bool :=
  if (length urls =? 0) && (length docs =? 0) then
    (setInitialQuerySuggestions [] st, false)
  else
    (setInitialQuerySuggestions [] (setIsFetchingSuggestions true st), true).

(** [fetchAndSetInitialSuggestions] after its [await]; [now] and
    [timestamp] are read when a system message is built. *)
Definition fetchAndSetInitialSuggestions_settle (now timestamp : N)
    (outcome : JS.Result SuggestionsResponse.t) (st : State) : State :=
  setIsFetchingSuggestions false
    match outcome with
    | JS.Ok response =>
        match SuggestionsResponse.text response with
        | Some text =>
            if JS.isEmpty text then setInitialQuerySuggestions (firstn 4 []) st
            else
              match parseSuggestions text with
              | Suggestions suggestionsArray =>
                  setInitialQuerySuggestions (firstn 4 suggestionsArray) st
              | UnexpectedFormat =>
                  setInitialQuerySuggestions (firstn 4 [])
                    (setChatMessages
                       (fun prev => prev ++ [systemMessage "sys-err-suggestion-fmt-" now timestamp
                                               unexpectedFormatMessage]) st)
              | ParseError =>
                  setInitialQuerySuggestions (firstn 4 [])
                    (setChatMessages
                       (fun prev => prev ++ [systemMessage "sys-err-suggestion-parse-" now timestamp
                                               parseErrorMessage]) st)
              end
        | None => setInitialQuerySuggestions (firstn 4 []) st
        end
    | JS.Throw e =>
        setChatMessages
          (fun prev => prev ++ [systemMessage "sys-err-suggestion-fetch-" now timestamp
                                  ("Error fetching suggestions: "
                                   ++ JS.orElse (JS.messageOf e) fetchFailureMessage)]) st
    end.

(** The fetch run without another event before the service answers. *)
Definition fetchAndSetInitialSuggestions (now timestamp : N) (urls : list string)
    (docs : list LocalDocument.t) (outcome : JS.Result SuggestionsResponse.t)
    (st : State) : State :=
  match fetchAndSetInitialSuggestions_start urls docs st with
  | (st', true) => fetchAndSetInitialSuggestions_settle now timestamp outcome st'
  | (st', false) => st'
  end.

End Suggestions.

(** *** The welcome effect *)

Definition missingKeyWelcome : string :=
  "ERROR: Gemini API Key (process.env.API_KEY) is not configured. Please set this environment variable to use the application.".

Definition welcomeMessageText (apiKey : option string) (st : State) : string :=
  if negb (JS.truthyStr apiKey) then missingKeyWelcome
  else
    "Welcome to Documentation Chat Bot! You're currently browsing content from: " ++ DQ
    ++ JS.orElse (option_map URLGroup.name (activeGroup st)) "None" ++ DQ
    ++ ". Just ask me questions, or try one of the suggestions below to get started".

(** The effect that runs when [activeUrlGroupId] or [urlGroups] changed. *)
Definition welcomeEffect (apiKey : option string) (now timestamp : N) (st : State) : State :=
  setChatMessages
    (fun _ => [{| ChatMessage.id :=
                    "system-welcome-" ++ activeUrlGroupId st ++ "-" ++ JS.numberToString now;
                  ChatMessage.text := welcomeMessageText apiKey st;
                  ChatMessage.sender := SYSTEM;
                  ChatMessage.timestamp := timestamp;
                  ChatMessage.isLoading := None;
                  ChatMessage.urlContext := None |}]) st.

End App.

(* ================================================================== *)
(** ** The KnowledgeBaseManager component *)
(* ================================================================== *)

Module KnowledgeBaseManager.

Record State : Type := mkState {
  currentUrlInput : string;
  urlError : option string;
  urlToDelete : option KnowledgeUrl.t;
  docToDelete : option LocalDocument.t
}.

Definition initialState : State := mkState "" None None None.

Definition setCurrentUrlInput (v : string) (st : State) : State :=
  mkState v (urlError st) (urlToDelete st) (docToDelete st).

Definition setUrlError (e : option string) (st : State) : State :=
  mkState (currentUrlInput st) e (urlToDelete st) (docToDelete st).

Definition setUrlToDelete (item : option KnowledgeUrl.t) (st : State) : State :=
  mkState (currentUrlInput st) (urlError st) item (docToDelete st).

Definition setDocToDelete (doc : option LocalDocument.t) (st : State) : State :=
  mkState (currentUrlInput st) (urlError st) (urlToDelete st) doc.

Definition emptyUrlMessage : string := "URL cannot be empty.".

Definition invalidUrlMessage : string :=
  "Invalid URL format. Please include http:// or https://".

Definition maxUrlsMessage (maxUrls : nat) : string :=
  "You can add a maximum of " ++ JS.numberToString (N.of_nat maxUrls)
  ++ " URLs to the current group.".

Definition duplicateUrlMessage : string :=
  "This URL has already been added to the current group.".

(** [try { new URL(urlString); return true } catch (e) { return false }] *)
Definition isValidUrl {P : Platform} (urlString : string) : bool :=
  URL_constructs urlString.

(** The change handler of the URL input. *)
Definition onUrlInputChange (value : string) (st : State) : State :=
  setUrlError None (setCurrentUrlInput value st).

(** [handleAddUrl] with the props [urls] and [maxUrls]: the state after
    it, and the argument of its call of [onAddUrl], if it makes one. *)
Definition handleAddUrl {P : Platform} (urls : list KnowledgeUrl.t) (maxUrls : nat)
    (st : State) : State * option string :=
  if JS.isEmpty (JS.trim (currentUrlInput st)) then
    (setUrlError (Some emptyUrlMessage) st, None)
  else if negb (isValidUrl (currentUrlInput st)) then
    (setUrlError (Some invalidUrlMessage) st, None)
  else if maxUrls <=? length urls then
    (setUrlError (Some (maxUrlsMessage maxUrls)) st, None)
  else if existsb (fun item => (KnowledgeUrl.url item =? currentUrlInput st)%string) urls then
    (setUrlError (Some duplicateUrlMessage) st, None)
  else
    (setUrlError None (setCurrentUrlInput "" st), Some (currentUrlInput st)).

(** [handleConfirmUrlDelete]: the state after it and the argument of its
    call of [onRemoveUrl], if it makes one. *)
Definition handleConfirmUrlDelete (st : State) : State * option string :=
  match urlToDelete st with
  | Some item => (setUrlToDelete None st, Some (KnowledgeUrl.url item))
  | None => (st, None)
  end.

Definition handleConfirmDocDelete (st : State) : State * option string :=
  match docToDelete st with
  | Some doc => (setDocToDelete None st, Some (LocalDocument.id doc))
  | None => (st, None)
  end.

(** What [handleFileChange] does with the chosen file. *)
Variant FileChange : Type :=
| CallOnAddDocument (file : File.t)
| Alert (message : string)
| NoFile.

Definition handleFileChange (chosen : option File.t) : FileChange :=
  match chosen with
  | Some file =>
      let fileName := JS.toLowerCase (File.name file) in
      if JS.endsWith fileName ".docx" || JS.endsWith fileName ".pdf"
      then CallOnAddDocument file
      else Alert "Please upload a valid .docx or .pdf file."
  | None => NoFile
  end.

(** The values of the options of the group selector. *)
Definition groupOptions (urlGroups : list URLGroup.t) : list string :=
  map URLGroup.id urlGroups.

End KnowledgeBaseManager.

(* ================================================================== *)
(** ** The page: App with its KnowledgeBaseManager child *)
(* ================================================================== *)

(** The props that [App] passes down: [urls] is [currentUrlsForChat],
    [maxUrls] is [MAX_URLS], [onAddUrl] is [handleAddUrl], [onRemoveUrl]
    is [handleRemoveUrl], [onSetGroupId] is [setActiveUrlGroupId]. *)
Module Page.

Record State : Type := mk {
  app : App.State;
  kb : KnowledgeBaseManager.State
}.

Definition initialState : State := mk App.initialState KnowledgeBaseManager.initialState.

(** Typing [value] into the URL input. *)
Definition typeUrl (value : string) (st : State) : State :=
  mk (app st) (KnowledgeBaseManager.onUrlInputChange value (kb st)).

(** Pressing the add button (or Enter in the URL input). *)
Definition submitUrl {P : Platform} (st : State) : State :=
  match KnowledgeBaseManager.handleAddUrl (App.currentUrlsForChat (app st)) App.MAX_URLS (kb st) with
  | (kb', Some url) => mk (App.handleAddUrl url (app st)) kb'
  | (kb', None) => mk (app st) kb'
  end.

(** The user's add-URL action: type the URL, then submit it. *)
Definition addUrl {P : Platform} (url : string) (st : State) : State :=
  submitUrl (typeUrl url st).

(** Pressing the trash icon of [item] and confirming the deletion. *)
Definition removeUrl (item : KnowledgeUrl.t) (st : State) : State :=
  match KnowledgeBaseManager.handleConfirmUrlDelete
          (KnowledgeBaseManager.setUrlToDelete (Some item) (kb st)) with
  | (kb', Some url) => mk (App.handleRemoveUrl url (app st)) kb'
  | (kb', None) => mk (app st) kb'
  end.

(** Choosing a file in the file input. *)
Definition chooseFile {P : Platform} (now : N) (chosen : option File.t) (st : State) : State :=
  match KnowledgeBaseManager.handleFileChange chosen with
  | KnowledgeBaseManager.CallOnAddDocument file => mk (App.handleAddDocument now file (app st)) (kb st)
  | _ => st
  end.

End Page.

(* ================================================================== *)
(** ** Sequences of store operations *)
(* ================================================================== *)

Module Store.

(** The operations of the knowledge-group store, as events on [App]. *)
Inductive Op : Type :=
| AddUrl (url : string)
| RemoveUrl (url : string)
| AddDocument (now : N) (file : File.t)
| RemoveDocument (docId : string)
| SetActiveGroup (groupId : string).

Definition step {P : Platform} (st : App.State) (op : Op) : App.State :=
  match op with
  | AddUrl url => App.handleAddUrl url st
  | RemoveUrl url => App.handleRemoveUrl url st
  | AddDocument now file => App.handleAddDocument now file st
  | RemoveDocument docId => App.handleRemoveDocument docId st
  | SetActiveGroup groupId => App.setActiveUrlGroupId groupId st
  end.

Definition run {P : Platform} (ops : list Op) (st : App.State) : App.State :=
  fold_left step ops st.

(** The capacity invariant of one group. *)
Definition withinLimits (group : URLGroup.t) : Prop :=
  length (URLGroup.urls group) <= App.MAX_URLS
  /\ length (URLGroup.documents group) <= App.MAX_DOCS.

(** The number of entries of [urls] whose url is [url]. *)
Definition countUrl (url : string) (urls : list KnowledgeUrl.t) : nat :=
  length (filter (fun item => (KnowledgeUrl.url item =? url)%string) urls).

(** The operation can come from the sidebar whose group selector offers
    [options]: a selection passes the value of one of the options. *)
Definition fromSelector (options : list string) (op : Op) : Prop :=
  match op with
  | SetActiveGroup groupId => In groupId options
  | _ => True
  end.

End Store.

(* ================================================================== *)
(** ** A platform for the examples *)
(* ================================================================== *)

(** The theorems hold for every [Platform]. The examples run on this one:
    a JSON reader for texts whose code units are below 256 (numbers are
    read exactly, as rationals), and stand-ins for the URL parser and for
    the two decoders. *)
Module Reference.

Definition quoteChar : ascii := ascii_of_nat 34.
Definition backslashChar : ascii := ascii_of_nat 92.

Definition isJsonSpace (c : ascii) : bool :=
  let n := nat_of_ascii c in
  (n =? 32) || (n =? 9) || (n =? 10) || (n =? 13).

Fixpoint skipSpace (s : string) : string :=
  match s with
  | String c r => if isJsonSpace c then skipSpace r else s
  | EmptyString => s
  end.

Definition isDigit (c : ascii) : bool :=
  let n := nat_of_ascii c in (48 <=? n) && (n <=? 57).

Fixpoint takeDigits (s : string) : string * string :=
  match s with
  | String c r =>
      if isDigit c then let (ds, rest) := takeDigits r in (String c ds, rest)
      else (EmptyString, s)
  | EmptyString => (EmptyString, s)
  end.

Fixpoint digitsValue (acc : Z) (ds : string) : Z :=
  match ds with
  | String c r => digitsValue (10 * acc + Z.of_nat (nat_of_ascii c - 48)) r
  | EmptyString => acc
  end.

Definition hexValue (c : ascii) : option nat :=
  let n := nat_of_ascii c in
  if (48 <=? n) && (n <=? 57) then Some (n - 48)
  else if (65 <=? n) && (n <=? 70) then Some (n - 55)
  else if (97 <=? n) && (n <=? 102) then Some (n - 87)
  else None.

Definition scaled (mantissa exponent : Z) : Q :=
  match exponent with
  | Zneg p => Qmake mantissa (Pos.pow 10 p)
  | _ => Qmake (mantissa * Z.pow 10 exponent) 1
  end.

(** [-? int frac? exp?] *)
Definition parseNumber (s : string) : option (Q * string) :=
  let (negative, s1) :=
    match s with
    | String "-"%char r => (true, r)
    | _ => (false, s)
    end in
  let (intPart, s2) := takeDigits s1 in
  if JS.isEmpty intPart
     || ((1 <? String.length intPart) && String.prefix "0" intPart)
  then None
  else
    let fraction :=
      match s2 with
      | String "."%char r =>
          let (ds, r') := takeDigits r in
          if JS.isEmpty ds then None else Some (ds, r')
      | _ => Some (EmptyString, s2)
      end in
    match fraction with
    | None => None
    | Some (fracPart, s3) =>
        let exponent :=
          match s3 with
          | String e r =>
              if (Ascii.eqb e "e" || Ascii.eqb e "E")%char then
                let (expNegative, r1) :=
                  match r with
                  | String "-"%char r' => (true, r')
                  | String "+"%char r' => (false, r')
                  | _ => (false, r)
                  end in
                let (ds, r2) := takeDigits r1 in
                if JS.isEmpty ds then None
                else Some ((if expNegative then Z.opp else fun z => z) (digitsValue 0 ds), r2)
              else Some (0%Z, s3)
          | EmptyString => Some (0%Z, s3)
          end in
        match exponent with
        | None => None
        | Some (e, s4) =>
            let mantissa := digitsValue 0 (intPart ++ fracPart) in
            let x := scaled mantissa (e - Z.of_nat (String.length fracPart)) in
            Some (if negative then Qopp x else x, s4)
        end
    end.

Definition simpleEscape (c : ascii) : option ascii :=
  let n := nat_of_ascii c in
  if (n =? 34) || (n =? 92) || (n =? 47) then Some c
  else if n =? 98 then Some (ascii_of_nat 8)
  else if n =? 102 then Some (ascii_of_nat 12)
  else if n =? 110 then Some (ascii_of_nat 10)
  else if n =? 114 then Some (ascii_of_nat 13)
  else if n =? 116 then Some (ascii_of_nat 9)
  else None.

(** The characters of a string after its opening quote, up to the closing
    one. An escape of a code unit above 255 is outside the model. *)
Fixpoint parseStringBody (s acc : string) : option (string * string) :=
  match s with
  | EmptyString => None
  | String c r =>
      if Ascii.eqb c quoteChar then Some (acc, r)
      else if nat_of_ascii c <? 32 then None
      else if Ascii.eqb c backslashChar then
        match r with
        | String e r' =>
            match simpleEscape e with
            | Some ch => parseStringBody r' (acc ++ String ch EmptyString)
            | None =>
                if Ascii.eqb e "u"%char then
                  match r' with
                  | String h1 (String h2 (String h3 (String h4 r''))) =>
                      match hexValue h1, hexValue h2, hexValue h3, hexValue h4 with
                      | Some 0, Some 0, Some a, Some b =>
                          parseStringBody r'' (acc ++ String (ascii_of_nat (16 * a + b)) EmptyString)
                      | _, _, _, _ => None
                      end
                  | _ => None
                  end
                else None
            end
        | EmptyString => None
        end
      else parseStringBody r (acc ++ String c EmptyString)
  end.

Fixpoint parseValue (fuel : nat) (s : string) : option (JS.Value * string) :=
  match fuel with
  | O => None
  | S fuel' =>
      match skipSpace s with
      | EmptyString => None
      | String c r =>
          if Ascii.eqb c "{"%char then
            match skipSpace r with
            | String "}"%char r' => Some (JS.Object [], r')
            | _ => parseMembers fuel' r []
            end
          else if Ascii.eqb c "["%char then
            match skipSpace r with
            | String "]"%char r' => Some (JS.Array [], r')
            | _ => parseElements fuel' r []
            end
          else if Ascii.eqb c quoteChar then
            match parseStringBody r EmptyString with
            | Some (str, r') => Some (JS.Str str, r')
            | None => None
            end
          else if String.prefix "true" (String c r) then
            Some (JS.Bool true, substring 4 (String.length r) (String c r))
          else if String.prefix "false" (String c r) then
            Some (JS.Bool false, substring 5 (String.length r) (String c r))
          else if String.prefix "null" (String c r) then
            Some (JS.Null, substring 4 (String.length r) (String c r))
          else
            match parseNumber (String c r) with
            | Some (x, r') => Some (JS.Number x, r')
            | None => None
            end
      end
  end
with parseElements (fuel : nat) (s : string) (acc : list JS.Value) : option (JS.Value * string) :=
  match fuel with
  | O => None
  | S fuel' =>
      match parseValue fuel' s with
      | Some (v, r) =>
          match skipSpace r with
          | String c r' =>
              if Ascii.eqb c ","%char then parseElements fuel' r' (acc ++ [v])
              else if Ascii.eqb c "]"%char then Some (JS.Array (acc ++ [v]), r')
              else None
          | EmptyString => None
          end
      | None => None
      end
  end
with parseMembers (fuel : nat) (s : string) (acc : list (string * JS.Value)) : option (JS.Value * string) :=
  match fuel with
  | O => None
  | S fuel' =>
      match skipSpace s with
      | String c r =>
          if Ascii.eqb c quoteChar then
            match parseStringBody r EmptyString with
            | Some (key, r1) =>
                match skipSpace r1 with
                | String ":"%char r2 =>
                    match parseValue fuel' r2 with
                    | Some (v, r3) =>
                        match skipSpace r3 with
                        | String c3 r4 =>
                            if Ascii.eqb c3 ","%char then parseMembers fuel' r4 (acc ++ [(key, v)])
                            else if Ascii.eqb c3 "}"%char then Some (JS.Object (acc ++ [(key, v)]), r4)
                            else None
                        | EmptyString => None
                        end
                    | None => None
                    end
                | _ => None
                end
            | None => None
            end
          else None
      | EmptyString => None
      end
  end.

Definition parse (s : string) : option JS.Value :=
  match parseValue (2 * String.length s + 2) s with
  | Some (v, rest) => if JS.isEmpty (skipSpace rest) then Some v else None
  | None => None
  end.

Definition isHostChar (c : ascii) : bool :=
  let n := nat_of_ascii c in
  ((97 <=? n) && (n <=? 122)) || ((65 <=? n) && (n <=? 90))
  || ((48 <=? n) && (n <=? 57)) || (n =? 45) || (n =? 46).

(** Stand-in for [new URL]: an http or https URL whose authority starts
    with a letter, a digit, a dot or a hyphen. *)
Definition urlConstructs (s : string) : bool :=
  let afterScheme :=
    if String.prefix "https://" s then Some (substring 8 (String.length s - 8) s)
    else if String.prefix "http://" s then Some (substring 7 (String.length s - 7) s)
    else None in
  match afterScheme with
  | Some (String c _) => isHostChar c
  | _ => false
  end.

(** Stand-in for the Word decoder: the bytes are the text. *)
Definition extractRawText (bytes : list Byte.byte) : JS.Result string :=
  JS.Ok (string_of_list_byte bytes).

(** Stand-in for the PDF decoder: one page that holds the bytes as one
    text item; no page for an empty buffer. *)
Definition getDocument (bytes : list Byte.byte) : JS.Result PdfDocument :=
  match bytes with
  | [] => JS.Ok []
  | _ => JS.Ok [JS.Ok [TextItem (string_of_list_byte bytes)]]
  end.

#[export] Instance platform : Platform := {|
  URL_constructs := urlConstructs;
  JSON_parse := parse;
  mammoth_extractRawText := extractRawText;
  pdfjs_getDocument := getDocument
|}.

End Reference.

(* ================================================================== *)
(** ** Predicates of the specification *)
(* ================================================================== *)

Module Frame.

(** What an operation on the URL list of the group [activeId] may do to
    one group: nothing if the group has another id, and otherwise nothing
    to its id, name and documents. *)
Definition urlsOnly (activeId : string) (before after : URLGroup.t) : Prop :=
  (URLGroup.id before <> activeId -> after = before)
  /\ URLGroup.id after = URLGroup.id before
  /\ URLGroup.name after = URLGroup.name before
  /\ URLGroup.documents after = URLGroup.documents before.

(** The same for an operation on the document list. *)
Definition documentsOnly (activeId : string) (before after : URLGroup.t) : Prop :=
  (URLGroup.id before <> activeId -> after = before)
  /\ URLGroup.id after = URLGroup.id before
  /\ URLGroup.name after = URLGroup.name before
  /\ URLGroup.urls after = URLGroup.urls before.

(** A group that is full of URLs, or of documents, is left as it is. *)
Definition keepsFullUrls (before after : URLGroup.t) : Prop :=
  App.MAX_URLS <= length (URLGroup.urls before) -> after = before.

Definition keepsFullDocuments (before after : URLGroup.t) : Prop :=
  App.MAX_DOCS <= length (URLGroup.documents before) -> after = before.

End Frame.

(** The message log after a settled request, entry by entry: an entry
    with the id of the placeholder became [final], any other entry is the
    one that was there. *)
Definition replacedInPlace (placeholderId : string) (final : ChatMessage.t)
    (before after : list ChatMessage.t) : Prop :=
  length after = length before
  /\ forall i msg, nth_error before i = Some msg ->
       nth_error after i =
         Some (if (ChatMessage.id msg =? placeholderId)%string then final else msg).

(** A fenced text: the opening fence, a language tag, blanks, the
    content, blanks and the closing fence. *)
Definition fenced (tag blanks1 content blanks2 : string) : string :=
  "```" ++ tag ++ blanks1 ++ content ++ blanks2 ++ "```".

(* ================================================================== *)
(** ** States and inputs of the examples *)
(* ================================================================== *)

Module Examples.

Definition exampleUrl (n : nat) : KnowledgeUrl.t :=
  let url := ("https://docs.example.com/page-" ++ JS.numberToString (N.of_nat n))%string in
  KnowledgeUrl.mk url url.

(** A group that holds [MAX_URLS] URLs and [MAX_DOCS] documents. *)
Definition fullGroup : URLGroup.t :=
  URLGroup.mk "full" "Full group" (map exampleUrl (seq 0 App.MAX_URLS))
    (map (fun n => LocalDocument.mk ("doc-" ++ JS.numberToString (N.of_nat n))%string "a.pdf" "text")
       (seq 0 App.MAX_DOCS)).

Definition fullState : App.State :=
  App.setActiveUrlGroupId "full" (App.setUrlGroups (fun _ => [fullGroup]) App.initialState).

Definition fullPage : Page.State := Page.mk fullState KnowledgeBaseManager.initialState.

Definition newUrl : string := "https://docs.example.com/new".

(** The group of the scenario of the specification. *)
Definition scenarioState : App.State :=
  App.setActiveUrlGroupId "a"
    (App.setUrlGroups
       (fun _ => [URLGroup.mk "a" "A" [KnowledgeUrl.mk "https://a.example/x" "https://a.example/x"] []])
       App.initialState).

Definition scenarioClock : App.SendClock := App.mkSendClock 1700000000000 1700000000000 1700000000001 1700000000001.

Definition scenarioResponse : GenerateResponse.t := GenerateResponse.mk (Some "X is ...") None.

(** The body [```json LF {"suggestions":["a","b","c","d","e"]} LF ```]. *)
Definition scenarioSuggestionsJson : string :=
  "{" ++ DQ ++ "suggestions" ++ DQ ++ ":["
  ++ DQ ++ "a" ++ DQ ++ "," ++ DQ ++ "b" ++ DQ ++ "," ++ DQ ++ "c" ++ DQ ++ ","
  ++ DQ ++ "d" ++ DQ ++ "," ++ DQ ++ "e" ++ DQ ++ "]}".

Definition scenarioSuggestionsBody : string :=
  fenced "json" LF scenarioSuggestionsJson LF.

(** A body whose array mixes strings with other values. *)
Definition mixedSuggestionsBody : string :=
  fenced "" " "
    ("{" ++ DQ ++ "suggestions" ++ DQ ++ ":[1," ++ DQ ++ "a" ++ DQ ++ ",null,"
     ++ DQ ++ "b" ++ DQ ++ ",[true]," ++ DQ ++ "c" ++ DQ ++ "]}") "".

Definition textFile (name text : string) : File.t :=
  File.mk name (JS.Ok (list_byte_of_string text)).

End Examples.

(* ================================================================== *)
(** ** The effect that fetches the suggestions *)
(* ================================================================== *)

Module Effects.

(** The effect of [App] that runs when the URLs or the documents of the
    active group changed; [apiKey] is [process.env.API_KEY]. The boolean
    tells whether [getInitialSuggestions] is called. *)
Definition suggestionsEffect {P : Platform} (apiKey : option string) (st : App.State)
    : App.State * bool :=
  let urlStrings := map KnowledgeUrl.url (App.currentUrlsForChat st) in
  if ((0 <? length urlStrings) || (0 <? length (App.currentDocsForChat st)))
     && JS.truthyStr apiKey
  then App.fetchAndSetInitialSuggestions_start urlStrings (App.currentDocsForChat st) st
  else (App.setInitialQuerySuggestions [] st, false).

(** The state after the effects of the render that follows a change of
    [activeUrlGroupId]: the welcome effect, then the suggestions effect,
    in the order of their declarations; [reruns] counts the further runs
    of the suggestions effect, which runs again after each render in
    which [currentUrlsForChat] or [currentDocsForChat] is another array
    (without an active group both are a new empty array in every
    render). *)
Definition afterSelection {P : Platform} (apiKey : option string) (now timestamp : N)
    (reruns : nat) (st : App.State) : App.State :=
  Nat.iter reruns (fun shown => fst (suggestionsEffect apiKey shown))
    (fst (suggestionsEffect apiKey (App.welcomeEffect apiKey now timestamp st))).

End Effects.

(* ================================================================== *)
(** ** The MessageItem component *)
(* ================================================================== *)

Module MessageItem.

(** What the bubble of a message holds: the three bouncing dots, the HTML
    that [marked.parse] makes of a source text, or a text shown as it is. *)
Variant Content : Type :=
| LoadingDots
| Markdown (source : string)
| PlainText (text : string).

(** Truthiness of the optional [isLoading]. *)
Definition loading (message : ChatMessage.t) : bool :=
  match ChatMessage.isLoading message with
  | Some b => b
  | None => false
  end.

Definition isUser (message : ChatMessage.t) : bool :=
  match ChatMessage.sender message with USER => true | _ => false end.

Definition isModel (message : ChatMessage.t) : bool :=
  match ChatMessage.sender message with MODEL => true | _ => false end.

Definition isSystem (message : ChatMessage.t) : bool :=
  match ChatMessage.sender message with SYSTEM => true | _ => false end.

(** [String(message.text || "")] is the text itself. *)
Definition renderMessageContent (message : ChatMessage.t) : Content :=
  if isModel message && negb (loading message)
  then Markdown (JS.orElse (Some (ChatMessage.text message)) "")
  else PlainText (ChatMessage.text message).

(** [message.isLoading ? dots : renderMessageContent()] *)
Definition bubbleContent (message : ChatMessage.t) : Content :=
  if loading message then LoadingDots else renderMessageContent message.

(** The character of [SenderAvatar]. *)
Definition avatarChar (sender : MessageSender) : string :=
  match sender with
  | USER => "U"
  | MODEL => "AI"
  | SYSTEM => "S"
  end.

(** [s.replace(pattern, replacement)] for a string pattern and a
    replacement without [$]: the first occurrence is replaced. *)
Definition replaceFirst (pattern replacement s : string) : string :=
  match String.index 0 pattern s with
  | Some i =>
      substring 0 i s ++ replacement
      ++ substring (i + String.length pattern) (String.length s - (i + String.length pattern)) s
  | None => s
  end.

Definition statusPrefix : string := "URL_RETRIEVAL_STATUS_".

(** The [statusText] of an item of the URL context; the status is a
    string by its type. *)
Definition statusText (meta : UrlContextMetadataItem.t) : string :=
  replaceFirst statusPrefix "" (UrlContextMetadataItem.urlRetrievalStatus meta).

Definition isSuccess (meta : UrlContextMetadataItem.t) : bool :=
  (UrlContextMetadataItem.urlRetrievalStatus meta =? "URL_RETRIEVAL_STATUS_SUCCESS")%string.

(** The rows of the list of retrieved URLs: the URL, the status text and
    whether the status is the success status; no list for a message that
    is not of the model or has no item. *)
Definition urlContextRows (message : ChatMessage.t) : option (list (string * string * bool)) :=
  if isModel message then
    match ChatMessage.urlContext message with
    | Some (item :: rest) =>
        Some (map (fun meta => (UrlContextMetadataItem.retrievedUrl meta, statusText meta,
                                isSuccess meta)) (item :: rest))
    | _ => None
    end
  else None.

End MessageItem.

(* ================================================================== *)
(** ** A session: the handlers in the order of the events *)
(* ================================================================== *)

Module Session.

(** The state of [App] and the placeholder of the request that waits for
    its answer, if one does. *)
Record State : Type := mk {
  app : App.State;
  pending : option ChatMessage.t
}.

Definition initialState : State := mk App.initialState None.

(** What can happen, in any order: a query is sent, the pending request
    is answered or rejected, the store is changed, the welcome effect
    runs, the suggestions effect runs and its request is answered or
    rejected. *)
Inductive Event : Type :=
| Send (apiKey : option string) (clock : App.SendClock) (query : string)
| Answer (outcome : JS.Result GenerateResponse.t)
| Change (op : Store.Op)
| Welcome (apiKey : option string) (now timestamp : N)
| Suggest (apiKey : option string)
| Suggested (now timestamp : N) (outcome : JS.Result SuggestionsResponse.t).

Definition step {P : Platform} (st : State) (event : Event) : State :=
  match event with
  | Send apiKey clock query =>
      match App.handleSendMessage_start apiKey clock query (app st) with
      | (app', App.Requested placeholder) => mk app' (Some placeholder)
      | (app', _) => mk app' (pending st)
      end
  | Answer outcome =>
      match pending st with
      | Some placeholder => mk (App.handleSendMessage_settle placeholder outcome (app st)) None
      | None => st
      end
  | Change op => mk (Store.step (app st) op) (pending st)
  | Welcome apiKey now timestamp => mk (App.welcomeEffect apiKey now timestamp (app st)) (pending st)
  | Suggest apiKey => mk (fst (Effects.suggestionsEffect apiKey (app st))) (pending st)
  | Suggested now timestamp outcome =>
      mk (App.fetchAndSetInitialSuggestions_settle now timestamp outcome (app st)) (pending st)
  end.

Definition run {P : Platform} (events : list Event) (st : State) : State :=
  fold_left step events st.

(** The event reads [apiKey] as [process.env.API_KEY], if it reads the
    key at all. *)
Definition readsKey (apiKey : option string) (event : Event) : Prop :=
  match event with
  | Send key _ _ | Welcome key _ _ | Suggest key => key = apiKey
  | Answer _ | Change _ | Suggested _ _ _ => True
  end.

End Session.

(* ================================================================== *)
(** ** The component between its renders *)
(* ================================================================== *)

(** A handler is created by a render and keeps the values of the state
    that this render read ([isLoading], [isFetchingSuggestions],
    [activeUrlGroupId]); the setters it calls act on the state as it is
    then. An asynchronous handler runs to its first [await] when it is
    called and from there when the awaited promise settles, with other
    events in between. *)
Module Live.

Record State : Type := mk {
  (** the state, with every update made so far *)
  app : App.State;
  (** the state that the last render read: what the handlers in use
      captured *)
  rendered : App.State;
  (** the placeholders of the chat requests that wait for their answer,
      the oldest first *)
  chatRequests : list ChatMessage.t;
  (** the number of suggestion fetches that wait for their answer *)
  suggestionFetches : nat;
  (** the uploads that wait at an [await]: the [activeUrlGroupId] that
      the handler captured, and the file *)
  uploads : list (string * File.t)
}.

Definition initialState : State := mk App.initialState App.initialState [] 0 [].

Inductive Event : Type :=
(** a render is committed; after it the welcome effect runs, if
    [welcome] gives the readings of its clock, and then the suggestions
    effect, if [suggest] is set (React runs an effect when one of its
    dependencies is another value or object than in the render before;
    every choice is an event here) *)
| Render (welcome : option (N * N)) (suggest : bool)
(** [onSendMessage] of the last render is called *)
| Send (clock : App.SendClock) (query : string)
(** the chat request at position [n] is answered or rejected *)
| Answer (n : nat) (outcome : JS.Result GenerateResponse.t)
(** a suggestion fetch is answered or rejected *)
| Suggested (now timestamp : N) (outcome : JS.Result SuggestionsResponse.t)
(** [onAddUrl], [onRemoveUrl], [onRemoveDocument], [onSetGroupId] and
    [onAddDocument] of the last render are called *)
| AddUrl (url : string)
| RemoveUrl (url : string)
| RemoveDocument (docId : string)
| SetActiveGroup (groupId : string)
| Upload (file : File.t)
(** the upload at position [n] goes on from its awaits to its end;
    [now] is its [Date.now()] *)
| Uploaded (n : nat) (now : N).

(** [l] without its entry at position [n]. *)
Definition removeNth {A : Type} (n : nat) (l : list A) : list A :=
  (firstn n l ++ skipn (S n) l)%list.

Definition withApp (app' : App.State) (st : State) : State :=
  mk app' (rendered st) (chatRequests st) (suggestionFetches st) (uploads st).

(** One event; [apiKey] is [process.env.API_KEY]. *)
Definition step {P : Platform} (apiKey : option string) (st : State) (event : Event) : State :=
  match event with
  | Render welcome suggest =>
      let welcomed :=
        match welcome with
        | Some (now, timestamp) => App.welcomeEffect apiKey now timestamp (app st)
        | None => app st
        end in
      if suggest then
        match Effects.suggestionsEffect apiKey welcomed with
        | (app', requested) =>
            mk app' (app st) (chatRequests st)
              (if requested then S (suggestionFetches st) else suggestionFetches st)
              (uploads st)
        end
      else mk welcomed (app st) (chatRequests st) (suggestionFetches st) (uploads st)
  | Send clock query =>
      match App.handleSendMessage_called (rendered st) apiKey clock query (app st) with
      | (app', App.Requested placeholder) =>
          mk app' (rendered st) (chatRequests st ++ [placeholder]) (suggestionFetches st)
            (uploads st)
      | (app', _) => withApp app' st
      end
  | Answer n outcome =>
      match nth_error (chatRequests st) n with
      | Some placeholder =>
          mk (App.handleSendMessage_settle placeholder outcome (app st)) (rendered st)
            (removeNth n (chatRequests st)) (suggestionFetches st) (uploads st)
      | None => st
      end
  | Suggested now timestamp outcome =>
      match suggestionFetches st with
      | S fetches =>
          mk (App.fetchAndSetInitialSuggestions_settle now timestamp outcome (app st))
            (rendered st) (chatRequests st) fetches (uploads st)
      | O => st
      end
  | AddUrl url =>
      withApp (App.setUrlGroups
                 (App.addUrlUpdater (App.activeUrlGroupId (rendered st)) url) (app st)) st
  | RemoveUrl url =>
      withApp (App.setUrlGroups
                 (App.removeUrlUpdater (App.activeUrlGroupId (rendered st)) url) (app st)) st
  | RemoveDocument docId =>
      withApp (App.setUrlGroups
                 (App.removeDocumentUpdater (App.activeUrlGroupId (rendered st)) docId)
                 (app st)) st
  | SetActiveGroup groupId => withApp (App.setActiveUrlGroupId groupId (app st)) st
  | Upload file =>
      mk (App.handleAddDocument_start (app st)) (rendered st) (chatRequests st)
        (suggestionFetches st)
        (uploads st ++ [(App.activeUrlGroupId (rendered st), file)])
  | Uploaded n now =>
      match nth_error (uploads st) n with
      | Some (activeId, file) =>
          mk (App.handleAddDocument_finish activeId now file (app st)) (rendered st)
            (chatRequests st) (suggestionFetches st) (removeNth n (uploads st))
      | None => st
      end
  end.

Definition run {P : Platform} (apiKey : option string) (events : list Event) (st : State)
    : State :=
  fold_left (step apiKey) events st.

(** The last render read the two flags as they are now: no update of
    them waits for a render. *)
Definition current (st : State) : Prop :=
  App.isLoading (rendered st) = App.isLoading (app st)
  /\ App.isFetchingSuggestions (rendered st) = App.isFetchingSuggestions (app st).

(** Every query of the run is sent through the handler of a render that
    read the flags as they are when it is sent. *)
Fixpoint sendsAreCurrent {P : Platform} (apiKey : option string) (events : list Event)
    (st : State) : Prop :=
  match events with
  | [] => True
  | event :: rest =>
      match event with
      | Send _ _ => current st
      | _ => True
      end
      /\ sendsAreCurrent apiKey rest (step apiKey st event)
  end.

(** The flag and the log agree with the chat requests in flight: at most
    one waits; [isLoading] is set exactly while one does; the messages
    that show as loading are those with the id of its placeholder. *)
Definition consistent (st : State) : Prop :=
  match chatRequests st with
  | [] =>
      App.isLoading (app st) = false
      /\ forall message, In message (App.chatMessages (app st)) ->
           MessageItem.loading message = false
  | [placeholder] =>
      App.isLoading (app st) = true
      /\ forall message, In message (App.chatMessages (app st)) ->
           MessageItem.loading message = true ->
           ChatMessage.id message = ChatMessage.id placeholder
  | _ :: _ :: _ => False
  end.

End Live.

(** Runs of the component on the platform of the examples, with the key
    set. *)
Module Scenarios.

Definition suggestionsAnswer : SuggestionsResponse.t :=
  SuggestionsResponse.mk (Some Examples.scenarioSuggestionsBody).

(** The component is mounted and fetches suggestions; a URL is added
    before the answer, so a second fetch starts; the first fetch is
    answered. The component renders again after each of these. *)
Definition overlappingFetches : list Live.Event := [
  Live.Render (Some (1, 1)%N) true;
  Live.Render None false;
  Live.AddUrl Examples.newUrl;
  Live.Render (Some (2, 2)%N) true;
  Live.Render None false;
  Live.Suggested 3 3 (JS.Ok suggestionsAnswer);
  Live.Render None false
]%list.

Definition secondFetchPending : Live.State :=
  Live.run (P := Reference.platform) (Some "key") overlappingFetches Live.initialState.

(** The component is mounted, its suggestions arrive, a query is sent
    and the component renders again. *)
Definition oneQuery : list Live.Event := [
  Live.Render (Some (1, 1)%N) true;
  Live.Render None false;
  Live.Suggested 2 2 (JS.Ok suggestionsAnswer);
  Live.Render None false;
  Live.Send Examples.scenarioClock "What is x?";
  Live.Render None false
]%list.

(** An upload begins in the first group; the second group is selected
    while the file is read. *)
Definition switchedDuringUpload : App.State :=
  App.setActiveUrlGroupId "model-capabilities"
    (App.handleAddDocument_start App.initialState).

Definition uploadedAfterSwitch : App.State :=
  App.handleAddDocument_finish (P := Reference.platform) "gemini-overview" 7
    (Examples.textFile "notes.docx" "some text") switchedDuringUpload.

End Scenarios.

(** No URL occurs twice in the group. *)
Definition uniqueUrls (group : URLGroup.t) : Prop :=
  NoDup (map KnowledgeUrl.url (URLGroup.urls group)).

(** [s] is made of decimal digits. *)
Definition allDigits (s : string) : bool := JS.allChars Reference.isDigit s.

(** An item of a page without visible text: a marked-content item, or a
    text item whose text is empty or white space. *)
Definition blankItem (item : TextContentItem) : bool :=
  match item with
  | TextItem str => JS.allChars JS.isSpace str
  | TextMarkedContent => true
  end.

(** A page that loads and has no visible text. *)
Definition blankPage (page : JS.Result (list TextContentItem)) : bool :=
  match page with
  | JS.Ok items => forallb blankItem items
  | JS.Throw _ => false
  end.


(* ================================================================== *)
(** ** Blank strings *)
(* ================================================================== *)

Lemma trimStart_blank (s : string) :
  JS.allChars JS.isSpace s = true -> JS.trimStart s = "".
Proof.
  induction s as [|c s IH]; simpl; [reflexivity|].
  destruct (JS.isSpace c); simpl; [assumption|discriminate].
Qed.

Lemma trimStart_head (s : string) :
  match JS.trimStart s with
  | EmptyString => JS.allChars JS.isSpace s = true
  | String c _ => JS.isSpace c = false
  end.
Proof.
  induction s as [|c s IH]; simpl; [reflexivity|].
  destruct (JS.isSpace c) eqn:E; simpl; assumption.
Qed.

Lemma trimEnd_blank_iff (s : string) :
  JS.trimEnd s = "" <-> JS.allChars JS.isSpace s = true.
Proof.
  induction s as [|c s IH]; simpl; [tauto|].
  destruct (JS.trimEnd s) eqn:E.
  - destruct (JS.isSpace c); simpl.
    + split; intros _; [apply IH|]; reflexivity.
    + split; discriminate.
  - split; [discriminate|]. intros H. apply andb_true_iff in H. destruct H as [_ H].
    apply IH in H. discriminate.
Qed.

(** The trimmed string is empty exactly for the empty string and the
    strings made of white space only. *)
Lemma trim_blank_iff (s : string) :
  JS.trim s = "" <-> JS.allChars JS.isSpace s = true.
Proof.
  unfold JS.trim. split.
  - intros H. apply trimEnd_blank_iff in H. pose proof (trimStart_head s) as Hhead.
    destruct (JS.trimStart s) as [|c t]; [assumption|].
    simpl in H. rewrite Hhead in H. discriminate.
  - intros H. now rewrite trimStart_blank.
Qed.

Lemma isEmpty_false (s : string) : JS.isEmpty s = false <-> s <> "".
Proof. destruct s; simpl; split; congruence. Qed.

(* ================================================================== *)
(** ** Strings: concatenation and trimming *)
(* ================================================================== *)

Lemma append_assoc (a b c : string) : ((a ++ b) ++ c = a ++ (b ++ c))%string.
Proof. induction a as [|x a IH]; simpl; [reflexivity|now rewrite IH]. Qed.

Lemma append_empty_r (a : string) : (a ++ "")%string = a.
Proof. induction a as [|x a IH]; simpl; [reflexivity|now rewrite IH]. Qed.

Lemma append_length (a b : string) :
  String.length (a ++ b) = String.length a + String.length b.
Proof. induction a as [|x a IH]; simpl; [reflexivity|now rewrite IH]. Qed.

Lemma append_inv_tail (a b c : string) : (a ++ c = b ++ c)%string -> a = b.
Proof.
  revert b. induction a as [|x a IH]; intros [|y b] H; simpl in H.
  - reflexivity.
  - apply (f_equal String.length) in H. simpl in H. rewrite append_length in H. lia.
  - apply (f_equal String.length) in H. simpl in H. rewrite append_length in H. lia.
  - injection H as -> H. f_equal. now apply IH.
Qed.

Lemma allChars_app (p : ascii -> bool) (a b : string) :
  JS.allChars p (a ++ b) = JS.allChars p a && JS.allChars p b.
Proof.
  induction a as [|x a IH]; simpl; [reflexivity|]. now rewrite IH, andb_assoc.
Qed.

Lemma trimStart_app_blank (a b : string) :
  JS.allChars JS.isSpace a = true -> JS.trimStart (a ++ b) = JS.trimStart b.
Proof.
  induction a as [|x a IH]; simpl; [reflexivity|].
  intros H. apply andb_true_iff in H. destruct H as [Hx Ha]. rewrite Hx. now apply IH.
Qed.

Lemma trimEnd_app_blank (a b : string) :
  JS.allChars JS.isSpace b = true -> JS.trimEnd (a ++ b) = JS.trimEnd a.
Proof.
  intros Hb. induction a as [|x a IH]; simpl.
  - now apply trimEnd_blank_iff.
  - now rewrite IH.
Qed.

(** A string that ends in a character that is no white space is its own
    [trimEnd]; so is any string in front of it. *)
Lemma trimEnd_app_kept (a b : string) :
  b <> "" -> JS.trimEnd b = b -> JS.trimEnd (a ++ b) = (a ++ b)%string.
Proof.
  intros Hne Hb. induction a as [|x a IH]; simpl; [assumption|].
  rewrite IH. destruct (a ++ b)%string eqn:E; [|reflexivity].
  destruct a; simpl in E; [contradiction|discriminate].
Qed.

Lemma trimStart_split (s : string) :
  exists lead, s = (lead ++ JS.trimStart s)%string /\ JS.allChars JS.isSpace lead = true.
Proof.
  induction s as [|c s [lead [Hs Hlead]]]; simpl.
  - now exists "".
  - destruct (JS.isSpace c) eqn:E.
    + exists (String c lead). simpl. rewrite E, <- Hs. auto.
    + now exists "".
Qed.

Lemma trimEnd_split (s : string) :
  exists trail, s = (JS.trimEnd s ++ trail)%string /\ JS.allChars JS.isSpace trail = true.
Proof.
  induction s as [|c s [trail [Hs Htrail]]]; simpl.
  - now exists "".
  - destruct (JS.trimEnd s) eqn:E.
    + simpl in Hs. subst trail. destruct (JS.isSpace c) eqn:Ec.
      * exists (String c s). simpl. rewrite Ec. auto.
      * exists s. auto.
    + exists trail. split; [|assumption]. simpl. f_equal. exact Hs.
Qed.

Lemma trimEnd_idempotent (s : string) : JS.trimEnd (JS.trimEnd s) = JS.trimEnd s.
Proof.
  induction s as [|c s IH]; simpl; [reflexivity|].
  destruct (JS.trimEnd s) eqn:E.
  - destruct (JS.isSpace c) eqn:Ec; simpl; [reflexivity|now rewrite Ec].
  - simpl in *. rewrite IH. reflexivity.
Qed.

Lemma trimEnd_head (s : string) :
  JS.trimEnd s <> "" ->
  JS.startsWithChar JS.isSpace (JS.trimEnd s) = JS.startsWithChar JS.isSpace s.
Proof.
  destruct s as [|c s]; simpl; [reflexivity|].
  destruct (JS.trimEnd s); [|reflexivity].
  destruct (JS.isSpace c) eqn:E; [contradiction|]. simpl. now rewrite E.
Qed.

(** The three parts of a string whose trimmed value is not empty. *)
Lemma trim_split (s : string) :
  JS.trim s <> "" ->
  exists lead trail,
    s = (lead ++ JS.trim s ++ trail)%string
    /\ JS.allChars JS.isSpace lead = true
    /\ JS.allChars JS.isSpace trail = true
    /\ JS.startsWithChar JS.isSpace (JS.trim s) = false
    /\ JS.trimEnd (JS.trim s) = JS.trim s.
Proof.
  intros Hne. unfold JS.trim in *.
  destruct (trimStart_split s) as [lead [Hs Hlead]].
  destruct (trimEnd_split (JS.trimStart s)) as [trail [Ht Htrail]].
  exists lead, trail. split; [now rewrite <- Ht|].
  split; [assumption|]. split; [assumption|]. split; [|apply trimEnd_idempotent].
  rewrite (trimEnd_head _ Hne). pose proof (trimStart_head s) as Hhead.
  destruct (JS.trimStart s); [now contradiction Hne|assumption].
Qed.

(** Trimming takes the blanks around a string that starts and ends with
    other characters. *)
Lemma trim_around (lead core trail : string) :
  JS.allChars JS.isSpace lead = true ->
  JS.allChars JS.isSpace trail = true ->
  JS.startsWithChar JS.isSpace core = false ->
  JS.trimEnd core = core ->
  JS.trim (lead ++ core ++ trail) = core.
Proof.
  intros Hlead Htrail Hhead Hend. unfold JS.trim.
  rewrite trimStart_app_blank by assumption.
  destruct core as [|c core]; simpl in Hhead.
  - simpl. rewrite trimStart_blank by assumption. reflexivity.
  - simpl. rewrite Hhead.
    change (String c (core ++ trail)) with (String c core ++ trail)%string.
    now rewrite trimEnd_app_blank.
Qed.

Lemma trim_idempotent (s : string) : JS.trim (JS.trim s) = JS.trim s.
Proof.
  destruct (JS.trim s) eqn:E; [reflexivity|]. rewrite <- E.
  assert (JS.trim s <> "") as Hne by (rewrite E; discriminate).
  destruct (trim_split s Hne) as [_ [_ [_ [_ [_ [Hhead Hend]]]]]].
  rewrite <- (append_empty_r (JS.trim s)) at 1.
  apply (trim_around "" (JS.trim s) ""); auto.
Qed.

(* ================================================================== *)
(** ** Lists and groups *)
(* ================================================================== *)

Section ListFacts.
Context {A : Type}.

Lemma Forall2_map_self (R : A -> A -> Prop) (f : A -> A) (l : list A) :
  (forall x, In x l -> R x (f x)) -> Forall2 R l (map f l).
Proof.
  induction l as [|x l IH]; intros H; simpl; constructor.
  - apply H; now left.
  - apply IH; intros y Hy; apply H; now right.
Qed.

Lemma map_fixed (f : A -> A) (l : list A) :
  (forall x, In x l -> f x = x) -> map f l = l.
Proof.
  induction l as [|x l IH]; intros H; simpl; [reflexivity|].
  rewrite H by now left. f_equal. apply IH; intros y Hy; apply H; now right.
Qed.

Lemma filter_all (f : A -> bool) (l : list A) :
  (forall x, In x l -> f x = true) -> filter f l = l.
Proof.
  induction l as [|x l IH]; intros H; simpl; [reflexivity|].
  rewrite H by now left. f_equal. apply IH; intros y Hy; apply H; now right.
Qed.

End ListFacts.

Lemma withUrls_same (g : URLGroup.t) : App.withUrls g (URLGroup.urls g) = g.
Proof. now destruct g. Qed.

Lemma withDocuments_same (g : URLGroup.t) : App.withDocuments g (URLGroup.documents g) = g.
Proof. now destruct g. Qed.

Lemma hasUrl_false (url : string) (urls : list KnowledgeUrl.t) :
  App.hasUrl url urls = false ->
  forall item, In item urls -> (KnowledgeUrl.url item =? url)%string = false.
Proof.
  unfold App.hasUrl. intros H item Hin.
  destruct (KnowledgeUrl.url item =? url)%string eqn:E; [|reflexivity].
  assert (existsb (fun item => (KnowledgeUrl.url item =? url)%string) urls = true)
    by (apply existsb_exists; now exists item).
  congruence.
Qed.

Lemma activeGroup_none (st : App.State) :
  App.activeGroup st = None ->
  forall group, In group (App.urlGroups st) ->
    (URLGroup.id group =? App.activeUrlGroupId st)%string = false.
Proof. intros H group Hin. exact (find_none _ _ H group Hin). Qed.

Lemma activeGroup_some (st : App.State) (g : URLGroup.t) :
  App.activeGroup st = Some g ->
  In g (App.urlGroups st) /\ URLGroup.id g = App.activeUrlGroupId st.
Proof.
  intros H. apply find_some in H. destruct H as [Hin Heq].
  split; [assumption|]. now apply String.eqb_eq.
Qed.

(** The state is its eight cells. *)
Lemma state_eq (a b : App.State) :
  App.urlGroups a = App.urlGroups b ->
  App.activeUrlGroupId a = App.activeUrlGroupId b ->
  App.chatMessages a = App.chatMessages b ->
  App.isLoading a = App.isLoading b ->
  App.isFetchingSuggestions a = App.isFetchingSuggestions b ->
  App.initialQuerySuggestions a = App.initialQuerySuggestions b ->
  App.isProcessingDoc a = App.isProcessingDoc b ->
  App.docError a = App.docError b ->
  a = b.
Proof. destruct a, b; simpl; intros; subst; reflexivity. Qed.

(* ================================================================== *)
(** ** Selecting the active group *)
(* ================================================================== *)

(** C1, as stated, fails: the setter given to the group selector stores
    any id. On the initial state, an id of no group becomes the active
    id. *)
Lemma C1_unknown_id_is_stored :
  ~ In "no-such-group" (KnowledgeBaseManager.groupOptions (App.urlGroups App.initialState))
  /\ App.activeUrlGroupId (App.setActiveUrlGroupId "no-such-group" App.initialState)
     = "no-such-group"
  /\ App.activeUrlGroupId (App.setActiveUrlGroupId "no-such-group" App.initialState)
     <> App.activeUrlGroupId App.initialState.
Proof.
  split; [|split].
  - simpl. intros [H|[H|[]]]; discriminate H.
  - reflexivity.
  - simpl. discriminate.
Qed.

Lemma activeGroup_ext (a b : App.State) :
  App.urlGroups a = App.urlGroups b ->
  App.activeUrlGroupId a = App.activeUrlGroupId b ->
  App.activeGroup a = App.activeGroup b.
Proof. unfold App.activeGroup. now intros -> ->. Qed.

Lemma activeGroup_unknown (g : string) (st : App.State) :
  ~ In g (KnowledgeBaseManager.groupOptions (App.urlGroups st)) ->
  App.activeGroup (App.setActiveUrlGroupId g st) = None.
Proof.
  intros Hnot. unfold App.activeGroup.
  cbn [App.setActiveUrlGroupId App.urlGroups App.activeUrlGroupId].
  destruct (find _ _) as [group|] eqn:F; [|reflexivity].
  apply find_some in F. destruct F as [Hin Heq]. apply String.eqb_eq in Heq.
  exfalso. apply Hnot. apply in_map_iff. now exists group.
Qed.

Lemma activeGroup_known (g : string) (st : App.State) :
  In g (KnowledgeBaseManager.groupOptions (App.urlGroups st)) ->
  exists group,
    App.activeGroup (App.setActiveUrlGroupId g st) = Some group
    /\ In group (App.urlGroups st) /\ URLGroup.id group = g.
Proof.
  intros Hin. apply in_map_iff in Hin. destruct Hin as [x [Hx Hin]].
  unfold App.activeGroup.
  cbn [App.setActiveUrlGroupId App.urlGroups App.activeUrlGroupId].
  destruct (find (fun group => (URLGroup.id group =? g)%string) (App.urlGroups st))
    as [group|] eqn:F.
  - exists group. apply find_some in F. destruct F as [Hin' Heq].
    apply String.eqb_eq in Heq. auto.
  - exfalso. pose proof (find_none _ _ F x Hin) as Hf. simpl in Hf.
    rewrite Hx, String.eqb_refl in Hf. discriminate.
Qed.

Section Selection.
Context {P : Platform}.

(** The cells that the suggestions effect leaves alone, and the one it
    empties. *)
Lemma suggestionsEffect_cells (apiKey : option string) (st : App.State) :
  App.urlGroups (fst (Effects.suggestionsEffect apiKey st)) = App.urlGroups st
  /\ App.activeUrlGroupId (fst (Effects.suggestionsEffect apiKey st)) = App.activeUrlGroupId st
  /\ App.chatMessages (fst (Effects.suggestionsEffect apiKey st)) = App.chatMessages st
  /\ App.isLoading (fst (Effects.suggestionsEffect apiKey st)) = App.isLoading st
  /\ App.isProcessingDoc (fst (Effects.suggestionsEffect apiKey st)) = App.isProcessingDoc st
  /\ App.docError (fst (Effects.suggestionsEffect apiKey st)) = App.docError st
  /\ App.initialQuerySuggestions (fst (Effects.suggestionsEffect apiKey st)) = [].
Proof.
  unfold Effects.suggestionsEffect, App.fetchAndSetInitialSuggestions_start.
  destruct (_ && JS.truthyStr apiKey); [|repeat split].
  destruct (_ && _); repeat split.
Qed.

Lemma suggestionsEffect_without_group (apiKey : option string) (st : App.State) :
  App.activeGroup st = None ->
  Effects.suggestionsEffect apiKey st = (App.setInitialQuerySuggestions [] st, false).
Proof.
  intros Hnone. unfold Effects.suggestionsEffect, App.currentUrlsForChat, App.currentDocsForChat.
  now rewrite Hnone.
Qed.

Lemma afterSelection_cells (apiKey : option string) (now timestamp : N) (reruns : nat)
    (st : App.State) :
  App.urlGroups (Effects.afterSelection apiKey now timestamp reruns st) = App.urlGroups st
  /\ App.activeUrlGroupId (Effects.afterSelection apiKey now timestamp reruns st)
     = App.activeUrlGroupId st
  /\ App.chatMessages (Effects.afterSelection apiKey now timestamp reruns st)
     = App.chatMessages (App.welcomeEffect apiKey now timestamp st)
  /\ App.isLoading (Effects.afterSelection apiKey now timestamp reruns st) = App.isLoading st
  /\ App.isProcessingDoc (Effects.afterSelection apiKey now timestamp reruns st)
     = App.isProcessingDoc st
  /\ App.docError (Effects.afterSelection apiKey now timestamp reruns st) = App.docError st
  /\ App.initialQuerySuggestions (Effects.afterSelection apiKey now timestamp reruns st) = [].
Proof.
  unfold Effects.afterSelection. induction reruns as [|reruns IH]; cbn [Nat.iter nat_rect].
  - destruct (suggestionsEffect_cells apiKey (App.welcomeEffect apiKey now timestamp st))
      as [H1 [H2 [H3 [H4 [H5 [H6 H7]]]]]].
    rewrite H1, H2, H3, H4, H5, H6, H7. repeat split.
  - destruct IH as [I1 [I2 [I3 [I4 [I5 [I6 I7]]]]]].
    match goal with
    | |- context [fst (Effects.suggestionsEffect apiKey ?shown)] =>
        destruct (suggestionsEffect_cells apiKey shown) as [H1 [H2 [H3 [H4 [H5 [H6 H7]]]]]]
    end.
    rewrite H1, H2, H3, H4, H5, H6, H7. repeat split; assumption.
Qed.

(** Without an active group no run of the suggestions effect raises
    [isFetchingSuggestions]. *)
Lemma afterSelection_without_group (apiKey : option string) (now timestamp : N)
    (reruns : nat) (st : App.State) :
  App.activeGroup st = None ->
  App.isFetchingSuggestions (Effects.afterSelection apiKey now timestamp reruns st)
  = App.isFetchingSuggestions st.
Proof.
  intros Hnone. unfold Effects.afterSelection.
  induction reruns as [|reruns IH]; cbn [Nat.iter nat_rect].
  - rewrite suggestionsEffect_without_group; [reflexivity|].
    rewrite <- Hnone. now apply activeGroup_ext.
  - rewrite suggestionsEffect_without_group; [exact IH|].
    rewrite <- Hnone. destruct (afterSelection_cells apiKey now timestamp reruns st)
      as [H1 [H2 _]]. now apply activeGroup_ext.
Qed.

(** C1, amended: [setActiveGroup g] stores [g] as the active id for every
    [g] and leaves the groups as they are; when [g] is the active id
    already, nothing changes. No error is reported: through the effects
    of the render that follows (the welcome effect, then the suggestions
    effect, however often it runs) the document error, [isLoading] and
    [isProcessingDoc] stay as they were, the log becomes the one system
    message of the welcome effect and the suggestions are emptied. When
    [g] is the id of no group the active group resolves to none, with no
    URL and no document for the chat, no run of the suggestions effect
    starts a fetch and, with an API key, the welcome message names the
    group [None]; when [g]
    is one of the options of the group selector it resolves to a group
    with that id. *)
Theorem C1_setActiveGroup_stores_any_id (g : string) (apiKey : option string)
    (now timestamp : N) (reruns : nat) (st : App.State) :
  let selected := App.setActiveUrlGroupId g st in
  let shown := Effects.afterSelection apiKey now timestamp reruns selected in
  App.activeUrlGroupId selected = g
  /\ App.urlGroups selected = App.urlGroups st
  /\ (g = App.activeUrlGroupId st -> selected = st)
  /\ (App.activeUrlGroupId shown = g
      /\ App.urlGroups shown = App.urlGroups st
      /\ App.docError shown = App.docError st
      /\ App.isProcessingDoc shown = App.isProcessingDoc st
      /\ App.isLoading shown = App.isLoading st
      /\ App.chatMessages shown
         = App.chatMessages (App.welcomeEffect apiKey now timestamp selected)
      /\ length (App.chatMessages shown) = 1
      /\ Forall (fun message => ChatMessage.sender message = SYSTEM) (App.chatMessages shown)
      /\ App.initialQuerySuggestions shown = [])
  /\ (~ In g (KnowledgeBaseManager.groupOptions (App.urlGroups st)) ->
      App.activeGroup selected = None
      /\ App.currentUrlsForChat selected = []
      /\ App.currentDocsForChat selected = []
      /\ App.activeGroup shown = None
      /\ snd (Effects.suggestionsEffect apiKey
                (App.welcomeEffect apiKey now timestamp selected)) = false
      /\ snd (Effects.suggestionsEffect apiKey shown) = false
      /\ App.isFetchingSuggestions shown = App.isFetchingSuggestions st
      /\ (JS.truthyStr apiKey = true ->
          map ChatMessage.text (App.chatMessages shown)
          = ["Welcome to Documentation Chat Bot! You're currently browsing content from: "
             ++ DQ ++ "None" ++ DQ
             ++ ". Just ask me questions, or try one of the suggestions below to get started"
            ]%string))
  /\ (In g (KnowledgeBaseManager.groupOptions (App.urlGroups st)) ->
      exists group,
        App.activeGroup selected = Some group
        /\ App.activeGroup shown = Some group
        /\ In group (App.urlGroups st) /\ URLGroup.id group = g).
Proof.
  intros selected shown.
  destruct (afterSelection_cells apiKey now timestamp reruns selected)
    as [H1 [H2 [H3 [H4 [H5 [H6 H7]]]]]].
  fold shown in H1, H2, H3, H4, H5, H6, H7.
  assert (App.activeGroup shown = App.activeGroup selected) as Hgroup
    by now apply activeGroup_ext.
  split; [reflexivity|]. split; [reflexivity|]. split; [|split; [|split]].
  - intros ->. now apply state_eq.
  - rewrite H1, H2, H3, H4, H5, H6, H7. repeat split. now repeat constructor.
  - intros Hnot. pose proof (activeGroup_unknown g st Hnot) as Hnone.
    fold selected in Hnone.
    unfold App.currentUrlsForChat, App.currentDocsForChat. rewrite Hgroup, Hnone.
    repeat split.
    + now rewrite suggestionsEffect_without_group.
    + rewrite suggestionsEffect_without_group; [reflexivity|]. now rewrite Hgroup.
    + apply (afterSelection_without_group apiKey now timestamp reruns selected Hnone).
    + intros Hkey. rewrite H3.
      cbn [App.welcomeEffect App.setChatMessages App.chatMessages map ChatMessage.text].
      unfold App.welcomeMessageText. now rewrite Hkey, Hnone.
  - intros Hin. destruct (activeGroup_known g st Hin) as [group [Hsome [Hmember Hid]]].
    exists group. rewrite Hgroup. auto.
Qed.

End Selection.

(** From the initial state, the second option of the selector becomes the
    active group, and an id of no group leaves the chat without URLs and
    with a welcome message for no group, whatever the number of runs of
    the suggestions effect. *)
Lemma C1_setActiveGroup_stores_any_id_witness :
  (exists group,
     App.activeGroup (App.setActiveUrlGroupId "model-capabilities" App.initialState) = Some group
     /\ In group (App.urlGroups App.initialState)
     /\ URLGroup.id group = "model-capabilities")
  /\ App.currentUrlsForChat (App.setActiveUrlGroupId "no-such-group" App.initialState) = []
  /\ App.isFetchingSuggestions
       (Effects.afterSelection (P := Reference.platform) (Some "key") 5 5 3
          (App.setActiveUrlGroupId "no-such-group" App.initialState)) = false.
Proof.
  split; [|split].
  - destruct (C1_setActiveGroup_stores_any_id (P := Reference.platform) "model-capabilities"
                (Some "key") 5 5 0 App.initialState) as [_ [_ [_ [_ [_ Hknown]]]]].
    destruct Hknown as [group [Hsome [_ [Hin Hid]]]]; [simpl; auto|].
    exists group. auto.
  - apply (C1_setActiveGroup_stores_any_id (P := Reference.platform) "no-such-group"
             (Some "key") 5 5 0 App.initialState).
    simpl. intros [H|[H|[]]]; discriminate H.
  - apply (C1_setActiveGroup_stores_any_id (P := Reference.platform) "no-such-group"
             (Some "key") 5 5 3 App.initialState).
    simpl. intros [H|[H|[]]]; discriminate H.
Defined.

(* ================================================================== *)
(** ** The store touches the active group only *)
(* ================================================================== *)

Section StoreFrame.
Context {P : Platform}.

Lemma addUrlUpdater_frame (activeId url : string) (groups : list URLGroup.t) :
  Forall2 (Frame.urlsOnly activeId) groups (App.addUrlUpdater activeId url groups).
Proof.
  apply Forall2_map_self. intros g _. unfold Frame.urlsOnly.
  destruct (URLGroup.id g =? activeId)%string eqn:E.
  - apply String.eqb_eq in E.
    destruct (_ && _); simpl; repeat split; auto; intros; congruence.
  - repeat split; auto.
Qed.

Lemma removeUrlUpdater_frame (activeId url : string) (groups : list URLGroup.t) :
  Forall2 (Frame.urlsOnly activeId) groups (App.removeUrlUpdater activeId url groups).
Proof.
  apply Forall2_map_self. intros g _. unfold Frame.urlsOnly.
  destruct (URLGroup.id g =? activeId)%string eqn:E.
  - apply String.eqb_eq in E. simpl; repeat split; auto; intros; congruence.
  - repeat split; auto.
Qed.

Lemma addDocumentUpdater_frame (activeId : string) (doc : LocalDocument.t)
    (groups : list URLGroup.t) :
  Forall2 (Frame.documentsOnly activeId) groups (App.addDocumentUpdater activeId doc groups).
Proof.
  apply Forall2_map_self. intros g _. unfold Frame.documentsOnly.
  destruct (URLGroup.id g =? activeId)%string eqn:E.
  - apply String.eqb_eq in E.
    destruct (_ <? _); simpl; repeat split; auto; intros; congruence.
  - repeat split; auto.
Qed.

Lemma removeDocumentUpdater_frame (activeId docId : string) (groups : list URLGroup.t) :
  Forall2 (Frame.documentsOnly activeId) groups (App.removeDocumentUpdater activeId docId groups).
Proof.
  apply Forall2_map_self. intros g _. unfold Frame.documentsOnly.
  destruct (URLGroup.id g =? activeId)%string eqn:E.
  - apply String.eqb_eq in E. simpl; repeat split; auto; intros; congruence.
  - repeat split; auto.
Qed.

Lemma documentsOnly_refl (activeId : string) (groups : list URLGroup.t) :
  Forall2 (Frame.documentsOnly activeId) groups groups.
Proof.
  induction groups; constructor; auto. unfold Frame.documentsOnly. auto.
Qed.

(** The groups after [handleAddDocument_finish], whatever the file: the
    updater applied to the groups, or the groups themselves. *)
Lemma handleAddDocument_finish_groups (activeId : string) (now : N) (file : File.t)
    (st : App.State) :
  App.urlGroups (App.handleAddDocument_finish activeId now file st)
  = match App.newDocument now file with
    | JS.Ok newDoc => App.addDocumentUpdater activeId newDoc (App.urlGroups st)
    | JS.Throw _ => App.urlGroups st
    end.
Proof.
  unfold App.handleAddDocument_finish.
  destruct (App.newDocument now file); simpl; [|reflexivity].
  destruct (App.addDocumentOverflows _ _); reflexivity.
Qed.

(** An async add keeps to the group that was active when it began: the
    groups with another id than the captured one are as they were. *)
Lemma handleAddDocument_finish_frame (activeId : string) (now : N) (file : File.t)
    (st : App.State) :
  Forall2 (Frame.documentsOnly activeId) (App.urlGroups st)
    (App.urlGroups (App.handleAddDocument_finish activeId now file st)).
Proof.
  rewrite handleAddDocument_finish_groups.
  destruct (App.newDocument now file).
  - apply addDocumentUpdater_frame.
  - apply documentsOnly_refl.
Qed.

Lemma updater_without_active (f : URLGroup.t -> URLGroup.t) (st : App.State) :
  App.activeGroup st = None ->
  map (fun group =>
         if (URLGroup.id group =? App.activeUrlGroupId st)%string then f group else group)
      (App.urlGroups st)
  = App.urlGroups st.
Proof.
  intros H. apply map_fixed. intros g Hin.
  now rewrite (activeGroup_none st H g Hin).
Qed.

Lemma updater_without_group (f : URLGroup.t -> URLGroup.t) (activeId : string)
    (groups : list URLGroup.t) :
  find (fun group => (URLGroup.id group =? activeId)%string) groups = None ->
  map (fun group => if (URLGroup.id group =? activeId)%string then f group else group) groups
  = groups.
Proof.
  intros H. apply map_fixed. intros g Hin.
  now rewrite (find_none _ _ H g Hin).
Qed.

(** C10, amended: each of the four store operations changes at most the
    groups whose id is the active id that the handler captured from its
    render, and in such a group keeps the id, the name and the list it
    does not target (the documents for the URL operations, the URLs for
    the document operations); the active id is left as it is. For the
    upload this is the group that was active when the upload began,
    whatever group is active when its awaits have settled. For a handler
    of an up-to-date render, and for an upload that ends while the group
    it began in is active, the captured id is the active id. When no
    group has the captured id, each of the four leaves the whole
    collection as it is. *)
Theorem C10_store_operations_frame (activeId url docId : string) (now : N)
    (file : File.t) (st : App.State) :
  (Forall2 (Frame.urlsOnly activeId) (App.urlGroups st)
     (App.urlGroups (App.setUrlGroups (App.addUrlUpdater activeId url) st))
   /\ Forall2 (Frame.urlsOnly activeId) (App.urlGroups st)
        (App.urlGroups (App.setUrlGroups (App.removeUrlUpdater activeId url) st))
   /\ Forall2 (Frame.documentsOnly activeId) (App.urlGroups st)
        (App.urlGroups (App.handleAddDocument_finish activeId now file st))
   /\ Forall2 (Frame.documentsOnly activeId) (App.urlGroups st)
        (App.urlGroups (App.setUrlGroups (App.removeDocumentUpdater activeId docId) st)))
  /\ (App.activeUrlGroupId (App.setUrlGroups (App.addUrlUpdater activeId url) st)
      = App.activeUrlGroupId st
      /\ App.activeUrlGroupId (App.setUrlGroups (App.removeUrlUpdater activeId url) st)
         = App.activeUrlGroupId st
      /\ App.activeUrlGroupId (App.handleAddDocument_finish activeId now file st)
         = App.activeUrlGroupId st
      /\ App.activeUrlGroupId (App.setUrlGroups (App.removeDocumentUpdater activeId docId) st)
         = App.activeUrlGroupId st)
  /\ (find (fun group => (URLGroup.id group =? activeId)%string) (App.urlGroups st) = None ->
      App.urlGroups (App.setUrlGroups (App.addUrlUpdater activeId url) st) = App.urlGroups st
      /\ App.urlGroups (App.setUrlGroups (App.removeUrlUpdater activeId url) st)
         = App.urlGroups st
      /\ App.urlGroups (App.handleAddDocument_finish activeId now file st) = App.urlGroups st
      /\ App.urlGroups (App.setUrlGroups (App.removeDocumentUpdater activeId docId) st)
         = App.urlGroups st)
  /\ (Forall2 (Frame.urlsOnly (App.activeUrlGroupId st)) (App.urlGroups st)
        (App.urlGroups (App.handleAddUrl url st))
      /\ Forall2 (Frame.urlsOnly (App.activeUrlGroupId st)) (App.urlGroups st)
           (App.urlGroups (App.handleRemoveUrl url st))
      /\ Forall2 (Frame.documentsOnly (App.activeUrlGroupId st)) (App.urlGroups st)
           (App.urlGroups (App.handleAddDocument_finish (App.activeUrlGroupId st) now file st))
      /\ Forall2 (Frame.documentsOnly (App.activeUrlGroupId st)) (App.urlGroups st)
           (App.urlGroups (App.handleRemoveDocument docId st))).
Proof.
  split; [|split; [|split]].
  - repeat split.
    + apply addUrlUpdater_frame.
    + apply removeUrlUpdater_frame.
    + apply handleAddDocument_finish_frame.
    + apply removeDocumentUpdater_frame.
  - repeat split. unfold App.handleAddDocument_finish.
    destruct (App.newDocument now file); simpl; [|reflexivity].
    destruct (App.addDocumentOverflows _ _); reflexivity.
  - intros Hnone. repeat split.
    + apply (updater_without_group _ activeId _ Hnone).
    + apply (updater_without_group _ activeId _ Hnone).
    + rewrite handleAddDocument_finish_groups.
      destruct (App.newDocument now file); [|reflexivity].
      apply (updater_without_group _ activeId _ Hnone).
    + apply (updater_without_group _ activeId _ Hnone).
  - repeat split.
    + apply addUrlUpdater_frame.
    + apply removeUrlUpdater_frame.
    + apply handleAddDocument_finish_frame.
    + apply removeDocumentUpdater_frame.
Qed.

End StoreFrame.

(** C10, as stated, fails for an upload: the document goes to the group
    that was active when the upload began. The upload begins in the
    first initial group and the second group is selected while the file
    is read; when the upload ends the second group is the active one, and
    the first group, which is not, has gained the document. *)
Lemma C10_upload_changes_group_left :
  App.activeUrlGroupId Scenarios.switchedDuringUpload = "model-capabilities"
  /\ map (fun group => (URLGroup.id group, URLGroup.documents group))
       (App.urlGroups Scenarios.switchedDuringUpload)
     = [("gemini-overview", []); ("model-capabilities", [])]%list
  /\ App.activeUrlGroupId Scenarios.uploadedAfterSwitch = "model-capabilities"
  /\ map (fun group => (URLGroup.id group, URLGroup.documents group))
       (App.urlGroups Scenarios.uploadedAfterSwitch)
     = [("gemini-overview", [LocalDocument.mk "doc-7-notes.docx" "notes.docx" "some text"]);
        ("model-capabilities", [])]%list.
Proof. repeat split. Qed.

(** With a captured id of no group, the four operations change no group;
    the upload that ends after the second group was selected changes no
    group but those with the id of the first. *)
Lemma C10_store_operations_frame_witness :
  App.urlGroups
    (App.setUrlGroups (App.addUrlUpdater "no-such-group" Examples.newUrl) App.initialState)
  = App.INITIAL_URL_GROUPS
  /\ App.urlGroups
       (App.handleAddDocument_finish (P := Reference.platform) "no-such-group" 7
          (Examples.textFile "notes.docx" "some text") App.initialState)
     = App.INITIAL_URL_GROUPS
  /\ Forall2 (Frame.documentsOnly "gemini-overview")
       (App.urlGroups Scenarios.switchedDuringUpload)
       (App.urlGroups Scenarios.uploadedAfterSwitch).
Proof.
  split; [|split].
  - destruct (C10_store_operations_frame (P := Reference.platform) "no-such-group"
                Examples.newUrl "doc-1" 7 (Examples.textFile "notes.docx" "some text")
                App.initialState) as [_ [_ [Horphan _]]].
    exact (proj1 (Horphan eq_refl)).
  - destruct (C10_store_operations_frame (P := Reference.platform) "no-such-group"
                Examples.newUrl "doc-1" 7 (Examples.textFile "notes.docx" "some text")
                App.initialState) as [_ [_ [Horphan _]]].
    exact (proj1 (proj2 (proj2 (Horphan eq_refl)))).
  - destruct (C10_store_operations_frame (P := Reference.platform) "gemini-overview"
                Examples.newUrl "doc-1" 7 (Examples.textFile "notes.docx" "some text")
                Scenarios.switchedDuringUpload) as [[_ [_ [Hupload _]]] _].
    exact Hupload.
Defined.

(* ================================================================== *)
(** ** Adding and removing a URL *)
(* ================================================================== *)

Lemma remove_after_add_group (activeId url : string) (g : URLGroup.t) :
  (URLGroup.id g = activeId -> App.hasUrl url (URLGroup.urls g) = false) ->
  App.removeUrlUpdater activeId url (App.addUrlUpdater activeId url [g]) = [g].
Proof.
  intros Hfresh. simpl.
  destruct (URLGroup.id g =? activeId)%string eqn:E.
  - apply String.eqb_eq in E. specialize (Hfresh E).
    assert (filter (fun item => negb (KnowledgeUrl.url item =? url)%string) (URLGroup.urls g)
            = URLGroup.urls g) as Hfilter.
    { apply filter_all. intros item Hin.
      now rewrite (hasUrl_false url _ Hfresh item Hin). }
    destruct (_ && _); simpl.
    + apply String.eqb_eq in E. rewrite E. unfold App.withUrls; simpl.
      rewrite filter_app, Hfilter. simpl. rewrite String.eqb_refl. simpl.
      rewrite app_nil_r. now destruct g.
    + apply String.eqb_eq in E. rewrite E. rewrite Hfilter. now rewrite withUrls_same.
  - now rewrite E.
Qed.

Lemma remove_after_add_groups (activeId url : string) (groups : list URLGroup.t) :
  (forall group, In group groups ->
     URLGroup.id group = activeId -> App.hasUrl url (URLGroup.urls group) = false) ->
  App.removeUrlUpdater activeId url (App.addUrlUpdater activeId url groups) = groups.
Proof.
  induction groups as [|g groups IH]; intros H; [reflexivity|].
  change (App.addUrlUpdater activeId url (g :: groups))
    with (App.addUrlUpdater activeId url [g] ++ App.addUrlUpdater activeId url groups).
  unfold App.removeUrlUpdater. rewrite map_app.
  fold (App.removeUrlUpdater activeId url (App.addUrlUpdater activeId url [g])).
  fold (App.removeUrlUpdater activeId url (App.addUrlUpdater activeId url groups)).
  rewrite remove_after_add_group by (intros; apply H; [now left|assumption]).
  rewrite IH by (intros; apply H; [now right|assumption]).
  reflexivity.
Qed.

Lemma remove_absent_groups (activeId url : string) (groups : list URLGroup.t) :
  (forall group, In group groups ->
     URLGroup.id group = activeId -> App.hasUrl url (URLGroup.urls group) = false) ->
  App.removeUrlUpdater activeId url groups = groups.
Proof.
  intros H. apply map_fixed. intros g Hin.
  destruct (URLGroup.id g =? activeId)%string eqn:E; [|reflexivity].
  apply String.eqb_eq in E.
  rewrite filter_all; [apply withUrls_same|].
  intros item Hitem. now rewrite (hasUrl_false url _ (H g Hin E) item Hitem).
Qed.

(** The form either passes the typed URL to the store or leaves the store
    as it is. *)
Lemma addUrl_app {P : Platform} (url : string) (st : App.State)
    (kb : KnowledgeBaseManager.State) :
  Page.app (Page.addUrl url (Page.mk st kb)) = App.handleAddUrl url st
  \/ Page.app (Page.addUrl url (Page.mk st kb)) = st.
Proof.
  unfold Page.addUrl, Page.typeUrl, Page.submitUrl, KnowledgeBaseManager.handleAddUrl.
  cbn [Page.app Page.kb KnowledgeBaseManager.onUrlInputChange
       KnowledgeBaseManager.currentUrlInput KnowledgeBaseManager.setUrlError
       KnowledgeBaseManager.setCurrentUrlInput].
  destruct (JS.isEmpty _); [now right|].
  destruct (negb _); [now right|].
  destruct (_ <=? _); [now right|].
  destruct (existsb _ _); [now right|now left].
Qed.

(** C9: when the URL [url] is in no group that has the active id, adding
    [url] and then removing it gives back the state it started from: every
    group, and so every URL list with its entries in their order, is as it
    was. The same holds through the form and the delete dialog, whether
    the form accepts the URL or refuses it. *)
Theorem C9_add_then_remove_url (url : string) (st : App.State) :
  (forall group, In group (App.urlGroups st) ->
     URLGroup.id group = App.activeUrlGroupId st ->
     App.hasUrl url (URLGroup.urls group) = false) ->
  App.handleRemoveUrl url (App.handleAddUrl url st) = st
  /\ App.urlGroups (App.handleRemoveUrl url (App.handleAddUrl url st)) = App.urlGroups st
  /\ App.currentUrlsForChat (App.handleRemoveUrl url (App.handleAddUrl url st))
     = App.currentUrlsForChat st
  /\ forall (P : Platform) (kb : KnowledgeBaseManager.State) (item : KnowledgeUrl.t),
       KnowledgeUrl.url item = url ->
       Page.app (Page.removeUrl item (Page.addUrl url (Page.mk st kb))) = st.
Proof.
  intros Hfresh.
  assert (App.urlGroups (App.handleRemoveUrl url (App.handleAddUrl url st)) = App.urlGroups st)
    as Hgroups by (apply remove_after_add_groups; assumption).
  assert (App.handleRemoveUrl url (App.handleAddUrl url st) = st) as Hstate
    by (apply state_eq; solve [assumption | reflexivity]).
  split; [assumption|]. split; [assumption|]. split; [now rewrite Hstate|].
  intros P kb item Hitem. unfold Page.removeUrl.
  cbn [KnowledgeBaseManager.handleConfirmUrlDelete KnowledgeBaseManager.urlToDelete
       KnowledgeBaseManager.setUrlToDelete Page.app]. rewrite Hitem.
  destruct (addUrl_app url st kb) as [-> | ->]; [assumption|].
  apply state_eq; try reflexivity.
  apply remove_absent_groups. assumption.
Qed.

(** On the first initial group, a new URL goes in and out again. *)
Lemma C9_add_then_remove_url_witness :
  App.handleRemoveUrl Examples.newUrl (App.handleAddUrl Examples.newUrl App.initialState)
  = App.initialState
  /\ App.currentUrlsForChat (App.handleAddUrl Examples.newUrl App.initialState)
     = (App.GEMINI_DOCS_KNOWLEDGE_URLS ++ [KnowledgeUrl.mk Examples.newUrl Examples.newUrl])%list.
Proof.
  split.
  - apply (C9_add_then_remove_url Examples.newUrl App.initialState).
    simpl. intros group [H|[H|[]]] Hid; subst group; [reflexivity|discriminate Hid].
  - reflexivity.
Defined.

(* ================================================================== *)
(** ** The capacity of a group *)
(* ================================================================== *)

Section Capacity.
Context {P : Platform}.

Lemma Forall_map_keeps {A : Type} (Q : A -> Prop) (f : A -> A) (l : list A) :
  (forall x, Q x -> Q (f x)) -> Forall Q l -> Forall Q (map f l).
Proof.
  intros Hf H. induction H; simpl; constructor; auto.
Qed.

Lemma filter_length_le {A : Type} (f : A -> bool) (l : list A) :
  length (filter f l) <= length l.
Proof.
  induction l as [|x l IH]; simpl; [lia|]. destruct (f x); simpl; lia.
Qed.

Lemma addUrlUpdater_limits (activeId url : string) (groups : list URLGroup.t) :
  Forall Store.withinLimits groups ->
  Forall Store.withinLimits (App.addUrlUpdater activeId url groups).
Proof.
  apply Forall_map_keeps. intros g [Hu Hd].
  destruct (URLGroup.id g =? activeId)%string; [|now split].
  destruct (length (URLGroup.urls g) <? App.MAX_URLS) eqn:E; simpl; [|now split].
  destruct (negb _); [|now split].
  apply Nat.ltb_lt in E. split; simpl; [|assumption].
  rewrite length_app. simpl. lia.
Qed.

Lemma removeUrlUpdater_limits (activeId url : string) (groups : list URLGroup.t) :
  Forall Store.withinLimits groups ->
  Forall Store.withinLimits (App.removeUrlUpdater activeId url groups).
Proof.
  apply Forall_map_keeps. intros g [Hu Hd].
  destruct (URLGroup.id g =? activeId)%string; [|now split].
  split; simpl; [|assumption].
  pose proof (filter_length_le
                (fun item => negb (KnowledgeUrl.url item =? url)%string) (URLGroup.urls g)).
  lia.
Qed.

Lemma addDocumentUpdater_limits (activeId : string) (doc : LocalDocument.t)
    (groups : list URLGroup.t) :
  Forall Store.withinLimits groups ->
  Forall Store.withinLimits (App.addDocumentUpdater activeId doc groups).
Proof.
  apply Forall_map_keeps. intros g [Hu Hd].
  destruct (URLGroup.id g =? activeId)%string; [|now split].
  destruct (length (URLGroup.documents g) <? App.MAX_DOCS) eqn:E; [|now split].
  apply Nat.ltb_lt in E. split; simpl; [assumption|].
  rewrite length_app. simpl. lia.
Qed.

Lemma removeDocumentUpdater_limits (activeId docId : string) (groups : list URLGroup.t) :
  Forall Store.withinLimits groups ->
  Forall Store.withinLimits (App.removeDocumentUpdater activeId docId groups).
Proof.
  apply Forall_map_keeps. intros g [Hu Hd].
  destruct (URLGroup.id g =? activeId)%string; [|now split].
  split; simpl; [assumption|].
  pose proof (filter_length_le
                (fun doc => negb (LocalDocument.id doc =? docId)%string) (URLGroup.documents g)).
  lia.
Qed.

Lemma step_limits (st : App.State) (op : Store.Op) :
  Forall Store.withinLimits (App.urlGroups st) ->
  Forall Store.withinLimits (App.urlGroups (Store.step st op)).
Proof.
  intros H. destruct op; unfold Store.step.
  - now apply addUrlUpdater_limits.
  - now apply removeUrlUpdater_limits.
  - unfold App.handleAddDocument. rewrite handleAddDocument_finish_groups.
    destruct (App.newDocument now file); [|assumption].
    now apply addDocumentUpdater_limits.
  - now apply removeDocumentUpdater_limits.
  - assumption.
Qed.

Lemma run_limits (ops : list Store.Op) (st : App.State) :
  Forall Store.withinLimits (App.urlGroups st) ->
  Forall Store.withinLimits (App.urlGroups (Store.run ops st)).
Proof.
  revert st. induction ops as [|op ops IH]; intros st H; simpl; [assumption|].
  apply IH. now apply step_limits.
Qed.

Lemma addUrlUpdater_keeps_full (activeId url : string) (groups : list URLGroup.t) :
  Forall2 Frame.keepsFullUrls groups (App.addUrlUpdater activeId url groups).
Proof.
  apply Forall2_map_self. intros g _ Hfull.
  destruct (URLGroup.id g =? activeId)%string; [|reflexivity].
  destruct (length (URLGroup.urls g) <? App.MAX_URLS) eqn:E; [|reflexivity].
  apply Nat.ltb_lt in E. lia.
Qed.

Lemma addDocumentUpdater_keeps_full (activeId : string) (doc : LocalDocument.t)
    (groups : list URLGroup.t) :
  Forall2 Frame.keepsFullDocuments groups (App.addDocumentUpdater activeId doc groups).
Proof.
  apply Forall2_map_self. intros g _ Hfull.
  destruct (URLGroup.id g =? activeId)%string; [|reflexivity].
  destruct (length (URLGroup.documents g) <? App.MAX_DOCS) eqn:E; [|reflexivity].
  apply Nat.ltb_lt in E. lia.
Qed.

Lemma keepsFullDocuments_refl (groups : list URLGroup.t) :
  Forall2 Frame.keepsFullDocuments groups groups.
Proof. induction groups; constructor; auto. now intros _. Qed.

(** The form refuses a URL for a full list, whatever the URL. *)
Lemma handleAddUrl_full (urls : list KnowledgeUrl.t) (maxUrls : nat)
    (kb : KnowledgeBaseManager.State) :
  maxUrls <= length urls ->
  snd (KnowledgeBaseManager.handleAddUrl urls maxUrls kb) = None
  /\ (exists message,
        KnowledgeBaseManager.urlError (fst (KnowledgeBaseManager.handleAddUrl urls maxUrls kb))
        = Some message)
  /\ (JS.isEmpty (JS.trim (KnowledgeBaseManager.currentUrlInput kb)) = false ->
      KnowledgeBaseManager.isValidUrl (KnowledgeBaseManager.currentUrlInput kb) = true ->
      KnowledgeBaseManager.urlError (fst (KnowledgeBaseManager.handleAddUrl urls maxUrls kb))
      = Some (KnowledgeBaseManager.maxUrlsMessage maxUrls)).
Proof.
  intros Hfull. apply Nat.leb_le in Hfull.
  unfold KnowledgeBaseManager.handleAddUrl.
  destruct (JS.isEmpty _);
    [cbn [fst snd]; split; [reflexivity|split; [now eexists|discriminate]]|].
  destruct (KnowledgeBaseManager.isValidUrl _); cbn [negb];
    [|cbn [fst snd]; split; [reflexivity|split; [now eexists|discriminate]]].
  rewrite Hfull. cbn [fst snd].
  split; [reflexivity|split; [now eexists|reflexivity]].
Qed.

Lemma submitUrl_full (st : App.State) (kb : KnowledgeBaseManager.State) :
  App.MAX_URLS <= length (App.currentUrlsForChat st) ->
  Page.app (Page.submitUrl (Page.mk st kb)) = st
  /\ (exists message,
        KnowledgeBaseManager.urlError (Page.kb (Page.submitUrl (Page.mk st kb))) = Some message)
  /\ (JS.isEmpty (JS.trim (KnowledgeBaseManager.currentUrlInput kb)) = false ->
      KnowledgeBaseManager.isValidUrl (KnowledgeBaseManager.currentUrlInput kb) = true ->
      KnowledgeBaseManager.urlError (Page.kb (Page.submitUrl (Page.mk st kb)))
      = Some (KnowledgeBaseManager.maxUrlsMessage App.MAX_URLS)).
Proof.
  intros Hfull.
  destruct (handleAddUrl_full (App.currentUrlsForChat st) App.MAX_URLS kb Hfull)
    as [Hcall [Herr Hmsg]].
  unfold Page.submitUrl. cbn [Page.app Page.kb].
  destruct (KnowledgeBaseManager.handleAddUrl _ _ kb) as [kb' call].
  cbn [fst snd] in *. subst call. cbn [Page.app Page.kb]. auto.
Qed.

(** A full active group makes the document updater report. *)
Lemma overflows_when_full (st : App.State) :
  App.MAX_DOCS <= length (App.currentDocsForChat st) ->
  App.addDocumentOverflows (App.activeUrlGroupId st) (App.urlGroups st) = true.
Proof.
  unfold App.currentDocsForChat. intros Hfull.
  destruct (App.activeGroup st) as [g|] eqn:E; [|simpl in Hfull; unfold App.MAX_DOCS in Hfull; lia].
  apply activeGroup_some in E. destruct E as [Hin Hid].
  apply existsb_exists. exists g. split; [assumption|].
  rewrite Hid, String.eqb_refl. simpl.
  destruct (length (URLGroup.documents g) <? App.MAX_DOCS) eqn:L; [|reflexivity].
  apply Nat.ltb_lt in L. lia.
Qed.

(** Every state that the store reaches from the initial groups is within
    the limits. *)
Lemma reachable_within_limits (ops : list Store.Op) :
  Forall Store.withinLimits (App.urlGroups (Store.run ops App.initialState)).
Proof.
  apply run_limits. repeat constructor; vm_compute; lia.
Qed.

(** C2: every sequence of store operations (the adds among them) leaves
    every group with at most [MAX_URLS] URLs and at most [MAX_DOCS]
    documents, from the initial groups and from any groups within these
    limits; [handleAddUrl] and [handleAddDocument] leave a full group as
    it is; an add of a URL to a full active list is refused by the form
    with an error message (the capacity message for a well-formed URL) and
    changes nothing in the store; an add of a document to a full active
    list sets the document error (the capacity message when the
    extraction succeeded). *)
Theorem C2_capacity_limits (st : App.State) :
  (forall ops, Forall Store.withinLimits (App.urlGroups (Store.run ops App.initialState)))
  /\ (Forall Store.withinLimits (App.urlGroups st) ->
      forall ops, Forall Store.withinLimits (App.urlGroups (Store.run ops st)))
  /\ (forall url,
        Forall2 Frame.keepsFullUrls (App.urlGroups st) (App.urlGroups (App.handleAddUrl url st)))
  /\ (forall url kb,
        App.MAX_URLS <= length (App.currentUrlsForChat st) ->
        Page.app (Page.addUrl url (Page.mk st kb)) = st
        /\ (exists message,
              KnowledgeBaseManager.urlError (Page.kb (Page.addUrl url (Page.mk st kb)))
              = Some message)
        /\ (JS.isEmpty (JS.trim url) = false ->
            KnowledgeBaseManager.isValidUrl url = true ->
            KnowledgeBaseManager.urlError (Page.kb (Page.addUrl url (Page.mk st kb)))
            = Some (KnowledgeBaseManager.maxUrlsMessage App.MAX_URLS)))
  /\ (forall now file,
        Forall2 Frame.keepsFullDocuments (App.urlGroups st)
          (App.urlGroups (App.handleAddDocument now file st)))
  /\ (forall now file,
        App.MAX_DOCS <= length (App.currentDocsForChat st) ->
        (exists message, App.docError (App.handleAddDocument now file st) = Some message)
        /\ (forall newDoc, App.newDocument now file = JS.Ok newDoc ->
              App.docError (App.handleAddDocument now file st) = Some App.maxDocsMessage)).
Proof.
  split; [apply reachable_within_limits|].
  split; [intros Hlimits ops; now apply run_limits|].
  split; [|split; [|split]].
  - intros url. apply addUrlUpdater_keeps_full.
  - intros url kb Hfull. unfold Page.addUrl, Page.typeUrl. simpl Page.app.
    apply (submitUrl_full st (KnowledgeBaseManager.onUrlInputChange url kb) Hfull).
  - intros now file. unfold App.handleAddDocument. rewrite handleAddDocument_finish_groups.
    destruct (App.newDocument now file).
    + apply addDocumentUpdater_keeps_full.
    + apply keepsFullDocuments_refl.
  - intros now file Hfull. pose proof (overflows_when_full st Hfull) as Hover.
    unfold App.handleAddDocument, App.handleAddDocument_finish.
    destruct (App.newDocument now file) as [doc|e]; simpl.
    + change (App.urlGroups (App.handleAddDocument_start st)) with (App.urlGroups st).
      rewrite Hover. simpl. split; [eauto|reflexivity].
    + split; [eauto|discriminate].
Qed.

End Capacity.

(** On the full group of the examples: a sequence of adds keeps the
    limits, the form refuses a new URL with the capacity message, and a
    sixth document is refused with the capacity message. *)
Lemma C2_capacity_limits_witness :
  Forall Store.withinLimits
    (App.urlGroups
       (Store.run (P := Reference.platform)
          [Store.AddUrl Examples.newUrl;
           Store.AddDocument 7 (Examples.textFile "notes.docx" "some text");
           Store.AddUrl "https://docs.example.com/other"]
          Examples.fullState))
  /\ Page.app (Page.addUrl (P := Reference.platform) Examples.newUrl Examples.fullPage)
     = Examples.fullState
  /\ KnowledgeBaseManager.urlError
       (Page.kb (Page.addUrl (P := Reference.platform) Examples.newUrl Examples.fullPage))
     = Some (KnowledgeBaseManager.maxUrlsMessage App.MAX_URLS)
  /\ App.docError
       (App.handleAddDocument (P := Reference.platform) 7
          (Examples.textFile "notes.docx" "some text") Examples.fullState)
     = Some App.maxDocsMessage.
Proof.
  assert (Forall Store.withinLimits (App.urlGroups Examples.fullState)) as Hlimits.
  { repeat constructor; vm_compute; lia. }
  destruct (C2_capacity_limits (P := Reference.platform) Examples.fullState)
    as [_ [Hrun [_ [Hurl [_ Hdoc]]]]].
  split; [apply (Hrun Hlimits)|].
  assert (App.MAX_URLS <= length (App.currentUrlsForChat Examples.fullState)) as Hfull
    by (vm_compute; lia).
  destruct (Hurl Examples.newUrl KnowledgeBaseManager.initialState Hfull) as [Happ [_ Hmsg]].
  split; [exact Happ|]. split; [apply Hmsg; reflexivity|].
  assert (App.MAX_DOCS <= length (App.currentDocsForChat Examples.fullState)) as Hdocs
    by (vm_compute; lia).
  destruct (Hdoc 7%N (Examples.textFile "notes.docx" "some text") Hdocs) as [_ Hcap].
  eapply Hcap. reflexivity.
Defined.

(* ================================================================== *)
(** ** Adding the same URL twice *)
(* ================================================================== *)

Section Duplicates.
Context {P : Platform}.

Lemma find_map_same_id (activeId : string) (f : URLGroup.t -> URLGroup.t)
    (groups : list URLGroup.t) :
  (forall g, URLGroup.id (f g) = URLGroup.id g) ->
  find (fun group => (URLGroup.id group =? activeId)%string) (map f groups)
  = option_map f (find (fun group => (URLGroup.id group =? activeId)%string) groups).
Proof.
  intros Hid. induction groups as [|g groups IH]; simpl; [reflexivity|].
  rewrite Hid. destruct (URLGroup.id g =? activeId)%string; [reflexivity|assumption].
Qed.

(** The URLs of the active group after [handleAddUrl]. *)
Lemma currentUrls_after_add (url : string) (st : App.State) :
  App.currentUrlsForChat (App.handleAddUrl url st)
  = if (length (App.currentUrlsForChat st) <? App.MAX_URLS)
       && negb (App.hasUrl url (App.currentUrlsForChat st))
       && match App.activeGroup st with Some _ => true | None => false end
    then (App.currentUrlsForChat st ++ [KnowledgeUrl.mk url url])%list
    else App.currentUrlsForChat st.
Proof.
  unfold App.currentUrlsForChat at 1. unfold App.activeGroup at 1.
  unfold App.handleAddUrl, App.addUrlUpdater. cbn [App.urlGroups App.activeUrlGroupId App.setUrlGroups].
  rewrite find_map_same_id.
  2:{ intros g. destruct (_ =? _)%string; [|reflexivity].
      destruct (_ && _); reflexivity. }
  fold (App.activeGroup st). unfold App.currentUrlsForChat.
  destruct (App.activeGroup st) as [g|] eqn:E; cbn [option_map].
  - apply activeGroup_some in E. destruct E as [_ Hid].
    rewrite Hid, String.eqb_refl.
    destruct ((length (URLGroup.urls g) <? App.MAX_URLS) && negb (App.hasUrl url (URLGroup.urls g)));
      reflexivity.
  - now rewrite andb_false_r.
Qed.

Lemma countUrl_app (url : string) (l1 l2 : list KnowledgeUrl.t) :
  Store.countUrl url (l1 ++ l2) = Store.countUrl url l1 + Store.countUrl url l2.
Proof. unfold Store.countUrl. now rewrite filter_app, length_app. Qed.

Lemma countUrl_hasUrl (url : string) (urls : list KnowledgeUrl.t) :
  App.hasUrl url urls = negb (Store.countUrl url urls =? 0).
Proof.
  unfold App.hasUrl, Store.countUrl.
  induction urls as [|item urls IH]; simpl; [reflexivity|].
  destruct (KnowledgeUrl.url item =? url)%string; simpl; [reflexivity|assumption].
Qed.

(** C3, as stated, fails on a full group: after two attempts to add a
    new, well-formed URL to a list of [MAX_URLS] entries, in the store or
    through the form, the list holds no entry for it, and the error of the
    second attempt is the capacity message, not the duplicate message. *)
Lemma C3_full_group_keeps_url_out :
  length (App.currentUrlsForChat Examples.fullState) = App.MAX_URLS
  /\ Store.countUrl Examples.newUrl
       (App.currentUrlsForChat
          (App.handleAddUrl Examples.newUrl (App.handleAddUrl Examples.newUrl Examples.fullState)))
     = 0
  /\ Store.countUrl Examples.newUrl
       (App.currentUrlsForChat
          (Page.app
             (Page.addUrl (P := Reference.platform) Examples.newUrl
                (Page.addUrl (P := Reference.platform) Examples.newUrl Examples.fullPage))))
     = 0
  /\ KnowledgeBaseManager.urlError
       (Page.kb
          (Page.addUrl (P := Reference.platform) Examples.newUrl
             (Page.addUrl (P := Reference.platform) Examples.newUrl Examples.fullPage)))
     = Some (KnowledgeBaseManager.maxUrlsMessage App.MAX_URLS)
  /\ KnowledgeBaseManager.maxUrlsMessage App.MAX_URLS
     <> KnowledgeBaseManager.duplicateUrlMessage.
Proof.
  repeat split; try (vm_compute; reflexivity).
  vm_compute. discriminate.
Qed.

(** C3, amended: for a URL that passes the checks of the form (not blank,
    accepted by the URL parser) and an active group that holds it at most
    once and whose list is still below [MAX_URLS] after the first
    attempt, two attempts to add it leave exactly one entry with that
    URL; the second attempt changes nothing in the store and sets the
    duplicate error. *)
Theorem C3_add_twice_reports_duplicate (url : string) (st : App.State)
    (kb : KnowledgeBaseManager.State) :
  JS.isEmpty (JS.trim url) = false ->
  KnowledgeBaseManager.isValidUrl url = true ->
  App.activeGroup st <> None ->
  Store.countUrl url (App.currentUrlsForChat st) <= 1 ->
  length (App.currentUrlsForChat (Page.app (Page.addUrl url (Page.mk st kb)))) < App.MAX_URLS ->
  Store.countUrl url
    (App.currentUrlsForChat (Page.app (Page.addUrl url (Page.addUrl url (Page.mk st kb))))) = 1
  /\ Page.app (Page.addUrl url (Page.addUrl url (Page.mk st kb)))
     = Page.app (Page.addUrl url (Page.mk st kb))
  /\ KnowledgeBaseManager.urlError (Page.kb (Page.addUrl url (Page.addUrl url (Page.mk st kb))))
     = Some KnowledgeBaseManager.duplicateUrlMessage.
Proof.
  intros Hblank Hvalid Hactive Hcount Hroom.
  (* what one attempt does, from any form state *)
  assert (forall st' kb',
            length (App.currentUrlsForChat st') < App.MAX_URLS ->
            Page.addUrl url (Page.mk st' kb')
            = if App.hasUrl url (App.currentUrlsForChat st')
              then Page.mk st'
                     (KnowledgeBaseManager.setUrlError
                        (Some KnowledgeBaseManager.duplicateUrlMessage)
                        (KnowledgeBaseManager.onUrlInputChange url kb'))
              else Page.mk (App.handleAddUrl url st')
                     (KnowledgeBaseManager.setUrlError None
                        (KnowledgeBaseManager.setCurrentUrlInput ""
                           (KnowledgeBaseManager.onUrlInputChange url kb')))) as Hattempt.
  { intros st' kb' Hlt.
    unfold Page.addUrl, Page.typeUrl, Page.submitUrl, KnowledgeBaseManager.handleAddUrl.
    cbn [Page.app Page.kb KnowledgeBaseManager.onUrlInputChange
         KnowledgeBaseManager.currentUrlInput KnowledgeBaseManager.setUrlError
         KnowledgeBaseManager.setCurrentUrlInput].
    rewrite Hblank, Hvalid. cbn [negb].
    assert ((App.MAX_URLS <=? length (App.currentUrlsForChat st')) = false) as E
      by (apply Nat.leb_gt; assumption).
    rewrite E. fold (App.hasUrl url (App.currentUrlsForChat st')).
    destruct (App.hasUrl url (App.currentUrlsForChat st')); reflexivity. }
  (* the list is below the limit before the first attempt too *)
  assert (length (App.currentUrlsForChat st) < App.MAX_URLS) as Hlt.
  { destruct (Nat.lt_ge_cases (length (App.currentUrlsForChat st)) App.MAX_URLS) as [|Hge];
      [assumption|].
    destruct (submitUrl_full st (KnowledgeBaseManager.onUrlInputChange url kb) Hge) as [Happ _].
    unfold Page.addUrl, Page.typeUrl in Hroom. cbn [Page.app Page.kb] in Hroom.
    rewrite Happ in Hroom. lia. }
  rewrite (Hattempt st kb Hlt) in *.
  pose proof (countUrl_hasUrl url (App.currentUrlsForChat st)) as Hhas.
  destruct (App.hasUrl url (App.currentUrlsForChat st)) eqn:Hdup.
  - (* the URL was there: both attempts are refused as duplicates *)
    cbn [Page.app] in Hroom. rewrite (Hattempt st _ Hlt), Hdup. cbn [Page.app Page.kb].
    repeat split.
    destruct (Store.countUrl url (App.currentUrlsForChat st)) as [|[|n]];
      [discriminate Hhas|reflexivity|lia].
  - (* the URL was new: the first attempt appends it *)
    cbn [Page.app] in Hroom.
    assert (App.currentUrlsForChat (App.handleAddUrl url st)
            = (App.currentUrlsForChat st ++ [KnowledgeUrl.mk url url])%list) as Hafter.
    { rewrite currentUrls_after_add, Hdup.
      apply Nat.ltb_lt in Hlt. rewrite Hlt.
      destruct (App.activeGroup st); [reflexivity|congruence]. }
    assert (App.hasUrl url (App.currentUrlsForChat (App.handleAddUrl url st)) = true) as Hnow.
    { rewrite Hafter. unfold App.hasUrl. rewrite existsb_app. simpl.
      rewrite String.eqb_refl. now rewrite orb_true_r. }
    rewrite (Hattempt _ _ Hroom), Hnow. cbn [Page.app Page.kb].
    repeat split.
    rewrite Hafter, countUrl_app.
    destruct (Store.countUrl url (App.currentUrlsForChat st)) as [|n]; [|discriminate Hhas].
    unfold Store.countUrl. simpl. now rewrite String.eqb_refl.
Qed.

End Duplicates.

(** On the first initial group, which holds nine URLs: the new URL is
    added once and the second attempt meets the duplicate error. *)
Lemma C3_add_twice_reports_duplicate_witness :
  Store.countUrl Examples.newUrl
    (App.currentUrlsForChat
       (Page.app
          (Page.addUrl (P := Reference.platform) Examples.newUrl
             (Page.addUrl (P := Reference.platform) Examples.newUrl Page.initialState)))) = 1
  /\ KnowledgeBaseManager.urlError
       (Page.kb
          (Page.addUrl (P := Reference.platform) Examples.newUrl
             (Page.addUrl (P := Reference.platform) Examples.newUrl Page.initialState)))
     = Some KnowledgeBaseManager.duplicateUrlMessage.
Proof.
  assert (App.activeGroup App.initialState <> None) as Hactive by (vm_compute; discriminate).
  assert (Store.countUrl Examples.newUrl (App.currentUrlsForChat App.initialState) <= 1)
    as Hcount by (vm_compute; lia).
  assert (length
            (App.currentUrlsForChat
               (Page.app
                  (Page.addUrl (P := Reference.platform) Examples.newUrl
                     (Page.mk App.initialState KnowledgeBaseManager.initialState))))
          < App.MAX_URLS) as Hroom by (vm_compute; lia).
  destruct (C3_add_twice_reports_duplicate (P := Reference.platform) Examples.newUrl
              App.initialState KnowledgeBaseManager.initialState
              eq_refl eq_refl Hactive Hcount Hroom) as [Hone [_ Herr]].
  split; [exact Hone|exact Herr].
Defined.

(* ================================================================== *)
(** ** The chat request cycle *)
(* ================================================================== *)

Lemma replaceById_in_place (placeholder final : ChatMessage.t) (log : list ChatMessage.t) :
  replacedInPlace (ChatMessage.id placeholder) final log (App.replaceById placeholder final log).
Proof.
  unfold replacedInPlace, App.replaceById. split; [apply length_map|].
  intros i msg H. rewrite nth_error_map, H. reflexivity.
Qed.

Lemma replaceById_others (placeholder final : ChatMessage.t) (log : list ChatMessage.t) :
  Forall (fun msg => ChatMessage.id msg <> ChatMessage.id placeholder) log ->
  App.replaceById placeholder final log = log.
Proof.
  intros H. apply map_fixed. intros msg Hin.
  rewrite Forall_forall in H. specialize (H msg Hin).
  apply String.eqb_neq in H. now rewrite H.
Qed.

Lemma user_id_is_not_placeholder_id (clock : App.SendClock) (query : string) :
  (ChatMessage.id (App.userMessage clock query)
   =? ChatMessage.id (App.modelPlaceholderMessage clock))%string = false.
Proof. reflexivity. Qed.

(** An accepted query passes the guard and the key check. *)
Lemma handleSendMessage_start_accepted (apiKey : option string) (clock : App.SendClock)
    (query : string) (st : App.State) :
  JS.trim query <> "" ->
  App.isLoading st = false ->
  App.isFetchingSuggestions st = false ->
  JS.truthyStr apiKey = true ->
  App.handleSendMessage_start apiKey clock query st
  = (App.setChatMessages
       (fun prev => prev ++ [App.userMessage clock query; App.modelPlaceholderMessage clock])%list
       (App.setInitialQuerySuggestions [] (App.setIsLoading true st)),
     App.Requested (App.modelPlaceholderMessage clock)).
Proof.
  intros Hquery Hidle Hfetch Hkey. unfold App.handleSendMessage_start.
  apply isEmpty_false in Hquery. rewrite Hquery, Hidle, Hfetch, Hkey. reflexivity.
Qed.

(** The log after the whole cycle, for a final message [final] with the
    id of the placeholder. *)
Lemma replaceById_after_append (clock : App.SendClock) (query : string)
    (final : ChatMessage.t) (log : list ChatMessage.t) :
  Forall (fun msg => ChatMessage.id msg <> ChatMessage.id (App.modelPlaceholderMessage clock)) log ->
  App.replaceById (App.modelPlaceholderMessage clock) final
    (log ++ [App.userMessage clock query; App.modelPlaceholderMessage clock])
  = (log ++ [App.userMessage clock query; final])%list.
Proof.
  intros H. unfold App.replaceById. rewrite map_app.
  fold (App.replaceById (App.modelPlaceholderMessage clock) final log).
  rewrite (replaceById_others _ _ _ H). f_equal.
  cbn [map]. rewrite user_id_is_not_placeholder_id, String.eqb_refl. reflexivity.
Qed.

(** C5: an accepted query (not blank, nothing in flight, a key set)
    appends two messages to the log, the user message with the text of the
    query and then the placeholder of the model with [isLoading] true.
    When the service answers, every entry of the log that has the id of
    the placeholder becomes the final message, at its place, and every
    other entry stays; the final message keeps the id, the sender and the
    timestamp of the placeholder, has [isLoading] false, the metadata of
    the response, and as text the text of the response, or the
    empty-response text when the response has no text or an empty one.
    When no earlier entry has the id of the placeholder, the log after the
    whole cycle is the old log, the user message and the final message. *)
Theorem C5_send_success (apiKey : option string) (clock : App.SendClock) (query : string)
    (response : GenerateResponse.t) (st : App.State) :
  JS.trim query <> "" ->
  App.isLoading st = false ->
  App.isFetchingSuggestions st = false ->
  JS.truthyStr apiKey = true ->
  (snd (App.handleSendMessage_start apiKey clock query st)
   = App.Requested (App.modelPlaceholderMessage clock)
   /\ App.chatMessages (fst (App.handleSendMessage_start apiKey clock query st))
      = (App.chatMessages st
         ++ [App.userMessage clock query; App.modelPlaceholderMessage clock])%list
   /\ App.isLoading (fst (App.handleSendMessage_start apiKey clock query st)) = true)
  /\ (ChatMessage.sender (App.userMessage clock query) = USER
      /\ ChatMessage.text (App.userMessage clock query) = query
      /\ ChatMessage.sender (App.modelPlaceholderMessage clock) = MODEL
      /\ ChatMessage.isLoading (App.modelPlaceholderMessage clock) = Some true)
  /\ (forall later,
        replacedInPlace (ChatMessage.id (App.modelPlaceholderMessage clock))
          (App.resolvedMessage (App.modelPlaceholderMessage clock) response)
          (App.chatMessages later)
          (App.chatMessages
             (App.handleSendMessage_settle (App.modelPlaceholderMessage clock)
                (JS.Ok response) later)))
  /\ (ChatMessage.id (App.resolvedMessage (App.modelPlaceholderMessage clock) response)
      = ChatMessage.id (App.modelPlaceholderMessage clock)
      /\ ChatMessage.sender (App.resolvedMessage (App.modelPlaceholderMessage clock) response)
         = MODEL
      /\ ChatMessage.timestamp (App.resolvedMessage (App.modelPlaceholderMessage clock) response)
         = ChatMessage.timestamp (App.modelPlaceholderMessage clock)
      /\ ChatMessage.isLoading (App.resolvedMessage (App.modelPlaceholderMessage clock) response)
         = Some false
      /\ ChatMessage.urlContext (App.resolvedMessage (App.modelPlaceholderMessage clock) response)
         = GenerateResponse.urlContextMetadata response
      /\ (forall text, GenerateResponse.text response = Some text -> text <> "" ->
            ChatMessage.text (App.resolvedMessage (App.modelPlaceholderMessage clock) response)
            = text)
      /\ (GenerateResponse.text response = None \/ GenerateResponse.text response = Some "" ->
            ChatMessage.text (App.resolvedMessage (App.modelPlaceholderMessage clock) response)
            = App.emptyResponseMessage))
  /\ (Forall (fun msg => ChatMessage.id msg <> ChatMessage.id (App.modelPlaceholderMessage clock))
        (App.chatMessages st) ->
      App.chatMessages (App.handleSendMessage apiKey clock query (JS.Ok response) st)
      = (App.chatMessages st
         ++ [App.userMessage clock query;
             App.resolvedMessage (App.modelPlaceholderMessage clock) response])%list).
Proof.
  intros Hquery Hidle Hfetch Hkey.
  pose proof (handleSendMessage_start_accepted apiKey clock query st Hquery Hidle Hfetch Hkey)
    as Hstart.
  split; [rewrite Hstart; repeat split|].
  split; [repeat split|].
  split; [intros later; apply replaceById_in_place|].
  split.
  - repeat split.
    + intros text Htext Hne. cbn [App.resolvedMessage ChatMessage.text]. rewrite Htext.
      cbn [JS.orElse]. apply isEmpty_false in Hne. now rewrite Hne.
    + intros [Htext|Htext]; cbn [App.resolvedMessage ChatMessage.text]; now rewrite Htext.
  - intros Hfresh. unfold App.handleSendMessage. rewrite Hstart.
    cbn [App.handleSendMessage_settle App.chatMessages App.setIsLoading App.setChatMessages
         App.setInitialQuerySuggestions].
    now apply replaceById_after_append.
Qed.

(** The scenario of the specification: one URL, the query [What is x?],
    an answer [X is ...] without metadata. *)
Lemma C5_send_success_witness :
  App.chatMessages
    (App.handleSendMessage (Some "key") Examples.scenarioClock "What is x?"
       (JS.Ok Examples.scenarioResponse) Examples.scenarioState)
  = [ChatMessage.mk "user-1700000000000" "What is x?" USER 1700000000000 None None;
     ChatMessage.mk "model-response-1700000000001" "X is ..." MODEL 1700000000001
       (Some false) None].
Proof.
  assert (JS.trim "What is x?" <> "") as Hquery by (vm_compute; discriminate).
  destruct (C5_send_success (Some "key") Examples.scenarioClock "What is x?"
              Examples.scenarioResponse Examples.scenarioState
              Hquery eq_refl eq_refl eq_refl) as [_ [_ [_ [_ Hlog]]]].
  rewrite Hlog by constructor. reflexivity.
Defined.

(** C6: when the request of an accepted query fails, every entry of the
    log that has the id of the placeholder becomes the error message, at
    its place, and every other entry stays, so the log keeps its length;
    the error message has the sender [SYSTEM], the text [Error: ]
    followed by the failure reason (the message of the thrown value, or
    the default reason when it has none or an empty one) and [isLoading]
    false; the in-flight flag is cleared, as it is after a success. When
    no earlier entry has the id of the placeholder, the log after the
    whole cycle is the old log, the user message and the error message. *)
Theorem C6_send_failure (apiKey : option string) (clock : App.SendClock) (query : string)
    (e : JS.Thrown) (st : App.State) :
  JS.trim query <> "" ->
  App.isLoading st = false ->
  App.isFetchingSuggestions st = false ->
  JS.truthyStr apiKey = true ->
  (forall later,
     replacedInPlace (ChatMessage.id (App.modelPlaceholderMessage clock))
       (App.failedMessage (App.modelPlaceholderMessage clock) e)
       (App.chatMessages later)
       (App.chatMessages
          (App.handleSendMessage_settle (App.modelPlaceholderMessage clock) (JS.Throw e) later))
     /\ App.isLoading
          (App.handleSendMessage_settle (App.modelPlaceholderMessage clock) (JS.Throw e) later)
        = false)
  /\ (forall later response,
        App.isLoading
          (App.handleSendMessage_settle (App.modelPlaceholderMessage clock) (JS.Ok response) later)
        = false)
  /\ (ChatMessage.id (App.failedMessage (App.modelPlaceholderMessage clock) e)
      = ChatMessage.id (App.modelPlaceholderMessage clock)
      /\ ChatMessage.sender (App.failedMessage (App.modelPlaceholderMessage clock) e) = SYSTEM
      /\ ChatMessage.text (App.failedMessage (App.modelPlaceholderMessage clock) e)
         = ("Error: " ++ App.failureReason e)%string
      /\ ChatMessage.isLoading (App.failedMessage (App.modelPlaceholderMessage clock) e)
         = Some false
      /\ (forall message, JS.messageOf e = Some message -> message <> "" ->
            App.failureReason e = message)
      /\ (JS.messageOf e = None \/ JS.messageOf e = Some "" ->
            App.failureReason e = App.noResponseMessage))
  /\ (Forall (fun msg => ChatMessage.id msg <> ChatMessage.id (App.modelPlaceholderMessage clock))
        (App.chatMessages st) ->
      App.chatMessages (App.handleSendMessage apiKey clock query (JS.Throw e) st)
      = (App.chatMessages st
         ++ [App.userMessage clock query;
             App.failedMessage (App.modelPlaceholderMessage clock) e])%list)
  /\ App.isLoading (App.handleSendMessage apiKey clock query (JS.Throw e) st) = false.
Proof.
  intros Hquery Hidle Hfetch Hkey.
  pose proof (handleSendMessage_start_accepted apiKey clock query st Hquery Hidle Hfetch Hkey)
    as Hstart.
  split; [intros later; split; [apply replaceById_in_place|reflexivity]|].
  split; [reflexivity|].
  split.
  - repeat split.
    + intros message Hmsg Hne. unfold App.failureReason. rewrite Hmsg.
      cbn [JS.orElse]. apply isEmpty_false in Hne. now rewrite Hne.
    + intros [Hmsg|Hmsg]; unfold App.failureReason; now rewrite Hmsg.
  - unfold App.handleSendMessage. rewrite Hstart. split; [|reflexivity].
    intros Hfresh.
    cbn [App.handleSendMessage_settle App.chatMessages App.setIsLoading App.setChatMessages
         App.setInitialQuerySuggestions].
    now apply replaceById_after_append.
Qed.

(** The scenario with a request that fails with [quota exceeded]. *)
Lemma C6_send_failure_witness :
  App.chatMessages
    (App.handleSendMessage (Some "key") Examples.scenarioClock "What is x?"
       (JS.Throw (JS.ErrorObject "quota exceeded")) Examples.scenarioState)
  = [ChatMessage.mk "user-1700000000000" "What is x?" USER 1700000000000 None None;
     ChatMessage.mk "model-response-1700000000001" "Error: quota exceeded" SYSTEM
       1700000000001 (Some false) None]
  /\ App.isLoading
       (App.handleSendMessage (Some "key") Examples.scenarioClock "What is x?"
          (JS.Throw (JS.ErrorObject "quota exceeded")) Examples.scenarioState)
     = false.
Proof.
  assert (JS.trim "What is x?" <> "") as Hquery by (vm_compute; discriminate).
  destruct (C6_send_failure (Some "key") Examples.scenarioClock "What is x?"
              (JS.ErrorObject "quota exceeded") Examples.scenarioState
              Hquery eq_refl eq_refl eq_refl) as [_ [_ [_ [Hlog Hflag]]]].
  split; [|exact Hflag].
  rewrite Hlog by constructor. reflexivity.
Defined.

(* ================================================================== *)
(** ** Adding a document *)
(* ================================================================== *)

Section AddDocument.
Context {P : Platform}.

Lemma extractTextContent_supported (file : File.t) (text : string) :
  App.extractTextContent file = JS.Ok text ->
  App.isDocx file = true \/ App.isPdf file = true.
Proof.
  unfold App.extractTextContent. destruct (File.arrayBuffer file); simpl; [|discriminate].
  destruct (App.isDocx file); [auto|]. destruct (App.isPdf file); [auto|discriminate].
Qed.

Lemma newDocument_unsupported (now : N) (file : File.t) :
  App.isDocx file = false -> App.isPdf file = false ->
  App.newDocument now file
  = JS.Throw match File.arrayBuffer file with
             | JS.Ok _ => JS.ErrorObject App.unsupportedTypeMessage
             | JS.Throw e => e
             end.
Proof.
  intros Hdocx Hpdf. unfold App.newDocument, App.extractTextContent.
  destruct (File.arrayBuffer file); simpl; rewrite ?Hdocx, ?Hpdf; auto.
Qed.

Lemma newDocument_ok (now : N) (file : File.t) (doc : LocalDocument.t) :
  App.newDocument now file = JS.Ok doc ->
  exists text,
    App.extractTextContent file = JS.Ok text
    /\ JS.trim text <> ""
    /\ doc = LocalDocument.mk ("doc-" ++ JS.numberToString now ++ "-" ++ File.name file)
               (File.name file) text.
Proof.
  unfold App.newDocument. destruct (App.extractTextContent file) as [text|e]; simpl;
    [|discriminate].
  destruct (JS.isEmpty (JS.trim text)) eqn:E; [discriminate|].
  intros H. injection H as <-. exists text. apply isEmpty_false in E. auto.
Qed.

Lemma newDocument_blank (now : N) (file : File.t) (text : string) :
  App.extractTextContent file = JS.Ok text ->
  JS.allChars JS.isSpace text = true ->
  App.newDocument now file = JS.Throw (JS.ErrorObject App.noTextMessage).
Proof.
  intros Htext Hblank. unfold App.newDocument. rewrite Htext. simpl.
  apply trim_blank_iff in Hblank. now rewrite Hblank.
Qed.

Lemma handleAddDocument_error (now : N) (file : File.t) (st : App.State) (e : JS.Thrown) :
  App.newDocument now file = JS.Throw e ->
  App.urlGroups (App.handleAddDocument now file st) = App.urlGroups st
  /\ App.docError (App.handleAddDocument now file st) = Some (App.docErrorMessage e)
  /\ App.isProcessingDoc (App.handleAddDocument now file st) = false.
Proof.
  intros H. unfold App.handleAddDocument, App.handleAddDocument_finish. rewrite H.
  repeat split.
Qed.

(** C8: [handleAddDocument] leaves every group as it is and sets the
    document error when the lower-cased name of the file ends neither in
    [.docx] nor in [.pdf] (the unsupported-type message, once the bytes
    were read) and when the extracted text is empty or white space only
    (the no-text message); the file input shows an alert and does not call
    it for a name with another ending. When the groups differ after the call, the
    extraction succeeded with a text that is not blank, on a [.docx] or
    [.pdf] name, and the groups are the old ones with the document made
    of that text appended by the updater. *)
Theorem C8_add_document_failures (now : N) (file : File.t) (st : App.State) :
  (App.isDocx file = false -> App.isPdf file = false ->
     App.urlGroups (App.handleAddDocument now file st) = App.urlGroups st
     /\ (exists message, App.docError (App.handleAddDocument now file st) = Some message)
     /\ (forall bytes, File.arrayBuffer file = JS.Ok bytes ->
           App.docError (App.handleAddDocument now file st)
           = Some App.unsupportedTypeMessage)
     /\ (exists message,
           KnowledgeBaseManager.handleFileChange (Some file)
           = KnowledgeBaseManager.Alert message)
     /\ (forall kb, Page.chooseFile now (Some file) (Page.mk st kb) = Page.mk st kb))
  /\ (forall text,
        App.extractTextContent file = JS.Ok text ->
        JS.allChars JS.isSpace text = true ->
        App.urlGroups (App.handleAddDocument now file st) = App.urlGroups st
        /\ App.docError (App.handleAddDocument now file st) = Some App.noTextMessage)
  /\ (App.urlGroups (App.handleAddDocument now file st) <> App.urlGroups st ->
      exists text,
        App.extractTextContent file = JS.Ok text
        /\ JS.trim text <> ""
        /\ JS.allChars JS.isSpace text = false
        /\ (App.isDocx file = true \/ App.isPdf file = true)
        /\ App.urlGroups (App.handleAddDocument now file st)
           = App.addDocumentUpdater (App.activeUrlGroupId st)
               (LocalDocument.mk ("doc-" ++ JS.numberToString now ++ "-" ++ File.name file)
                  (File.name file) text)
               (App.urlGroups st)).
Proof.
  split; [|split].
  - intros Hdocx Hpdf.
    pose proof (newDocument_unsupported now file Hdocx Hpdf) as Hnew.
    destruct (handleAddDocument_error now file st _ Hnew) as [Hgroups [Herr _]].
    split; [assumption|]. split; [eauto|]. split.
    + intros bytes Hbytes. rewrite Herr, Hbytes. reflexivity.
    + unfold Page.chooseFile, KnowledgeBaseManager.handleFileChange.
      unfold App.isDocx in Hdocx. unfold App.isPdf in Hpdf. rewrite Hdocx, Hpdf. simpl.
      split; [eauto|reflexivity].
  - intros text Htext Hblank.
    destruct (handleAddDocument_error now file st _ (newDocument_blank now file text Htext Hblank))
      as [Hgroups [Herr _]].
    split; assumption.
  - intros Hchanged. unfold App.handleAddDocument in *.
    rewrite handleAddDocument_finish_groups in *.
    destruct (App.newDocument now file) as [doc|e] eqn:Hnew; [|now contradiction Hchanged].
    destruct (newDocument_ok now file doc Hnew) as [text [Htext [Hne Hdoc]]].
    exists text. split; [assumption|]. split; [assumption|]. split.
    + destruct (JS.allChars JS.isSpace text) eqn:E; [|reflexivity].
      apply trim_blank_iff in E. contradiction.
    + split; [now apply (extractTextContent_supported file text)|].
      now rewrite Hdoc.
Qed.

End AddDocument.

(** A text file is refused, a PDF without text is refused, and a Word
    file named in capitals goes into the active group. *)
Lemma C8_add_document_failures_witness :
  (App.urlGroups
     (App.handleAddDocument (P := Reference.platform) 7
        (Examples.textFile "notes.txt" "some text") App.initialState)
   = App.urlGroups App.initialState
   /\ App.docError
        (App.handleAddDocument (P := Reference.platform) 7
           (Examples.textFile "notes.txt" "some text") App.initialState)
      = Some App.unsupportedTypeMessage)
  /\ (App.urlGroups
        (App.handleAddDocument (P := Reference.platform) 7
           (Examples.textFile "scan.pdf" "   ") App.initialState)
      = App.urlGroups App.initialState
      /\ App.docError
           (App.handleAddDocument (P := Reference.platform) 7
              (Examples.textFile "scan.pdf" "   ") App.initialState)
         = Some App.noTextMessage)
  /\ App.currentDocsForChat
       (App.handleAddDocument (P := Reference.platform) 7
          (Examples.textFile "Report.DOCX" "some text") App.initialState)
     = [LocalDocument.mk "doc-7-Report.DOCX" "Report.DOCX" "some text"]
  /\ exists text,
       App.extractTextContent (P := Reference.platform)
         (Examples.textFile "Report.DOCX" "some text") = JS.Ok text
       /\ JS.trim text <> "".
Proof.
  split; [|split; [|split]].
  - destruct (C8_add_document_failures (P := Reference.platform) 7
                (Examples.textFile "notes.txt" "some text") App.initialState)
      as [Hbad _].
    destruct (Hbad eq_refl eq_refl) as [Hgroups [_ [Herr _]]].
    split; [exact Hgroups|]. eapply Herr. reflexivity.
  - destruct (C8_add_document_failures (P := Reference.platform) 7
                (Examples.textFile "scan.pdf" "   ") App.initialState)
      as [_ [Hblank _]].
    apply (Hblank ""); reflexivity.
  - reflexivity.
  - destruct (C8_add_document_failures (P := Reference.platform) 7
                (Examples.textFile "Report.DOCX" "some text") App.initialState)
      as [_ [_ Hadded]].
    assert (App.urlGroups
              (App.handleAddDocument (P := Reference.platform) 7
                 (Examples.textFile "Report.DOCX" "some text") App.initialState)
            <> App.urlGroups App.initialState) as Hchanged by (vm_compute; discriminate).
    destruct (Hadded Hchanged) as [text [Htext [Hne _]]].
    exists text. split; assumption.
Defined.

(* ================================================================== *)
(** ** The fence pattern *)
(* ================================================================== *)

Section FenceFacts.
Context {A : Type}.

(** A greedy run that is followed by a character outside the class stops
    there, when the continuation succeeds there. *)
Lemma greedyStar_longest (p : ascii -> bool) (k : string -> option A) (w r : string) (x : A) :
  JS.allChars p w = true ->
  JS.startsWithChar p r = false ->
  k r = Some x ->
  FenceRegex.greedyStar p k (w ++ r) = Some x.
Proof.
  intros Hw Hr Hk. induction w as [|c w IH]; simpl.
  - destruct r as [|d r]; simpl; [assumption|]. simpl in Hr. now rewrite Hr.
  - simpl in Hw. apply andb_true_iff in Hw. destruct Hw as [Hc Hw].
    now rewrite Hc, (IH Hw).
Qed.

Lemma greedyStar_sound (p : ascii -> bool) (k : string -> option A) (s : string) (x : A) :
  FenceRegex.greedyStar p k s = Some x ->
  exists w r, s = (w ++ r)%string /\ JS.allChars p w = true /\ k r = Some x.
Proof.
  induction s as [|c s IH]; simpl.
  - intros H. now exists "", "".
  - destruct (p c) eqn:Hc.
    + destruct (FenceRegex.greedyStar p k s) as [y|] eqn:E.
      * intros H. injection H as ->. destruct (IH eq_refl) as [w [r [Hs [Hw Hk]]]].
        exists (String c w), r. simpl. rewrite Hc, Hw, <- Hs. auto.
      * intros H. now exists "", (String c s).
    + intros H. now exists "", (String c s).
Qed.

Lemma optional_sound (p : ascii -> bool) (k : string -> option A) (s : string) (x : A) :
  FenceRegex.optional p k s = Some x ->
  k s = Some x \/ exists c s', s = String c s' /\ p c = true /\ k s' = Some x.
Proof.
  destruct s as [|c s]; simpl; [auto|].
  destruct (p c) eqn:Hc; [|auto].
  destruct (k s) as [y|] eqn:E; [|auto].
  intros H. injection H as ->. right. now exists c, s.
Qed.

Lemma optional_skipped (p : ascii -> bool) (k : string -> option A) (s : string) :
  JS.startsWithChar p s = false -> FenceRegex.optional p k s = k s.
Proof. destruct s as [|c s]; simpl; [reflexivity|]. now intros ->. Qed.

(** The lazy group stops at the first split whose continuation succeeds. *)
Lemma lazyAny_first (k : string -> string -> option A) (a b captured : string) (x : A) :
  (forall a1 a2, a = (a1 ++ a2)%string -> a2 <> "" ->
     k (captured ++ a1)%string (a2 ++ b)%string = None) ->
  k (captured ++ a)%string b = Some x ->
  FenceRegex.lazyAny k captured (a ++ b) = Some x.
Proof.
  revert captured. induction a as [|c a IH]; intros captured Hfail Hk.
  - rewrite append_empty_r in Hk. simpl. destruct b; simpl; now rewrite Hk.
  - simpl.
    pose proof (Hfail "" (String c a) eq_refl) as H0. rewrite append_empty_r in H0.
    simpl in H0. rewrite H0 by discriminate.
    apply IH.
    + intros a1 a2 Ha Hne. rewrite append_assoc. simpl.
      apply (Hfail (String c a1) a2); [simpl; now rewrite Ha|assumption].
    + rewrite append_assoc. exact Hk.
Qed.

Lemma lazyAny_sound (k : string -> string -> option A) (s captured : string) (x : A) :
  FenceRegex.lazyAny k captured s = Some x ->
  exists a b, s = (a ++ b)%string /\ k (captured ++ a)%string b = Some x.
Proof.
  revert captured. induction s as [|c s IH]; intros captured; simpl.
  - destruct (k captured "") as [y|] eqn:E; [|discriminate].
    intros H. injection H as ->. exists "", "". rewrite (append_empty_r captured).
    split; [reflexivity|assumption].
  - destruct (k captured (String c s)) as [y|] eqn:E.
    + intros H. injection H as ->. exists "", (String c s).
      rewrite (append_empty_r captured). split; [reflexivity|assumption].
    + intros H. apply IH in H. destruct H as [a [b [Hs Hk]]].
      exists (String c a), b. rewrite append_assoc in Hk. simpl in *.
      split; [now rewrite Hs|assumption].
Qed.

End FenceFacts.

Lemma isNewline_isSpace (c : ascii) : JS.isNewline c = true -> JS.isSpace c = true.
Proof.
  unfold JS.isNewline, JS.isSpace. intros H. apply Nat.eqb_eq in H. now rewrite H.
Qed.

Lemma literal_fence_at_end (captured r x : string) :
  FenceRegex.literal FenceRegex.fence (FenceRegex.atEnd captured) r = Some x ->
  r = FenceRegex.fence /\ x = captured.
Proof.
  unfold FenceRegex.fence.
  destruct r as [|c1 [|c2 [|c3 r]]]; cbn [FenceRegex.literal]; try discriminate.
  - destruct (Ascii.eqb _ c1); discriminate.
  - destruct (Ascii.eqb _ c1); [|discriminate]. destruct (Ascii.eqb _ c2); discriminate.
  - destruct (Ascii.eqb _ c1) eqn:E1; [|discriminate].
    destruct (Ascii.eqb _ c2) eqn:E2; [|discriminate].
    destruct (Ascii.eqb _ c3) eqn:E3; [|discriminate].
    apply Ascii.eqb_eq in E1, E2, E3. subst.
    unfold FenceRegex.atEnd. destruct r; simpl; [|discriminate].
    intros H. injection H as <-. auto.
Qed.

(** The end of the pattern accepts exactly blanks followed by the closing
    fence, and returns the capture it was given. *)
Lemma closing_sound (captured s x : string) :
  FenceRegex.closing captured s = Some x ->
  x = captured
  /\ exists blanks, s = (blanks ++ FenceRegex.fence)%string
                    /\ JS.allChars JS.isSpace blanks = true.
Proof.
  unfold FenceRegex.closing. intros H.
  apply optional_sound in H. destruct H as [H|[c [s' [Hs [Hc H]]]]].
  - apply greedyStar_sound in H. destruct H as [w [r [Hs [Hw Hk]]]].
    apply literal_fence_at_end in Hk. destruct Hk as [-> ->].
    split; [reflexivity|]. now exists w.
  - apply greedyStar_sound in H. destruct H as [w [r [Hs' [Hw Hk]]]].
    apply literal_fence_at_end in Hk. destruct Hk as [-> ->].
    split; [reflexivity|]. exists (String c w). simpl.
    rewrite (isNewline_isSpace c Hc), Hw, Hs, Hs'. auto.
Qed.

Lemma closing_complete (captured blanks : string) :
  JS.allChars JS.isSpace blanks = true ->
  FenceRegex.closing captured (blanks ++ FenceRegex.fence) = Some captured.
Proof.
  intros Hblanks. unfold FenceRegex.closing.
  assert (forall w, JS.allChars JS.isSpace w = true ->
            FenceRegex.greedyStar JS.isSpace
              (FenceRegex.literal FenceRegex.fence (FenceRegex.atEnd captured))
              (w ++ FenceRegex.fence) = Some captured) as Hrun
    by (intros w Hw; apply greedyStar_longest; [assumption|reflexivity|reflexivity]).
  destruct blanks as [|c blanks].
  - reflexivity.
  - simpl in Hblanks. apply andb_true_iff in Hblanks. destruct Hblanks as [Hc Hrest].
    change (FenceRegex.optional JS.isNewline
              (FenceRegex.greedyStar JS.isSpace
                 (FenceRegex.literal FenceRegex.fence (FenceRegex.atEnd captured)))
              (String c (blanks ++ FenceRegex.fence)) = Some captured).
    unfold FenceRegex.optional.
    destruct (JS.isNewline c).
    + now rewrite (Hrun blanks Hrest).
    + apply (Hrun (String c blanks)). simpl. now rewrite Hc, Hrest.
Qed.

(** A string that is its own [trimEnd] has no blank suffix. *)
Lemma kept_end_no_blank_suffix (a1 a2 : string) :
  JS.trimEnd (a1 ++ a2) = (a1 ++ a2)%string -> a2 <> "" ->
  JS.allChars JS.isSpace a2 = false.
Proof.
  intros Hend Hne. destruct (JS.allChars JS.isSpace a2) eqn:E; [|reflexivity].
  rewrite trimEnd_app_blank in Hend by assumption.
  destruct (trimEnd_split a1) as [trail [Ha1 _]].
  apply (f_equal String.length) in Hend. rewrite append_length in Hend.
  apply (f_equal String.length) in Ha1. rewrite append_length in Ha1.
  destruct a2; [contradiction|]. simpl in Hend. lia.
Qed.

Lemma startsWithChar_app (p : ascii -> bool) (a b : string) :
  a <> "" -> JS.startsWithChar p (a ++ b) = JS.startsWithChar p a.
Proof. destruct a; [contradiction|reflexivity]. Qed.

Lemma trim_not_empty (s : string) : JS.trim s <> "" -> s <> "".
Proof. intros H ->. now apply H. Qed.

(** What the pattern captures in a fenced text whose tag ends where the
    blanks or the content begin: the trimmed content. *)
Lemma exec_fenced (tag blanks1 content blanks2 : string) :
  JS.allChars JS.isWordChar tag = true ->
  JS.allChars JS.isSpace blanks1 = true ->
  JS.allChars JS.isSpace blanks2 = true ->
  JS.startsWithChar JS.isWordChar (blanks1 ++ content) = false ->
  JS.trim content <> "" ->
  FenceRegex.exec (fenced tag blanks1 content blanks2) = Some (JS.trim content).
Proof.
  intros Htag Hblanks1 Hblanks2 Hafter Hcontent.
  destruct (trim_split content Hcontent) as [lead [trail [Hsplit [Hlead [Htrail [Hhead Hend]]]]]].
  unfold fenced, FenceRegex.exec.
  change ("```" ++ tag ++ blanks1 ++ content ++ blanks2 ++ "```")%string
    with (String "`" (String "`" (String "`" (tag ++ blanks1 ++ content ++ blanks2 ++ "```"))))%string.
  change (FenceRegex.literal FenceRegex.fence ?k
            (String "`" (String "`" (String "`" ?r)))) with (k r).
  cbv beta.
  (* the language tag *)
  apply greedyStar_longest; [assumption| |].
  { rewrite <- append_assoc, startsWithChar_app; [assumption|].
    pose proof (trim_not_empty content Hcontent). destruct blanks1; [assumption|discriminate]. }
  (* the blanks up to the content *)
  rewrite Hsplit at 1.
  replace (blanks1 ++ (lead ++ JS.trim content ++ trail) ++ blanks2 ++ "```")%string
    with ((blanks1 ++ lead) ++ (JS.trim content ++ (trail ++ blanks2) ++ "```"))%string
    by (now rewrite !append_assoc).
  apply greedyStar_longest.
  { rewrite allChars_app, Hblanks1, Hlead. reflexivity. }
  { destruct (JS.trim content); [now contradiction Hcontent|exact Hhead]. }
  rewrite optional_skipped.
  2:{ destruct (JS.trim content) as [|c t]; [now contradiction Hcontent|].
      simpl in *. destruct (JS.isNewline c) eqn:E; [|reflexivity].
      apply isNewline_isSpace in E. congruence. }
  (* the capture *)
  apply lazyAny_first.
  - intros a1 a2 Ha Hne.
    destruct (FenceRegex.closing ("" ++ a1) (a2 ++ (trail ++ blanks2) ++ "```")) as [x|] eqn:E;
      [|reflexivity].
    exfalso. apply closing_sound in E. destruct E as [_ [blanks [Hs Hblanks]]].
    rewrite <- append_assoc in Hs. apply append_inv_tail in Hs.
    rewrite <- Hs, allChars_app in Hblanks. apply andb_true_iff in Hblanks.
    rewrite Ha in Hend. rewrite (kept_end_no_blank_suffix a1 a2 Hend Hne) in Hblanks.
    destruct Hblanks; discriminate.
  - simpl. apply closing_complete. rewrite allChars_app, Htrail, Hblanks2. reflexivity.
Qed.

(** The pattern matches no text that does not start with the fence. *)
Lemma exec_without_fence (s : string) :
  String.prefix FenceRegex.fence s = false -> FenceRegex.exec s = None.
Proof.
  unfold FenceRegex.exec, FenceRegex.fence.
  destruct s as [|c1 [|c2 [|c3 s]]]; cbn [FenceRegex.literal String.prefix]; try reflexivity.
  - destruct (Ascii.eqb _ c1); reflexivity.
  - destruct (Ascii.eqb _ c1); [|reflexivity]. destruct (Ascii.eqb _ c2); reflexivity.
  - destruct (ascii_dec "`" c1) as [<-|N1].
    + destruct (ascii_dec "`" c2) as [<-|N2].
      * destruct (ascii_dec "`" c3) as [<-|N3]; [destruct s; discriminate|].
        apply Ascii.eqb_neq in N3. now rewrite !Ascii.eqb_refl, N3.
      * apply Ascii.eqb_neq in N2. now rewrite Ascii.eqb_refl, N2.
    + apply Ascii.eqb_neq in N1. now rewrite N1.
Qed.

Lemma literal_fence_sound {A : Type} (k : string -> option A) (s : string) (x : A) :
  FenceRegex.literal FenceRegex.fence k s = Some x ->
  exists r, s = (FenceRegex.fence ++ r)%string /\ k r = Some x.
Proof.
  unfold FenceRegex.fence.
  destruct s as [|c1 [|c2 [|c3 s]]]; cbn [FenceRegex.literal]; try discriminate.
  - destruct (Ascii.eqb _ c1); discriminate.
  - destruct (Ascii.eqb _ c1); [|discriminate]. destruct (Ascii.eqb _ c2); discriminate.
  - destruct (Ascii.eqb _ c1) eqn:E1; [|discriminate].
    destruct (Ascii.eqb _ c2) eqn:E2; [|discriminate].
    destruct (Ascii.eqb _ c3) eqn:E3; [|discriminate].
    apply Ascii.eqb_eq in E1, E2, E3. subst. intros H. now exists s.
Qed.

(** Whatever the pattern captures is the content of a fence: the text is
    the opening fence, a run of word characters, blanks, the capture,
    blanks and the closing fence. *)
Lemma exec_sound (s captured : string) :
  FenceRegex.exec s = Some captured ->
  exists tag blanks1 blanks2,
    s = fenced tag blanks1 captured blanks2
    /\ JS.allChars JS.isWordChar tag = true
    /\ JS.allChars JS.isSpace blanks1 = true
    /\ JS.allChars JS.isSpace blanks2 = true.
Proof.
  unfold FenceRegex.exec. intros H.
  apply literal_fence_sound in H. destruct H as [r1 [Hs H]].
  apply greedyStar_sound in H. destruct H as [tag [r2 [Hr1 [Htag H]]]].
  apply greedyStar_sound in H. destruct H as [w [r3 [Hr2 [Hw H]]]].
  assert (exists nl r4, r3 = (nl ++ r4)%string /\ JS.allChars JS.isSpace nl = true
                        /\ FenceRegex.lazyAny FenceRegex.closing "" r4 = Some captured)
    as [nl [r4 [Hr3 [Hnl Hlazy]]]].
  { apply optional_sound in H. destruct H as [H|[c [r4 [Hr3 [Hc H]]]]].
    - now exists "", r3.
    - exists (String c ""), r4. simpl. rewrite (isNewline_isSpace c Hc). auto. }
  apply lazyAny_sound in Hlazy. destruct Hlazy as [a [b [Hr4 Hclose]]].
  apply closing_sound in Hclose. destruct Hclose as [Hcap [blanks2 [Hb Hblanks2]]].
  simpl in Hcap. subst a.
  exists tag, (w ++ nl)%string, blanks2. split; [|split; [assumption|split; [|assumption]]].
  - unfold fenced. rewrite Hs, Hr1, Hr2, Hr3, Hr4, Hb. unfold FenceRegex.fence.
    now rewrite !append_assoc.
  - now rewrite allChars_app, Hw, Hnl.
Qed.

Section JsonStr.
Context {P : Platform}.

(** The string handed to [JSON.parse] is the trimmed text, or the trimmed
    content of the fence that the trimmed text is. *)
Lemma jsonStrOf_cases (text : string) :
  App.jsonStrOf text = JS.trim text
  \/ exists tag blanks1 content blanks2,
       JS.trim text = fenced tag blanks1 content blanks2
       /\ JS.allChars JS.isWordChar tag = true
       /\ JS.allChars JS.isSpace blanks1 = true
       /\ JS.allChars JS.isSpace blanks2 = true
       /\ content <> ""
       /\ App.jsonStrOf text = JS.trim content.
Proof.
  unfold App.jsonStrOf.
  destruct (FenceRegex.exec (JS.trim text)) as [group2|] eqn:E; [|now left].
  destruct (JS.isEmpty group2) eqn:Hempty; [now left|]. right.
  apply exec_sound in E. destruct E as [tag [blanks1 [blanks2 [Htext [Htag [H1 H2]]]]]].
  exists tag, blanks1, group2, blanks2. apply isEmpty_false in Hempty. auto 10.
Qed.

(** The fence is stripped: the string handed to [JSON.parse] for a fenced
    text, with blanks around it or not, is the trimmed content. *)
Lemma jsonStrOf_fenced (before tag blanks1 content blanks2 after : string) :
  JS.allChars JS.isSpace before = true ->
  JS.allChars JS.isSpace after = true ->
  JS.allChars JS.isWordChar tag = true ->
  JS.allChars JS.isSpace blanks1 = true ->
  JS.allChars JS.isSpace blanks2 = true ->
  JS.startsWithChar JS.isWordChar (blanks1 ++ content) = false ->
  JS.trim content <> "" ->
  App.jsonStrOf (before ++ fenced tag blanks1 content blanks2 ++ after) = JS.trim content.
Proof.
  intros Hbefore Hafter Htag Hblanks1 Hblanks2 Hword Hcontent.
  assert (JS.trim (before ++ fenced tag blanks1 content blanks2 ++ after)
          = fenced tag blanks1 content blanks2) as Htrim.
  { apply trim_around; [assumption|assumption|reflexivity|].
    unfold fenced.
    replace ("```" ++ tag ++ blanks1 ++ content ++ blanks2 ++ "```")%string
      with (("```" ++ tag ++ blanks1 ++ content ++ blanks2) ++ "```")%string
      by (now rewrite !append_assoc).
    apply trimEnd_app_kept; [discriminate|reflexivity]. }
  unfold App.jsonStrOf.
  rewrite Htrim, (exec_fenced tag blanks1 content blanks2 Htag Hblanks1 Hblanks2 Hword Hcontent).
  apply isEmpty_false in Hcontent. rewrite Hcontent. apply trim_idempotent.
Qed.

(** A text that does not start with the fence is parsed as it is, trimmed. *)
Lemma jsonStrOf_plain (text : string) :
  String.prefix FenceRegex.fence (JS.trim text) = false ->
  App.jsonStrOf text = JS.trim text.
Proof.
  intros H. unfold App.jsonStrOf. now rewrite (exec_without_fence _ H).
Qed.

End JsonStr.

(* ================================================================== *)
(** ** The suggestion fetcher *)
(* ================================================================== *)

(** The strings kept by the filter are the string elements, in order. *)
Lemma strings_are_the_string_elements (vs : list JS.Value) :
  map JS.Str (JS.strings vs) = filter JS.isString vs.
Proof.
  induction vs as [|v vs IH]; simpl; [reflexivity|].
  destruct v; simpl; rewrite ?IH; reflexivity.
Qed.

Lemma getProperty_truthy (parsed v : JS.Value) (key : string) :
  JS.getProperty parsed key = Some v -> JS.truthy parsed = true.
Proof. destruct parsed; simpl; try discriminate. reflexivity. Qed.

Section SuggestionFacts.
Context {P : Platform}.

Lemma parseSuggestions_cases (text : string) :
  match App.parseSuggestions text with
  | App.Suggestions suggestionsArray =>
      exists parsed elements,
        JSON_parse (App.jsonStrOf text) = Some parsed
        /\ JS.getProperty parsed "suggestions" = Some (JS.Array elements)
        /\ suggestionsArray = JS.strings elements
  | App.UnexpectedFormat =>
      exists parsed,
        JSON_parse (App.jsonStrOf text) = Some parsed
        /\ forall elements, JS.getProperty parsed "suggestions" <> Some (JS.Array elements)
  | App.ParseError => JSON_parse (App.jsonStrOf text) = None
  end.
Proof.
  unfold App.parseSuggestions.
  destruct (JSON_parse (App.jsonStrOf text)) as [parsed|]; [|reflexivity].
  destruct (JS.truthy parsed) eqn:Htruthy.
  - destruct (JS.getProperty parsed "suggestions") as [v|] eqn:Hprop.
    + destruct v; try (exists parsed; split; [reflexivity|intros; rewrite Hprop; discriminate]).
      exists parsed, elements. auto.
    + exists parsed. split; [reflexivity|intros; rewrite Hprop; discriminate].
  - exists parsed. split; [reflexivity|]. intros elements H.
    apply getProperty_truthy in H. congruence.
Qed.

(** C7, as stated, fails on an empty body. The empty text is no JSON
    (the parser of the examples refuses it, as [JSON.parse] does), and the
    fetcher, which tests the text before it parses it, appends no message
    for it. Nor is every fence stripped: for a fence without content the
    fenced text itself goes to the parser. *)
Lemma C7_empty_body_is_silent :
  @JSON_parse Reference.platform (App.jsonStrOf "") = None
  /\ App.chatMessages
       (App.fetchAndSetInitialSuggestions_settle (P := Reference.platform) 7 7
          (JS.Ok (SuggestionsResponse.mk (Some ""))) Examples.scenarioState)
     = App.chatMessages Examples.scenarioState
  /\ App.initialQuerySuggestions
       (App.fetchAndSetInitialSuggestions_settle (P := Reference.platform) 7 7
          (JS.Ok (SuggestionsResponse.mk (Some ""))) Examples.scenarioState)
     = []
  /\ App.jsonStrOf (fenced "json" LF "" "") = fenced "json" LF "" "".
Proof. repeat split. Qed.

(** C7, amended: for a response with a text that is not empty, the string
    given to [JSON.parse] is the trimmed text or, when the trimmed text is
    a fence of three backticks around a content that is not blank (a
    language tag that ends where the blanks or the content begin, or no
    tag; blanks or line breaks around the content, or none; blanks around
    the fence allowed), the trimmed content of the fence; a text that
    does not start with three backticks is parsed as it is, trimmed. When
    the parsed value has a [suggestions] array, the suggestion list is the
    first four of its string elements, in their order (the other elements
    are dropped), and the log is untouched. When [JSON.parse] throws, or
    the parsed value has no [suggestions] array, the suggestion list is
    empty and one system message is appended to the log. A rejected
    request appends one system message too. In every case the fetch ends
    with the fetching flag cleared. A response without text, or with an
    empty one, is not parsed: it gives an empty list and leaves the log as
    it is. *)
Theorem C7_suggestions_from_response (now timestamp : N) (st : App.State) :
  (forall before tag blanks1 content blanks2 after,
     JS.allChars JS.isSpace before = true ->
     JS.allChars JS.isSpace after = true ->
     JS.allChars JS.isWordChar tag = true ->
     JS.allChars JS.isSpace blanks1 = true ->
     JS.allChars JS.isSpace blanks2 = true ->
     JS.startsWithChar JS.isWordChar (blanks1 ++ content) = false ->
     JS.trim content <> "" ->
     App.jsonStrOf (before ++ fenced tag blanks1 content blanks2 ++ after) = JS.trim content)
  /\ (forall text,
        String.prefix FenceRegex.fence (JS.trim text) = false ->
        App.jsonStrOf text = JS.trim text)
  /\ (forall text,
        App.jsonStrOf text = JS.trim text
        \/ exists tag blanks1 content blanks2,
             JS.trim text = fenced tag blanks1 content blanks2
             /\ JS.allChars JS.isWordChar tag = true
             /\ JS.allChars JS.isSpace blanks1 = true
             /\ JS.allChars JS.isSpace blanks2 = true
             /\ content <> ""
             /\ App.jsonStrOf text = JS.trim content)
  /\ (forall text parsed elements,
        text <> "" ->
        JSON_parse (App.jsonStrOf text) = Some parsed ->
        JS.getProperty parsed "suggestions" = Some (JS.Array elements) ->
        App.initialQuerySuggestions
          (App.fetchAndSetInitialSuggestions_settle now timestamp
             (JS.Ok (SuggestionsResponse.mk (Some text))) st)
        = firstn 4 (JS.strings elements)
        /\ map JS.Str (JS.strings elements) = filter JS.isString elements
        /\ App.chatMessages
             (App.fetchAndSetInitialSuggestions_settle now timestamp
                (JS.Ok (SuggestionsResponse.mk (Some text))) st)
           = App.chatMessages st)
  /\ (forall text,
        text <> "" ->
        JSON_parse (App.jsonStrOf text) = None
        \/ (exists parsed,
              JSON_parse (App.jsonStrOf text) = Some parsed
              /\ forall elements,
                   JS.getProperty parsed "suggestions" <> Some (JS.Array elements)) ->
        App.initialQuerySuggestions
          (App.fetchAndSetInitialSuggestions_settle now timestamp
             (JS.Ok (SuggestionsResponse.mk (Some text))) st)
        = []
        /\ exists message,
             App.chatMessages
               (App.fetchAndSetInitialSuggestions_settle now timestamp
                  (JS.Ok (SuggestionsResponse.mk (Some text))) st)
             = (App.chatMessages st ++ [message])%list
             /\ ChatMessage.sender message = SYSTEM)
  /\ (forall e,
        exists message,
          App.chatMessages
            (App.fetchAndSetInitialSuggestions_settle now timestamp (JS.Throw e) st)
          = (App.chatMessages st ++ [message])%list
          /\ ChatMessage.sender message = SYSTEM)
  /\ (forall text,
        text = None \/ text = Some "" ->
        App.initialQuerySuggestions
          (App.fetchAndSetInitialSuggestions_settle now timestamp
             (JS.Ok (SuggestionsResponse.mk text)) st)
        = []
        /\ App.chatMessages
             (App.fetchAndSetInitialSuggestions_settle now timestamp
                (JS.Ok (SuggestionsResponse.mk text)) st)
           = App.chatMessages st)
  /\ (forall outcome,
        App.isFetchingSuggestions
          (App.fetchAndSetInitialSuggestions_settle now timestamp outcome st) = false
        /\ length
             (App.initialQuerySuggestions
                (App.fetchAndSetInitialSuggestions_settle now timestamp outcome st))
           <= Nat.max 4 (length (App.initialQuerySuggestions st))).
Proof.
  split; [intros; now apply jsonStrOf_fenced|].
  split; [intros text H; now apply jsonStrOf_plain|].
  split; [apply jsonStrOf_cases|].
  split; [|split; [|split; [|split]]].
  - intros text parsed elements Hne Hparse Hprop.
    unfold App.fetchAndSetInitialSuggestions_settle. cbn [SuggestionsResponse.text].
    apply isEmpty_false in Hne. rewrite Hne.
    pose proof (parseSuggestions_cases text) as Hcases.
    destruct (App.parseSuggestions text) as [suggestionsArray| |].
    + destruct Hcases as [parsed' [elements' [Hparse' [Hprop' ->]]]].
      rewrite Hparse in Hparse'. injection Hparse' as <-.
      rewrite Hprop in Hprop'. injection Hprop' as <-.
      repeat split. apply strings_are_the_string_elements.
    + destruct Hcases as [parsed' [Hparse' Hnot]].
      rewrite Hparse in Hparse'. injection Hparse' as <-.
      now contradiction (Hnot elements).
    + congruence.
  - intros text Hne Hbad.
    unfold App.fetchAndSetInitialSuggestions_settle. cbn [SuggestionsResponse.text].
    apply isEmpty_false in Hne. rewrite Hne.
    pose proof (parseSuggestions_cases text) as Hcases.
    destruct (App.parseSuggestions text) as [suggestionsArray| |].
    + destruct Hcases as [parsed [elements [Hparse [Hprop _]]]].
      destruct Hbad as [Hnone|[parsed' [Hparse' Hnot]]]; [congruence|].
      rewrite Hparse in Hparse'. injection Hparse' as <-.
      now contradiction (Hnot elements).
    + split; [reflexivity|]. eexists. split; reflexivity.
    + split; [reflexivity|]. eexists. split; reflexivity.
  - intros e. eexists. split; reflexivity.
  - intros text [->| ->]; split; reflexivity.
  - intros outcome. split.
    + unfold App.fetchAndSetInitialSuggestions_settle. reflexivity.
    + unfold App.fetchAndSetInitialSuggestions_settle.
      assert (forall l : list string, length (firstn 4 l) <= 4) as Hfour
        by (intros l; rewrite length_firstn; lia).
      destruct outcome as [[[text|]]|e]; cbn [SuggestionsResponse.text].
      * destruct (JS.isEmpty text); [|destruct (App.parseSuggestions text)];
          cbn [App.initialQuerySuggestions App.setIsFetchingSuggestions
               App.setInitialQuerySuggestions App.setChatMessages];
          match goal with |- length (firstn 4 ?l) <= _ => pose proof (Hfour l) end; lia.
      * cbn [App.initialQuerySuggestions App.setIsFetchingSuggestions
             App.setInitialQuerySuggestions App.setChatMessages].
        pose proof (Hfour []). lia.
      * cbn [App.initialQuerySuggestions App.setIsFetchingSuggestions
             App.setInitialQuerySuggestions App.setChatMessages]. lia.
Qed.

End SuggestionFacts.

(** The scenario of the specification: of the five fenced suggestions the
    first four are kept, in their order; and of a mixed array the strings
    only. *)
Lemma C7_suggestions_from_response_witness :
  App.initialQuerySuggestions
    (App.fetchAndSetInitialSuggestions_settle (P := Reference.platform) 7 7
       (JS.Ok (SuggestionsResponse.mk (Some Examples.scenarioSuggestionsBody)))
       Examples.scenarioState)
  = ["a"; "b"; "c"; "d"]%string
  /\ App.jsonStrOf Examples.scenarioSuggestionsBody = Examples.scenarioSuggestionsJson
  /\ App.jsonStrOf " not json " = "not json"
  /\ App.initialQuerySuggestions
       (App.fetchAndSetInitialSuggestions_settle (P := Reference.platform) 7 7
          (JS.Ok (SuggestionsResponse.mk (Some Examples.mixedSuggestionsBody)))
          Examples.scenarioState)
     = ["a"; "b"; "c"]%string
  /\ exists message,
       App.chatMessages
         (App.fetchAndSetInitialSuggestions_settle (P := Reference.platform) 7 7
            (JS.Ok (SuggestionsResponse.mk (Some "not json"))) Examples.scenarioState)
       = (App.chatMessages Examples.scenarioState ++ [message])%list
       /\ ChatMessage.sender message = SYSTEM.
Proof.
  destruct (C7_suggestions_from_response (P := Reference.platform) 7 7 Examples.scenarioState)
    as [Hfence [Hplain [_ [Hgood [Hbad _]]]]].
  split; [|split; [|split; [|split]]].
  - assert (Examples.scenarioSuggestionsBody <> "") as Hne by (vm_compute; discriminate).
    destruct (Hgood Examples.scenarioSuggestionsBody
                (JS.Object [("suggestions"%string,
                             JS.Array [JS.Str "a"; JS.Str "b"; JS.Str "c"; JS.Str "d"; JS.Str "e"])])
                [JS.Str "a"; JS.Str "b"; JS.Str "c"; JS.Str "d"; JS.Str "e"]
                Hne eq_refl eq_refl) as [Hlist _].
    exact Hlist.
  - apply (Hfence "" "json" LF Examples.scenarioSuggestionsJson LF "");
      try reflexivity. vm_compute. discriminate.
  - apply (Hplain " not json "). reflexivity.
  - reflexivity.
  - assert ("not json" <> "") as Hne by discriminate.
    destruct (Hbad "not json" Hne (or_introl eq_refl)) as [_ Hmsg]. exact Hmsg.
Defined.

(* ================================================================== *)
(** ** More on the store: repeated, undone and exchanged operations *)
(* ================================================================== *)

Lemma map_pointwise {A : Type} (f g : A -> A) (l : list A) :
  (forall x, f x = g x) -> map f l = map g l.
Proof. intros H. induction l as [|x l IH]; simpl; [reflexivity|]. now rewrite H, IH. Qed.

Lemma hasUrl_appended (url : string) (urls : list KnowledgeUrl.t) :
  App.hasUrl url (urls ++ [KnowledgeUrl.mk url url]) = true.
Proof.
  unfold App.hasUrl. rewrite existsb_app. simpl. rewrite String.eqb_refl.
  now rewrite orb_true_r.
Qed.

Lemma addUrlUpdater_idempotent (activeId url : string) (groups : list URLGroup.t) :
  App.addUrlUpdater activeId url (App.addUrlUpdater activeId url groups)
  = App.addUrlUpdater activeId url groups.
Proof.
  unfold App.addUrlUpdater. rewrite map_map. apply map_pointwise. intros g.
  destruct (URLGroup.id g =? activeId)%string eqn:Hid.
  - destruct ((length (URLGroup.urls g) <? App.MAX_URLS)
              && negb (App.hasUrl url (URLGroup.urls g))) eqn:Hguard.
    + cbn [App.withUrls URLGroup.id URLGroup.urls]. rewrite Hid.
      rewrite hasUrl_appended. now rewrite andb_false_r.
    + now rewrite Hid, Hguard.
  - now rewrite Hid.
Qed.

(** X1: adding a URL a second time leaves every group as it is: the
    updater of [handleAddUrl], applied again with the same captured id
    and the same URL, finds the URL or finds the list still full. This
    holds for the groups of every state that has the groups and the
    active id left by the first add, whatever the effects and the other
    handlers did to the log, the suggestions and the flags in between. *)
Theorem X1_handleAddUrl_idempotent (url : string) (st : App.State) :
  (forall activeId groups,
     App.addUrlUpdater activeId url (App.addUrlUpdater activeId url groups)
     = App.addUrlUpdater activeId url groups)
  /\ (forall later,
        App.urlGroups later = App.urlGroups (App.handleAddUrl url st) ->
        App.activeUrlGroupId later = App.activeUrlGroupId st ->
        App.urlGroups (App.handleAddUrl url later) = App.urlGroups later
        /\ App.currentUrlsForChat (App.handleAddUrl url later)
           = App.currentUrlsForChat (App.handleAddUrl url st)).
Proof.
  split; [intros activeId groups; apply addUrlUpdater_idempotent|].
  intros later Hgroups Hactive.
  assert (App.urlGroups (App.handleAddUrl url later) = App.urlGroups later) as Hsame.
  { cbn [App.handleAddUrl App.urlGroups App.setUrlGroups]. rewrite Hgroups, Hactive.
    cbn [App.handleAddUrl App.urlGroups App.setUrlGroups]. apply addUrlUpdater_idempotent. }
  split; [exact Hsame|].
  unfold App.currentUrlsForChat.
  rewrite (activeGroup_ext (App.handleAddUrl url later) (App.handleAddUrl url st));
    [reflexivity|now rewrite Hsame|exact Hactive].
Qed.

Lemma map_filter_url (url : string) (urls : list KnowledgeUrl.t) :
  map KnowledgeUrl.url
    (filter (fun item => negb (KnowledgeUrl.url item =? url)%string) urls)
  = filter (fun x => negb (x =? url)%string) (map KnowledgeUrl.url urls).
Proof.
  induction urls as [|item urls IH]; simpl; [reflexivity|].
  destruct (KnowledgeUrl.url item =? url)%string; simpl; now rewrite IH.
Qed.

Lemma hasUrl_filtered (url : string) (urls : list KnowledgeUrl.t) :
  App.hasUrl url (filter (fun item => negb (KnowledgeUrl.url item =? url)%string) urls) = false.
Proof.
  unfold App.hasUrl. induction urls as [|item urls IH]; simpl; [reflexivity|].
  destruct (KnowledgeUrl.url item =? url)%string eqn:E; simpl; [assumption|].
  now rewrite E.
Qed.

(** The URLs of the active group after [handleRemoveUrl]. *)
Lemma currentUrls_after_remove (url : string) (st : App.State) :
  App.currentUrlsForChat (App.handleRemoveUrl url st)
  = filter (fun item => negb (KnowledgeUrl.url item =? url)%string) (App.currentUrlsForChat st).
Proof.
  unfold App.currentUrlsForChat at 1. unfold App.activeGroup at 1.
  unfold App.handleRemoveUrl, App.removeUrlUpdater.
  cbn [App.urlGroups App.activeUrlGroupId App.setUrlGroups].
  rewrite find_map_same_id by (intros g; destruct (_ =? _)%string; reflexivity).
  fold (App.activeGroup st). unfold App.currentUrlsForChat.
  destruct (App.activeGroup st) as [g|] eqn:E; cbn [option_map]; [|reflexivity].
  apply activeGroup_some in E. destruct E as [_ Hid]. now rewrite Hid, String.eqb_refl.
Qed.

Lemma removeUrlUpdater_idempotent (activeId url : string) (groups : list URLGroup.t) :
  App.removeUrlUpdater activeId url (App.removeUrlUpdater activeId url groups)
  = App.removeUrlUpdater activeId url groups.
Proof.
  apply remove_absent_groups. intros group Hin Hid.
  unfold App.removeUrlUpdater in Hin. apply in_map_iff in Hin.
  destruct Hin as [g [Hg _]]. subst group.
  destruct (URLGroup.id g =? activeId)%string eqn:E.
  - cbn [App.withUrls URLGroup.urls]. apply hasUrl_filtered.
  - apply String.eqb_neq in E. contradiction.
Qed.

(** X2: after [handleRemoveUrl] the URL list of the active group is the
    old list without its entries for the URL, the other entries in their
    order; no group with the active id holds the URL any more, and the
    list is shorter by the number of entries removed. A second removal
    with the same captured id leaves every group as it is, and the
    removal of a URL that no group with the active id holds leaves every
    group as it is. *)
Theorem X2_handleRemoveUrl_removes_all (url : string) (st : App.State) :
  App.currentUrlsForChat (App.handleRemoveUrl url st)
  = filter (fun item => negb (KnowledgeUrl.url item =? url)%string) (App.currentUrlsForChat st)
  /\ (forall group, In group (App.urlGroups (App.handleRemoveUrl url st)) ->
        URLGroup.id group = App.activeUrlGroupId st ->
        App.hasUrl url (URLGroup.urls group) = false)
  /\ length (App.currentUrlsForChat (App.handleRemoveUrl url st))
     + Store.countUrl url (App.currentUrlsForChat st)
     = length (App.currentUrlsForChat st)
  /\ (forall activeId groups,
        App.removeUrlUpdater activeId url (App.removeUrlUpdater activeId url groups)
        = App.removeUrlUpdater activeId url groups)
  /\ ((forall group, In group (App.urlGroups st) ->
         URLGroup.id group = App.activeUrlGroupId st ->
         App.hasUrl url (URLGroup.urls group) = false) ->
      App.urlGroups (App.handleRemoveUrl url st) = App.urlGroups st).
Proof.
  split; [apply currentUrls_after_remove|]. split; [|split; [|split]].
  - intros group Hin Hid.
    cbn [App.handleRemoveUrl App.urlGroups App.setUrlGroups] in Hin.
    unfold App.removeUrlUpdater in Hin. apply in_map_iff in Hin.
    destruct Hin as [g [Hg _]]. subst group.
    destruct (URLGroup.id g =? App.activeUrlGroupId st)%string eqn:E.
    + cbn [App.withUrls URLGroup.urls]. apply hasUrl_filtered.
    + apply String.eqb_neq in E. contradiction.
  - rewrite currentUrls_after_remove. unfold Store.countUrl.
    induction (App.currentUrlsForChat st) as [|item urls IH]; simpl; [reflexivity|].
    destruct (KnowledgeUrl.url item =? url)%string; simpl; lia.
  - intros activeId groups. apply removeUrlUpdater_idempotent.
  - intros Habsent. now apply remove_absent_groups.
Qed.

(** On the first initial group: a URL that is not there leaves the
    groups, and the removal of the quickstart URL keeps the eight others
    in their order. *)
Lemma X2_handleRemoveUrl_removes_all_witness :
  App.urlGroups (App.handleRemoveUrl Examples.newUrl App.initialState)
  = App.INITIAL_URL_GROUPS
  /\ map KnowledgeUrl.title
       (App.currentUrlsForChat
          (App.handleRemoveUrl "https://ai.google.dev/gemini-api/docs/quickstart"
             App.initialState))
     = map KnowledgeUrl.title
         (filter (fun item =>
                    negb (KnowledgeUrl.url item
                          =? "https://ai.google.dev/gemini-api/docs/quickstart")%string)
            App.GEMINI_DOCS_KNOWLEDGE_URLS).
Proof.
  split.
  - apply (X2_handleRemoveUrl_removes_all Examples.newUrl App.initialState).
    simpl. intros group [H|[H|[]]] Hid; subst group; [reflexivity|discriminate Hid].
  - now rewrite (proj1 (X2_handleRemoveUrl_removes_all
                          "https://ai.google.dev/gemini-api/docs/quickstart"
                          App.initialState)).
Defined.

(** [doc.id === docId] for some document of the list. *)
Lemma hasDoc_filtered (docId : string) (docs : list LocalDocument.t) :
  existsb (fun doc => (LocalDocument.id doc =? docId)%string)
    (filter (fun doc => negb (LocalDocument.id doc =? docId)%string) docs) = false.
Proof.
  induction docs as [|doc docs IH]; simpl; [reflexivity|].
  destruct (LocalDocument.id doc =? docId)%string eqn:E; simpl; [assumption|].
  now rewrite E.
Qed.

Lemma remove_absent_documents (activeId docId : string) (groups : list URLGroup.t) :
  (forall group, In group groups -> URLGroup.id group = activeId ->
     existsb (fun doc => (LocalDocument.id doc =? docId)%string) (URLGroup.documents group)
     = false) ->
  App.removeDocumentUpdater activeId docId groups = groups.
Proof.
  intros H. apply map_fixed. intros g Hin.
  destruct (URLGroup.id g =? activeId)%string eqn:E; [|reflexivity].
  apply String.eqb_eq in E.
  rewrite filter_all; [apply withDocuments_same|].
  intros doc Hdoc. specialize (H g Hin E).
  destruct (LocalDocument.id doc =? docId)%string eqn:D; [|reflexivity].
  assert (existsb (fun doc => (LocalDocument.id doc =? docId)%string) (URLGroup.documents g)
          = true) by (apply existsb_exists; now exists doc).
  congruence.
Qed.

(** The documents of the active group after [handleRemoveDocument]. *)
Lemma currentDocs_after_remove (docId : string) (st : App.State) :
  App.currentDocsForChat (App.handleRemoveDocument docId st)
  = filter (fun doc => negb (LocalDocument.id doc =? docId)%string) (App.currentDocsForChat st).
Proof.
  unfold App.currentDocsForChat at 1. unfold App.activeGroup at 1.
  unfold App.handleRemoveDocument, App.removeDocumentUpdater.
  cbn [App.urlGroups App.activeUrlGroupId App.setUrlGroups].
  rewrite find_map_same_id by (intros g; destruct (_ =? _)%string; reflexivity).
  fold (App.activeGroup st). unfold App.currentDocsForChat.
  destruct (App.activeGroup st) as [g|] eqn:E; cbn [option_map]; [|reflexivity].
  apply activeGroup_some in E. destruct E as [_ Hid]. now rewrite Hid, String.eqb_refl.
Qed.

Lemma removeDocumentUpdater_idempotent (activeId docId : string)
    (groups : list URLGroup.t) :
  App.removeDocumentUpdater activeId docId (App.removeDocumentUpdater activeId docId groups)
  = App.removeDocumentUpdater activeId docId groups.
Proof.
  apply remove_absent_documents. intros group Hin Hid.
  unfold App.removeDocumentUpdater in Hin. apply in_map_iff in Hin.
  destruct Hin as [g [Hg _]]. subst group.
  destruct (URLGroup.id g =? activeId)%string eqn:E.
  - cbn [App.withDocuments URLGroup.documents]. apply hasDoc_filtered.
  - apply String.eqb_neq in E. contradiction.
Qed.

(** X3: after [handleRemoveDocument] the document list of the active
    group is the old list without the documents that have the id, the
    others in their order, so the list never grows. A second removal with
    the same captured id leaves every group as it is, and the removal of
    an id that no document of a group with the active id has leaves
    every group as it is. *)
Theorem X3_handleRemoveDocument_removes_all (docId : string) (st : App.State) :
  App.currentDocsForChat (App.handleRemoveDocument docId st)
  = filter (fun doc => negb (LocalDocument.id doc =? docId)%string) (App.currentDocsForChat st)
  /\ length (App.currentDocsForChat (App.handleRemoveDocument docId st))
     <= length (App.currentDocsForChat st)
  /\ App.currentUrlsForChat (App.handleRemoveDocument docId st) = App.currentUrlsForChat st
  /\ (forall activeId groups,
        App.removeDocumentUpdater activeId docId
          (App.removeDocumentUpdater activeId docId groups)
        = App.removeDocumentUpdater activeId docId groups)
  /\ ((forall group, In group (App.urlGroups st) ->
         URLGroup.id group = App.activeUrlGroupId st ->
         existsb (fun doc => (LocalDocument.id doc =? docId)%string) (URLGroup.documents group)
         = false) ->
      App.urlGroups (App.handleRemoveDocument docId st) = App.urlGroups st).
Proof.
  split; [apply currentDocs_after_remove|]. split; [|split; [|split]].
  - rewrite currentDocs_after_remove. apply filter_length_le.
  - unfold App.currentUrlsForChat at 1. unfold App.activeGroup at 1.
    unfold App.handleRemoveDocument, App.removeDocumentUpdater.
    cbn [App.urlGroups App.activeUrlGroupId App.setUrlGroups].
    rewrite find_map_same_id by (intros g; destruct (_ =? _)%string; reflexivity).
    fold (App.activeGroup st). unfold App.currentUrlsForChat.
    destruct (App.activeGroup st) as [g|]; cbn [option_map]; [|reflexivity].
    now destruct (_ =? _)%string.
  - intros activeId groups. apply removeDocumentUpdater_idempotent.
  - intros Habsent. now apply remove_absent_documents.
Qed.

(** Two files are uploaded to the first initial group; the removal of
    the first document keeps the second, and the removal of an id that is
    not there keeps both. *)
Lemma X3_handleRemoveDocument_removes_all_witness :
  map LocalDocument.id
    (App.currentDocsForChat
       (App.handleRemoveDocument "doc-7-a.docx"
          (App.handleAddDocument (P := Reference.platform) 8
             (Examples.textFile "b.docx" "beta")
             (App.handleAddDocument (P := Reference.platform) 7
                (Examples.textFile "a.docx" "alpha") App.initialState))))
  = ["doc-8-b.docx"]
  /\ map (fun group => map LocalDocument.id (URLGroup.documents group))
       (App.urlGroups
          (App.handleRemoveDocument "doc-9-c.docx"
             (App.handleAddDocument (P := Reference.platform) 8
                (Examples.textFile "b.docx" "beta")
                (App.handleAddDocument (P := Reference.platform) 7
                   (Examples.textFile "a.docx" "alpha") App.initialState))))
     = [["doc-7-a.docx"; "doc-8-b.docx"]; []]%list.
Proof.
  split.
  - now rewrite (proj1 (X3_handleRemoveDocument_removes_all "doc-7-a.docx"
                          (App.handleAddDocument (P := Reference.platform) 8
                             (Examples.textFile "b.docx" "beta")
                             (App.handleAddDocument (P := Reference.platform) 7
                                (Examples.textFile "a.docx" "alpha") App.initialState)))).
  - destruct (X3_handleRemoveDocument_removes_all "doc-9-c.docx"
                (App.handleAddDocument (P := Reference.platform) 8
                   (Examples.textFile "b.docx" "beta")
                   (App.handleAddDocument (P := Reference.platform) 7
                      (Examples.textFile "a.docx" "alpha") App.initialState)))
      as [_ [_ [_ [_ Habsent]]]].
    rewrite Habsent; [reflexivity|].
    intros group Hin Hid. vm_compute in Hin.
    destruct Hin as [H|[H|[]]]; subst group; [reflexivity|discriminate Hid].
Defined.

(* ------------------------------------------------------------------ *)

Section UniqueUrls.
Context {P : Platform}.

Lemma addUrlUpdater_unique (activeId url : string) (groups : list URLGroup.t) :
  Forall uniqueUrls groups -> Forall uniqueUrls (App.addUrlUpdater activeId url groups).
Proof.
  apply Forall_map_keeps. intros g Hg. unfold uniqueUrls in *.
  destruct (URLGroup.id g =? activeId)%string; [|assumption].
  destruct (length (URLGroup.urls g) <? App.MAX_URLS); simpl; [|assumption].
  destruct (App.hasUrl url (URLGroup.urls g)) eqn:Hhas; simpl; [assumption|].
  rewrite map_app. simpl. apply NoDup_app; [assumption|repeat constructor; intros []|].
  intros x Hx [Hx'|[]]. subst x. apply in_map_iff in Hx. destruct Hx as [item [Hitem Hin]].
  pose proof (hasUrl_false url _ Hhas item Hin) as Hne. rewrite Hitem, String.eqb_refl in Hne.
  discriminate.
Qed.

Lemma removeUrlUpdater_unique (activeId url : string) (groups : list URLGroup.t) :
  Forall uniqueUrls groups -> Forall uniqueUrls (App.removeUrlUpdater activeId url groups).
Proof.
  apply Forall_map_keeps. intros g Hg. unfold uniqueUrls in *.
  destruct (URLGroup.id g =? activeId)%string; [|assumption].
  simpl. rewrite map_filter_url. now apply NoDup_filter.
Qed.

Lemma step_unique (st : App.State) (op : Store.Op) :
  Forall uniqueUrls (App.urlGroups st) ->
  Forall uniqueUrls (App.urlGroups (Store.step st op)).
Proof.
  intros H. destruct op; unfold Store.step.
  - now apply addUrlUpdater_unique.
  - now apply removeUrlUpdater_unique.
  - unfold App.handleAddDocument. rewrite handleAddDocument_finish_groups.
    destruct (App.newDocument now file); [|assumption].
    revert H. apply Forall_map_keeps. intros g Hg.
    destruct (_ =? _)%string; [|assumption]. destruct (_ <? _); assumption.
  - revert H. apply Forall_map_keeps. intros g Hg.
    destruct (_ =? _)%string; assumption.
  - assumption.
Qed.

Lemma initial_groups_unique : Forall uniqueUrls App.INITIAL_URL_GROUPS.
Proof.
  unfold App.INITIAL_URL_GROUPS.
  apply Forall_cons; [|apply Forall_cons; [|apply Forall_nil]]; unfold uniqueUrls;
    match goal with
    | |- NoDup ?l =>
        replace l with (nodup string_dec l) by (vm_compute; reflexivity); apply NoDup_nodup
    end.
Qed.

(** X4: no operation of the store makes a URL occur twice in a group:
    groups without a repeated URL stay so under every sequence of
    operations, and so are all the groups that the store reaches from the
    initial ones. *)
Theorem X4_urls_stay_unique (st : App.State) (ops : list Store.Op) :
  Forall uniqueUrls (App.urlGroups (Store.run ops App.initialState))
  /\ (Forall uniqueUrls (App.urlGroups st) ->
      Forall uniqueUrls (App.urlGroups (Store.run ops st)))
  /\ (Forall uniqueUrls (App.urlGroups st) ->
      forall url, Store.countUrl url (App.currentUrlsForChat (Store.run ops st)) <= 1).
Proof.
  assert (forall st', Forall uniqueUrls (App.urlGroups st') ->
            Forall uniqueUrls (App.urlGroups (Store.run ops st'))) as Hrun.
  { induction ops as [|op ops IH]; intros st' H; simpl; [assumption|].
    apply IH. now apply step_unique. }
  split; [apply Hrun, initial_groups_unique|]. split; [apply Hrun|].
  intros Hunique url. specialize (Hrun st Hunique).
  unfold App.currentUrlsForChat.
  destruct (App.activeGroup (Store.run ops st)) as [g|] eqn:E;
    [|unfold Store.countUrl; simpl; lia].
  apply activeGroup_some in E. destruct E as [Hin _].
  rewrite Forall_forall in Hrun. specialize (Hrun g Hin). unfold uniqueUrls in Hrun.
  unfold Store.countUrl. clear Hin.
  induction (URLGroup.urls g) as [|item urls IH]; simpl; [lia|].
  simpl in Hrun. inversion Hrun as [|x l Hnotin Hrest]; subst.
  specialize (IH Hrest).
  destruct (KnowledgeUrl.url item =? url)%string eqn:Eq; simpl; [|lia].
  apply String.eqb_eq in Eq.
  assert (length (filter (fun item0 => (KnowledgeUrl.url item0 =? url)%string) urls) = 0)
    as Hzero.
  { destruct (filter _ urls) as [|other rest] eqn:F; [reflexivity|].
    exfalso. apply Hnotin. assert (In other (filter
      (fun item0 => (KnowledgeUrl.url item0 =? url)%string) urls)) as Hother
      by (rewrite F; now left).
    apply filter_In in Hother. destruct Hother as [Hin Heq]. apply String.eqb_eq in Heq.
    apply in_map_iff. exists other. split; [congruence|assumption]. }
  lia.
Qed.

End UniqueUrls.

(** After three adds of one URL and a removal of another, the first
    initial group holds the new URL at most once. *)
Lemma X4_urls_stay_unique_witness :
  Store.countUrl Examples.newUrl
    (App.currentUrlsForChat
       (Store.run (P := Reference.platform)
          [Store.AddUrl Examples.newUrl; Store.AddUrl Examples.newUrl;
           Store.RemoveUrl "https://ai.google.dev/gemini-api/docs"; Store.AddUrl Examples.newUrl]
          App.initialState)) <= 1.
Proof.
  destruct (X4_urls_stay_unique (P := Reference.platform) App.initialState
              [Store.AddUrl Examples.newUrl; Store.AddUrl Examples.newUrl;
               Store.RemoveUrl "https://ai.google.dev/gemini-api/docs";
               Store.AddUrl Examples.newUrl]) as [_ [_ Hcount]].
  apply Hcount. exact initial_groups_unique.
Defined.

(* ------------------------------------------------------------------ *)

Section DocumentStore.
Context {P : Platform}.

Lemma overflows_false (activeId : string) (groups : list URLGroup.t) :
  (forall group, In group groups -> URLGroup.id group = activeId ->
     length (URLGroup.documents group) < App.MAX_DOCS) ->
  App.addDocumentOverflows activeId groups = false.
Proof.
  intros H. unfold App.addDocumentOverflows.
  destruct (existsb _ groups) eqn:E; [|reflexivity].
  apply existsb_exists in E. destruct E as [g [Hin Hg]].
  apply andb_true_iff in Hg. destruct Hg as [Hid Hfull].
  apply String.eqb_eq in Hid. specialize (H g Hin Hid).
  apply Nat.ltb_lt in H. rewrite H in Hfull. discriminate.
Qed.

(** The documents of the active group after the updater of
    [handleAddDocument]. *)
Lemma currentDocs_after_add (newDoc : LocalDocument.t) (st : App.State) :
  App.currentDocsForChat
    (App.setUrlGroups (App.addDocumentUpdater (App.activeUrlGroupId st) newDoc) st)
  = match App.activeGroup st with
    | Some g =>
        if length (URLGroup.documents g) <? App.MAX_DOCS
        then (URLGroup.documents g ++ [newDoc])%list
        else URLGroup.documents g
    | None => []
    end.
Proof.
  unfold App.currentDocsForChat at 1. unfold App.activeGroup at 1.
  unfold App.addDocumentUpdater.
  cbn [App.urlGroups App.activeUrlGroupId App.setUrlGroups].
  rewrite find_map_same_id.
  2:{ intros g. destruct (_ =? _)%string; [|reflexivity]. destruct (_ <? _); reflexivity. }
  fold (App.activeGroup st).
  destruct (App.activeGroup st) as [g|] eqn:E; cbn [option_map]; [|reflexivity].
  apply activeGroup_some in E. destruct E as [_ Hid]. rewrite Hid, String.eqb_refl.
  destruct (_ <? _); reflexivity.
Qed.

Lemma currentUrls_after_addDocument (newDoc : LocalDocument.t) (st : App.State) :
  App.currentUrlsForChat
    (App.setUrlGroups (App.addDocumentUpdater (App.activeUrlGroupId st) newDoc) st)
  = App.currentUrlsForChat st.
Proof.
  unfold App.currentUrlsForChat at 1. unfold App.activeGroup at 1.
  unfold App.addDocumentUpdater.
  cbn [App.urlGroups App.activeUrlGroupId App.setUrlGroups].
  rewrite find_map_same_id.
  2:{ intros g. destruct (_ =? _)%string; [|reflexivity]. destruct (_ <? _); reflexivity. }
  fold (App.activeGroup st). unfold App.currentUrlsForChat.
  destruct (App.activeGroup st) as [g|]; cbn [option_map]; [|reflexivity].
  destruct (_ =? _)%string; [|reflexivity]. destruct (_ <? _); reflexivity.
Qed.

(** The group found under an id after the updater of [handleAddDocument]
    for that id. *)
Lemma find_after_addDocument (activeId : string) (newDoc : LocalDocument.t)
    (groups : list URLGroup.t) (g : URLGroup.t) :
  find (fun group => (URLGroup.id group =? activeId)%string) groups = Some g ->
  length (URLGroup.documents g) < App.MAX_DOCS ->
  find (fun group => (URLGroup.id group =? activeId)%string)
    (App.addDocumentUpdater activeId newDoc groups)
  = Some (App.withDocuments g (URLGroup.documents g ++ [newDoc])).
Proof.
  intros Hfind Hroom. unfold App.addDocumentUpdater.
  rewrite find_map_same_id.
  2:{ intros x. destruct (_ =? _)%string; [|reflexivity]. destruct (_ <? _); reflexivity. }
  rewrite Hfind. cbn [option_map].
  apply find_some in Hfind. destruct Hfind as [_ Hid]. rewrite Hid.
  apply Nat.ltb_lt in Hroom. now rewrite Hroom.
Qed.

(** The group found under another id is left by the updater. *)
Lemma find_other_after_addDocument (activeId otherId : string) (newDoc : LocalDocument.t)
    (groups : list URLGroup.t) :
  otherId <> activeId ->
  find (fun group => (URLGroup.id group =? otherId)%string)
    (App.addDocumentUpdater activeId newDoc groups)
  = find (fun group => (URLGroup.id group =? otherId)%string) groups.
Proof.
  intros Hother. unfold App.addDocumentUpdater.
  rewrite find_map_same_id.
  2:{ intros x. destruct (_ =? _)%string; [|reflexivity]. destruct (_ <? _); reflexivity. }
  destruct (find _ groups) as [g|] eqn:Hfind; cbn [option_map]; [|reflexivity].
  apply find_some in Hfind. destruct Hfind as [_ Hid]. apply String.eqb_eq in Hid.
  destruct (URLGroup.id g =? activeId)%string eqn:E; [|reflexivity].
  apply String.eqb_eq in E. congruence.
Qed.

(** X5: an upload adds its document to the group that was active when it
    began. When the text of the file is extracted and is not blank, and
    the groups with the captured id have room in the state found when the
    awaits have settled, the end of [handleAddDocument] appends one
    document to the list of the group with the captured id, after the
    documents that are there: its name is the name of the file, its
    content the extracted text as it is, its id is made of the time and
    the name. The groups with another id and the URLs are untouched, the
    document error is left as found and the busy flag is off. The
    document list shown gains the document when the active id is still
    the captured one, and is unchanged when another group has been
    selected meanwhile. *)
Theorem X5_handleAddDocument_appends (activeId : string) (now : N) (file : File.t)
    (st : App.State) (g : URLGroup.t) (text : string) :
  find (fun group => (URLGroup.id group =? activeId)%string) (App.urlGroups st) = Some g ->
  (forall group, In group (App.urlGroups st) ->
     URLGroup.id group = activeId ->
     length (URLGroup.documents group) < App.MAX_DOCS) ->
  App.extractTextContent file = JS.Ok text ->
  JS.trim text <> "" ->
  let newDoc :=
    LocalDocument.mk ("doc-" ++ JS.numberToString now ++ "-" ++ File.name file)
      (File.name file) text in
  let after := App.handleAddDocument_finish activeId now file st in
  find (fun group => (URLGroup.id group =? activeId)%string) (App.urlGroups after)
  = Some (App.withDocuments g (URLGroup.documents g ++ [newDoc]))
  /\ Forall2 (Frame.documentsOnly activeId) (App.urlGroups st) (App.urlGroups after)
  /\ App.activeUrlGroupId after = App.activeUrlGroupId st
  /\ App.docError after = App.docError st
  /\ App.isProcessingDoc after = false
  /\ (App.activeUrlGroupId st = activeId ->
      App.currentDocsForChat after = (URLGroup.documents g ++ [newDoc])%list
      /\ App.currentUrlsForChat after = URLGroup.urls g)
  /\ (App.activeUrlGroupId st <> activeId ->
      App.currentDocsForChat after = App.currentDocsForChat st
      /\ App.currentUrlsForChat after = App.currentUrlsForChat st).
Proof.
  intros Hfind Hroom Htext Hne newDoc after.
  assert (App.newDocument now file = JS.Ok newDoc) as Hnew.
  { unfold App.newDocument. rewrite Htext. simpl. apply isEmpty_false in Hne. now rewrite Hne. }
  pose proof (overflows_false _ _ Hroom) as Hover.
  assert (after = App.setIsProcessingDoc false
                    (App.setUrlGroups (App.addDocumentUpdater activeId newDoc) st)) as Hstate.
  { unfold after, App.handleAddDocument_finish. now rewrite Hnew, Hover. }
  assert (find (fun group => (URLGroup.id group =? activeId)%string) (App.urlGroups after)
          = Some (App.withDocuments g (URLGroup.documents g ++ [newDoc]))) as Hfound.
  { rewrite Hstate. cbn [App.setIsProcessingDoc App.setUrlGroups App.urlGroups].
    apply find_after_addDocument; [exact Hfind|].
    apply find_some in Hfind. destruct Hfind as [Hin Hid]. apply String.eqb_eq in Hid.
    now apply Hroom. }
  split; [exact Hfound|]. split; [apply handleAddDocument_finish_frame|].
  rewrite Hstate. split; [reflexivity|]. split; [reflexivity|]. split; [reflexivity|].
  rewrite <- Hstate. split.
  - intros Hactive.
    assert (App.activeGroup after
            = Some (App.withDocuments g (URLGroup.documents g ++ [newDoc]))) as Hgroup.
    { unfold App.activeGroup. rewrite <- Hfound. rewrite Hstate.
      cbn [App.setIsProcessingDoc App.setUrlGroups App.activeUrlGroupId]. now rewrite Hactive. }
    unfold App.currentDocsForChat, App.currentUrlsForChat. rewrite Hgroup. split; reflexivity.
  - intros Hother.
    assert (App.activeGroup after = App.activeGroup st) as Hgroup.
    { unfold App.activeGroup. rewrite Hstate.
      cbn [App.setIsProcessingDoc App.setUrlGroups App.activeUrlGroupId App.urlGroups].
      now apply find_other_after_addDocument. }
    unfold App.currentDocsForChat, App.currentUrlsForChat. rewrite Hgroup. split; reflexivity.
Qed.

End DocumentStore.

(** The upload of the Word file of the examples begins in the first
    initial group; the second group is selected while the file is read.
    The document goes to the end of the empty list of the first group,
    and the list shown, that of the second group, stays empty. *)
Lemma X5_handleAddDocument_appends_witness :
  find (fun group => (URLGroup.id group =? "gemini-overview")%string)
    (App.urlGroups Scenarios.uploadedAfterSwitch)
  = Some (URLGroup.mk "gemini-overview" "Gemini Docs Overview" App.GEMINI_DOCS_KNOWLEDGE_URLS
            [LocalDocument.mk "doc-7-notes.docx" "notes.docx" "some text"])
  /\ App.currentDocsForChat Scenarios.uploadedAfterSwitch = [].
Proof.
  assert (forall group, In group (App.urlGroups Scenarios.switchedDuringUpload) ->
            URLGroup.id group = "gemini-overview" ->
            length (URLGroup.documents group) < App.MAX_DOCS) as Hroom.
  { simpl. intros group [H|[H|[]]] _; subst group; vm_compute; lia. }
  assert (JS.trim "some text" <> "") as Hne by (vm_compute; discriminate).
  destruct (X5_handleAddDocument_appends (P := Reference.platform) "gemini-overview" 7
              (Examples.textFile "notes.docx" "some text") Scenarios.switchedDuringUpload
              (URLGroup.mk "gemini-overview" "Gemini Docs Overview"
                 App.GEMINI_DOCS_KNOWLEDGE_URLS [])
              "some text" eq_refl Hroom eq_refl Hne) as [Hfound [_ [_ [_ [_ [_ Hshown]]]]]].
  split; [exact Hfound|].
  destruct Hshown as [Hdocs _]; [simpl; discriminate|]. exact Hdocs.
Defined.

Section DocumentRoundTrip.
Context {P : Platform}.

Lemma remove_after_add_document (activeId : string) (newDoc : LocalDocument.t)
    (groups : list URLGroup.t) :
  (forall group, In group groups -> URLGroup.id group = activeId ->
     existsb (fun doc => (LocalDocument.id doc =? LocalDocument.id newDoc)%string)
       (URLGroup.documents group) = false) ->
  App.removeDocumentUpdater activeId (LocalDocument.id newDoc)
    (App.addDocumentUpdater activeId newDoc groups) = groups.
Proof.
  intros Hfresh. unfold App.removeDocumentUpdater, App.addDocumentUpdater.
  rewrite map_map. apply map_fixed. intros g Hin.
  destruct (URLGroup.id g =? activeId)%string eqn:E; [|now rewrite E].
  pose proof E as Hid. apply String.eqb_eq in Hid.
  assert (filter (fun doc => negb (LocalDocument.id doc =? LocalDocument.id newDoc)%string)
            (URLGroup.documents g) = URLGroup.documents g) as Hfilter.
  { apply filter_all. intros doc Hdoc.
    destruct (LocalDocument.id doc =? LocalDocument.id newDoc)%string eqn:D; [|reflexivity].
    assert (existsb (fun doc => (LocalDocument.id doc =? LocalDocument.id newDoc)%string)
              (URLGroup.documents g) = true) by (apply existsb_exists; now exists doc).
    rewrite (Hfresh g Hin Hid) in *. discriminate. }
  destruct (length (URLGroup.documents g) <? App.MAX_DOCS).
  - cbn [App.withDocuments URLGroup.id URLGroup.documents URLGroup.name URLGroup.urls].
    rewrite E. cbn [App.withDocuments URLGroup.id URLGroup.documents URLGroup.name URLGroup.urls].
    rewrite filter_app, Hfilter. simpl. rewrite String.eqb_refl. simpl.
    rewrite app_nil_r. now destruct g.
  - rewrite E, Hfilter. apply withDocuments_same.
Qed.

(** X6: removing the document that an upload has just made, by its id,
    through a handler that captured the active id that the upload
    captured, gives back the groups as they were when the awaits of the
    upload had settled, whether the upload added the document, was
    refused for a full list or failed in the extraction, when no document
    of a group with that id had the id of the document before. A removal
    through a handler that captured another active id leaves the groups
    with the id of the upload as they are, the document included. *)
Theorem X6_add_then_remove_document (activeId : string) (now : N) (file : File.t)
    (st : App.State) :
  (forall group, In group (App.urlGroups st) ->
     URLGroup.id group = activeId ->
     existsb (fun doc =>
                (LocalDocument.id doc
                 =? "doc-" ++ JS.numberToString now ++ "-" ++ File.name file)%string)
       (URLGroup.documents group) = false) ->
  let docId := ("doc-" ++ JS.numberToString now ++ "-" ++ File.name file)%string in
  let uploaded := App.handleAddDocument_finish activeId now file st in
  App.removeDocumentUpdater activeId docId (App.urlGroups uploaded) = App.urlGroups st
  /\ (forall later,
        App.urlGroups later = App.urlGroups uploaded ->
        App.activeUrlGroupId later = activeId ->
        App.urlGroups (App.handleRemoveDocument docId later) = App.urlGroups st)
  /\ (forall later,
        App.urlGroups later = App.urlGroups uploaded ->
        App.activeUrlGroupId later <> activeId ->
        Forall2 (fun before after => URLGroup.id before = activeId -> after = before)
          (App.urlGroups uploaded) (App.urlGroups (App.handleRemoveDocument docId later))).
Proof.
  intros Hfresh docId uploaded.
  assert (App.removeDocumentUpdater activeId docId (App.urlGroups uploaded) = App.urlGroups st)
    as Hback.
  { unfold uploaded. rewrite handleAddDocument_finish_groups.
    destruct (App.newDocument now file) as [doc|e] eqn:Hnew.
    - destruct (newDocument_ok now file doc Hnew) as [text [_ [_ Hdoc]]].
      assert (LocalDocument.id doc = docId) as Hid by (now rewrite Hdoc).
      rewrite <- Hid. apply remove_after_add_document. now rewrite Hid.
    - now apply remove_absent_documents. }
  split; [exact Hback|]. split.
  - intros later Hgroups Hactive.
    cbn [App.handleRemoveDocument App.urlGroups App.setUrlGroups].
    now rewrite Hgroups, Hactive.
  - intros later Hgroups Hother.
    cbn [App.handleRemoveDocument App.urlGroups App.setUrlGroups]. rewrite Hgroups.
    apply Forall2_map_self. intros g _ Hid.
    destruct (URLGroup.id g =? App.activeUrlGroupId later)%string eqn:E; [|reflexivity].
    apply String.eqb_eq in E. congruence.
Qed.

End DocumentRoundTrip.

(** The upload of the Word file and the removal of its document in the
    same group leave the initial groups; after the upload that ended in
    the group left, the removal through the handler of the second group
    does not. *)
Lemma X6_add_then_remove_document_witness :
  App.urlGroups
    (App.handleRemoveDocument "doc-7-Report.DOCX"
       (App.handleAddDocument (P := Reference.platform) 7
          (Examples.textFile "Report.DOCX" "some text") App.initialState))
  = App.INITIAL_URL_GROUPS
  /\ Forall2 (fun before after => URLGroup.id before = "gemini-overview" -> after = before)
       (App.urlGroups Scenarios.uploadedAfterSwitch)
       (App.urlGroups (App.handleRemoveDocument "doc-7-notes.docx" Scenarios.uploadedAfterSwitch)).
Proof.
  split.
  - destruct (X6_add_then_remove_document (P := Reference.platform) "gemini-overview" 7
                (Examples.textFile "Report.DOCX" "some text")
                (App.handleAddDocument_start App.initialState)) as [_ [Hsame _]].
    + simpl. intros group [H|[H|[]]] _; subst group; reflexivity.
    + apply (Hsame (App.handleAddDocument (P := Reference.platform) 7
                      (Examples.textFile "Report.DOCX" "some text") App.initialState));
        reflexivity.
  - destruct (X6_add_then_remove_document (P := Reference.platform) "gemini-overview" 7
                (Examples.textFile "notes.docx" "some text")
                Scenarios.switchedDuringUpload) as [_ [_ Hother]].
    + simpl. intros group [H|[H|[]]] _; subst group; reflexivity.
    + apply (Hother Scenarios.uploadedAfterSwitch); [reflexivity|]. simpl. discriminate.
Defined.

(* ------------------------------------------------------------------ *)

Section Exchange.
Context {P : Platform}.

(** An updater of the URL list and an updater of the document list of the
    groups with one id can be exchanged. *)
Lemma updaters_commute (activeId : string)
    (h : list KnowledgeUrl.t -> list KnowledgeUrl.t)
    (k : list LocalDocument.t -> list LocalDocument.t) (groups : list URLGroup.t) :
  map (fun g => if (URLGroup.id g =? activeId)%string
                then App.withUrls g (h (URLGroup.urls g)) else g)
    (map (fun g => if (URLGroup.id g =? activeId)%string
                   then App.withDocuments g (k (URLGroup.documents g)) else g) groups)
  = map (fun g => if (URLGroup.id g =? activeId)%string
                  then App.withDocuments g (k (URLGroup.documents g)) else g)
      (map (fun g => if (URLGroup.id g =? activeId)%string
                     then App.withUrls g (h (URLGroup.urls g)) else g) groups).
Proof.
  rewrite !map_map. apply map_pointwise. intros g.
  destruct (URLGroup.id g =? activeId)%string eqn:E; simpl; rewrite E; reflexivity.
Qed.

Lemma addUrlUpdater_as_map (activeId url : string) (groups : list URLGroup.t) :
  App.addUrlUpdater activeId url groups
  = map (fun g => if (URLGroup.id g =? activeId)%string
                  then App.withUrls g
                         (if (length (URLGroup.urls g) <? App.MAX_URLS)
                             && negb (App.hasUrl url (URLGroup.urls g))
                          then URLGroup.urls g ++ [KnowledgeUrl.mk url url]
                          else URLGroup.urls g)%list
                  else g) groups.
Proof.
  apply map_pointwise. intros g. destruct (_ =? _)%string; [|reflexivity].
  destruct (_ && _); [reflexivity|]. now rewrite withUrls_same.
Qed.

Lemma addDocumentUpdater_as_map (activeId : string) (newDoc : LocalDocument.t)
    (groups : list URLGroup.t) :
  App.addDocumentUpdater activeId newDoc groups
  = map (fun g => if (URLGroup.id g =? activeId)%string
                  then App.withDocuments g
                         (if length (URLGroup.documents g) <? App.MAX_DOCS
                          then URLGroup.documents g ++ [newDoc]
                          else URLGroup.documents g)%list
                  else g) groups.
Proof.
  apply map_pointwise. intros g. destruct (_ =? _)%string; [|reflexivity].
  destruct (_ <? _); [reflexivity|]. now rewrite withDocuments_same.
Qed.

(** The URL updaters change neither the ids nor the documents, so they
    do not change whether a group with the active id is full. *)
Lemma overflows_after_urls (activeId : string)
    (h : list KnowledgeUrl.t -> list KnowledgeUrl.t) (groups : list URLGroup.t) :
  App.addDocumentOverflows activeId
    (map (fun g => if (URLGroup.id g =? activeId)%string
                   then App.withUrls g (h (URLGroup.urls g)) else g) groups)
  = App.addDocumentOverflows activeId groups.
Proof.
  unfold App.addDocumentOverflows. induction groups as [|g groups IH]; simpl; [reflexivity|].
  rewrite IH. destruct (URLGroup.id g =? activeId)%string eqn:E; simpl; now rewrite E.
Qed.

Lemma handleAddDocument_after_urls (now : N) (file : File.t) (st : App.State)
    (h : list KnowledgeUrl.t -> list KnowledgeUrl.t)
    (upd : list URLGroup.t -> list URLGroup.t) :
  (forall groups,
     upd groups
     = map (fun g => if (URLGroup.id g =? App.activeUrlGroupId st)%string
                     then App.withUrls g (h (URLGroup.urls g)) else g) groups) ->
  App.setUrlGroups upd (App.handleAddDocument now file st)
  = App.handleAddDocument now file (App.setUrlGroups upd st).
Proof.
  intros Hupd.
  unfold App.handleAddDocument, App.handleAddDocument_finish.
  change (App.activeUrlGroupId (App.setUrlGroups upd st)) with (App.activeUrlGroupId st).
  change (App.urlGroups (App.handleAddDocument_start (App.setUrlGroups upd st)))
    with (upd (App.urlGroups st)).
  change (App.urlGroups (App.handleAddDocument_start st)) with (App.urlGroups st).
  destruct (App.newDocument now file) as [doc|e]; [|reflexivity].
  assert (App.addDocumentOverflows (App.activeUrlGroupId st) (upd (App.urlGroups st))
          = App.addDocumentOverflows (App.activeUrlGroupId st) (App.urlGroups st)) as Hover
    by (rewrite Hupd; apply overflows_after_urls).
  rewrite Hover.
  destruct (App.addDocumentOverflows (App.activeUrlGroupId st) (App.urlGroups st));
    apply state_eq; try reflexivity;
    cbn [App.urlGroups App.setUrlGroups App.setDocError App.setIsProcessingDoc
         App.handleAddDocument_start];
    rewrite !Hupd, !addDocumentUpdater_as_map;
    apply (updaters_commute (App.activeUrlGroupId st) h
             (fun docs => if length docs <? App.MAX_DOCS then docs ++ [doc] else docs)%list).
Qed.

(** X7: an operation on the URLs and an operation on the documents give
    the same state in either order: adding or removing a URL can be
    exchanged with an upload (whatever its outcome) and with the removal
    of a document. *)
Theorem X7_url_and_document_operations_commute (url docId : string) (now : N)
    (file : File.t) (st : App.State) :
  App.handleAddUrl url (App.handleAddDocument now file st)
  = App.handleAddDocument now file (App.handleAddUrl url st)
  /\ App.handleRemoveUrl url (App.handleAddDocument now file st)
     = App.handleAddDocument now file (App.handleRemoveUrl url st)
  /\ App.handleAddUrl url (App.handleRemoveDocument docId st)
     = App.handleRemoveDocument docId (App.handleAddUrl url st)
  /\ App.handleRemoveUrl url (App.handleRemoveDocument docId st)
     = App.handleRemoveDocument docId (App.handleRemoveUrl url st).
Proof.
  assert (forall now' file' st',
            App.activeUrlGroupId (App.handleAddDocument now' file' st')
            = App.activeUrlGroupId st') as Hactive.
  { intros now' file' st'. unfold App.handleAddDocument, App.handleAddDocument_finish.
    destruct (App.newDocument now' file'); simpl; [|reflexivity].
    destruct (App.addDocumentOverflows _ _); reflexivity. }
  split; [|split; [|split]].
  - unfold App.handleAddUrl. rewrite Hactive.
    apply (handleAddDocument_after_urls now file st
             (fun urls => if (length urls <? App.MAX_URLS) && negb (App.hasUrl url urls)
                          then urls ++ [KnowledgeUrl.mk url url] else urls)%list).
    intros groups. apply addUrlUpdater_as_map.
  - unfold App.handleRemoveUrl. rewrite Hactive.
    apply (handleAddDocument_after_urls now file st
             (filter (fun item => negb (KnowledgeUrl.url item =? url)%string))).
    reflexivity.
  - apply state_eq; try reflexivity.
    cbn [App.handleAddUrl App.handleRemoveDocument App.urlGroups App.setUrlGroups
         App.activeUrlGroupId].
    rewrite !addUrlUpdater_as_map. unfold App.removeDocumentUpdater.
    apply (updaters_commute (App.activeUrlGroupId st)
             (fun urls => if (length urls <? App.MAX_URLS) && negb (App.hasUrl url urls)
                          then urls ++ [KnowledgeUrl.mk url url] else urls)%list
             (filter (fun doc => negb (LocalDocument.id doc =? docId)%string))).
  - apply state_eq; try reflexivity.
    cbn [App.handleRemoveUrl App.handleRemoveDocument App.urlGroups App.setUrlGroups
         App.activeUrlGroupId].
    unfold App.removeUrlUpdater, App.removeDocumentUpdater.
    apply (updaters_commute (App.activeUrlGroupId st)
             (filter (fun item => negb (KnowledgeUrl.url item =? url)%string))
             (filter (fun doc => negb (LocalDocument.id doc =? docId)%string))).
Qed.

End Exchange.

(* ================================================================== *)
(** ** The ids of the documents *)
(* ================================================================== *)

Lemma string_of_uint_digits (d : Decimal.uint) :
  allDigits (NilEmpty.string_of_uint d) = true.
Proof. unfold allDigits. induction d; simpl; auto. Qed.

(** The decimal text of a number is made of digits. *)
Lemma numberToString_digits (n : N) : allDigits (JS.numberToString n) = true.
Proof.
  unfold JS.numberToString, NilZero.string_of_uint.
  destruct (N.to_uint n); try apply string_of_uint_digits. reflexivity.
Qed.

Lemma numberToString_inj (n m : N) : JS.numberToString n = JS.numberToString m -> n = m.
Proof.
  unfold JS.numberToString. intros H.
  assert (forall k, N.to_uint k <> Decimal.Nil) as Hnonnil.
  { intros [|p]; simpl; [discriminate|apply DecimalPos.Unsigned.to_uint_nonnil]. }
  apply (f_equal NilZero.uint_of_string) in H.
  rewrite !NilZero.usu in H by apply Hnonnil.
  injection H as H. now apply DecimalN.Unsigned.to_uint_inj.
Qed.

(** Two texts made of digits, a hyphen and a rest are equal only when the
    digits and the rests are. *)
Lemma digits_then_hyphen (a b x y : string) :
  allDigits a = true -> allDigits b = true ->
  (a ++ "-" ++ x = b ++ "-" ++ y)%string -> a = b /\ x = y.
Proof.
  unfold allDigits. revert b. induction a as [|c a IH]; intros [|d b] Ha Hb H; simpl in *.
  - injection H as H. auto.
  - injection H as Hc _. subst d. discriminate.
  - injection H as Hc _. subst c. discriminate.
  - injection H as Hc H. subst d.
    apply andb_true_iff in Ha, Hb. destruct Ha as [_ Ha]. destruct Hb as [_ Hb].
    destruct (IH b Ha Hb H) as [-> ->]. auto.
Qed.

(** X8: the id that [handleAddDocument] gives a document tells the time
    and the name of the upload: two documents have the same id exactly
    when they were made at the same millisecond from files of the same
    name. *)
Theorem X8_document_id_tells_time_and_name {P : Platform} (now1 now2 : N)
    (file1 file2 : File.t) (doc1 doc2 : LocalDocument.t) :
  App.newDocument now1 file1 = JS.Ok doc1 ->
  App.newDocument now2 file2 = JS.Ok doc2 ->
  (LocalDocument.id doc1 = LocalDocument.id doc2
   <-> now1 = now2 /\ File.name file1 = File.name file2).
Proof.
  intros H1 H2.
  destruct (newDocument_ok now1 file1 doc1 H1) as [text1 [_ [_ ->]]].
  destruct (newDocument_ok now2 file2 doc2 H2) as [text2 [_ [_ ->]]].
  simpl. split.
  - intros Hid. injection Hid as Hid.
    destruct (digits_then_hyphen _ _ _ _ (numberToString_digits now1)
                (numberToString_digits now2) Hid) as [Hnow Hname].
    split; [now apply numberToString_inj|assumption].
  - intros [-> ->]. reflexivity.
Qed.

(** Two uploads of one file, a millisecond apart, get different ids. *)
Lemma X8_document_id_tells_time_and_name_witness :
  LocalDocument.id (LocalDocument.mk "doc-7-Report.DOCX" "Report.DOCX" "some text")
  <> LocalDocument.id (LocalDocument.mk "doc-8-Report.DOCX" "Report.DOCX" "some text").
Proof.
  intros Hsame.
  apply (X8_document_id_tells_time_and_name (P := Reference.platform) 7 8
           (Examples.textFile "Report.DOCX" "some text")
           (Examples.textFile "Report.DOCX" "some text")
           (LocalDocument.mk "doc-7-Report.DOCX" "Report.DOCX" "some text")
           (LocalDocument.mk "doc-8-Report.DOCX" "Report.DOCX" "some text")
           eq_refl eq_refl) in Hsame.
  destruct Hsame as [Hnow _]. discriminate Hnow.
Defined.

(* ================================================================== *)
(** ** The URL form *)
(* ================================================================== *)

Lemma isEmpty_empty (s : string) : JS.isEmpty s = true -> s = "".
Proof. destruct s; simpl; congruence. Qed.

Section UrlForm.
Context {P : Platform}.

(** X9: the URL form calls [onAddUrl] exactly when the typed text is not
    blank, is accepted by the URL parser, is not in the list and the list
    has room; it then passes the text as typed and clears the input and
    the error. In every other case it makes no call, keeps the input and
    sets an error: the empty-input message for a blank text, whatever the
    list, and the format message for a text that the URL parser refuses. *)
Theorem X9_form_calls_onAddUrl_for_checked_urls (urls : list KnowledgeUrl.t) (maxUrls : nat)
    (kb : KnowledgeBaseManager.State) :
  (forall url,
     snd (KnowledgeBaseManager.handleAddUrl urls maxUrls kb) = Some url
     <-> url = KnowledgeBaseManager.currentUrlInput kb
         /\ JS.trim url <> ""
         /\ KnowledgeBaseManager.isValidUrl url = true
         /\ length urls < maxUrls
         /\ App.hasUrl url urls = false)
  /\ (forall url,
        snd (KnowledgeBaseManager.handleAddUrl urls maxUrls kb) = Some url ->
        fst (KnowledgeBaseManager.handleAddUrl urls maxUrls kb)
        = KnowledgeBaseManager.mkState "" None (KnowledgeBaseManager.urlToDelete kb)
            (KnowledgeBaseManager.docToDelete kb))
  /\ (snd (KnowledgeBaseManager.handleAddUrl urls maxUrls kb) = None ->
      KnowledgeBaseManager.currentUrlInput
        (fst (KnowledgeBaseManager.handleAddUrl urls maxUrls kb))
      = KnowledgeBaseManager.currentUrlInput kb
      /\ exists message,
           KnowledgeBaseManager.urlError
             (fst (KnowledgeBaseManager.handleAddUrl urls maxUrls kb)) = Some message)
  /\ (JS.trim (KnowledgeBaseManager.currentUrlInput kb) = "" ->
      KnowledgeBaseManager.urlError (fst (KnowledgeBaseManager.handleAddUrl urls maxUrls kb))
      = Some KnowledgeBaseManager.emptyUrlMessage)
  /\ (JS.trim (KnowledgeBaseManager.currentUrlInput kb) <> "" ->
      KnowledgeBaseManager.isValidUrl (KnowledgeBaseManager.currentUrlInput kb) = false ->
      KnowledgeBaseManager.urlError (fst (KnowledgeBaseManager.handleAddUrl urls maxUrls kb))
      = Some KnowledgeBaseManager.invalidUrlMessage).
Proof.
  unfold KnowledgeBaseManager.handleAddUrl.
  fold (App.hasUrl (KnowledgeBaseManager.currentUrlInput kb) urls).
  destruct (JS.isEmpty (JS.trim (KnowledgeBaseManager.currentUrlInput kb))) eqn:Hblank.
  { apply isEmpty_empty in Hblank. cbn [fst snd].
    split; [|split; [|split; [|split]]].
    - intros url. split; [discriminate|]. intros [-> [Hne _]]. contradiction.
    - discriminate.
    - intros _. split; [reflexivity|eexists; reflexivity].
    - reflexivity.
    - intros Hne. contradiction. }
  apply isEmpty_false in Hblank.
  destruct (KnowledgeBaseManager.isValidUrl (KnowledgeBaseManager.currentUrlInput kb))
    eqn:Hvalid; cbn [negb].
  2:{ cbn [fst snd]. split; [|split; [|split; [|split]]].
      - intros url. split; [discriminate|]. intros [-> [_ [Hv _]]]. congruence.
      - discriminate.
      - intros _. split; [reflexivity|eexists; reflexivity].
      - intros H. contradiction.
      - reflexivity. }
  destruct (maxUrls <=? length urls) eqn:Hfull.
  { apply Nat.leb_le in Hfull. cbn [fst snd].
    split; [|split; [|split; [|split]]].
    - intros url. split; [discriminate|]. intros [_ [_ [_ [Hlt _]]]]. lia.
    - discriminate.
    - intros _. split; [reflexivity|eexists; reflexivity].
    - intros H. contradiction.
    - intros _ H. discriminate. }
  apply Nat.leb_gt in Hfull.
  destruct (App.hasUrl (KnowledgeBaseManager.currentUrlInput kb) urls) eqn:Hdup.
  { cbn [fst snd]. split; [|split; [|split; [|split]]].
    - intros url. split; [discriminate|]. intros [-> [_ [_ [_ Hno]]]]. congruence.
    - discriminate.
    - intros _. split; [reflexivity|eexists; reflexivity].
    - intros H. contradiction.
    - intros _ H. discriminate. }
  cbn [fst snd]. split; [|split; [|split; [|split]]].
  - intros url. split.
    + intros H. injection H as <-. auto.
    + intros [-> _]. reflexivity.
  - intros url _. reflexivity.
  - discriminate.
  - intros H. contradiction.
  - intros _ H. discriminate.
Qed.

(** X10: a URL that the form accepts reaches the active group: the list
    of the group grows by one entry for it, at the end, with the URL as
    its title, and its documents stay; the input and the error of the form
    are cleared. When no group has the active id the form accepts the URL
    all the same and clears the input, and no group changes. *)
Theorem X10_accepted_url_is_appended (url : string) (st : App.State)
    (kb : KnowledgeBaseManager.State) :
  JS.trim url <> "" ->
  KnowledgeBaseManager.isValidUrl url = true ->
  (forall g, App.activeGroup st = Some g ->
     length (URLGroup.urls g) < App.MAX_URLS ->
     App.hasUrl url (URLGroup.urls g) = false ->
     App.currentUrlsForChat (Page.app (Page.addUrl url (Page.mk st kb)))
     = (URLGroup.urls g ++ [KnowledgeUrl.mk url url])%list
     /\ App.currentDocsForChat (Page.app (Page.addUrl url (Page.mk st kb)))
        = URLGroup.documents g
     /\ KnowledgeBaseManager.currentUrlInput (Page.kb (Page.addUrl url (Page.mk st kb))) = ""
     /\ KnowledgeBaseManager.urlError (Page.kb (Page.addUrl url (Page.mk st kb))) = None)
  /\ (App.activeGroup st = None ->
      App.urlGroups (Page.app (Page.addUrl url (Page.mk st kb))) = App.urlGroups st
      /\ KnowledgeBaseManager.currentUrlInput (Page.kb (Page.addUrl url (Page.mk st kb))) = ""
      /\ KnowledgeBaseManager.urlError (Page.kb (Page.addUrl url (Page.mk st kb))) = None).
Proof.
  intros Hblank Hvalid. apply isEmpty_false in Hblank.
  assert (length (App.currentUrlsForChat st) < App.MAX_URLS ->
          App.hasUrl url (App.currentUrlsForChat st) = false ->
          Page.addUrl url (Page.mk st kb)
          = Page.mk (App.handleAddUrl url st)
              (KnowledgeBaseManager.setUrlError None
                 (KnowledgeBaseManager.setCurrentUrlInput ""
                    (KnowledgeBaseManager.onUrlInputChange url kb)))) as Haccept.
  { intros Hlt Hnew.
    unfold Page.addUrl, Page.typeUrl, Page.submitUrl, KnowledgeBaseManager.handleAddUrl.
    cbn [Page.app Page.kb KnowledgeBaseManager.onUrlInputChange
         KnowledgeBaseManager.currentUrlInput KnowledgeBaseManager.setUrlError
         KnowledgeBaseManager.setCurrentUrlInput].
    rewrite Hblank, Hvalid. cbn [negb].
    apply Nat.leb_gt in Hlt. rewrite Hlt.
    fold (App.hasUrl url (App.currentUrlsForChat st)). now rewrite Hnew. }
  split.
  - intros g Hactive Hlt Hnew.
    assert (App.currentUrlsForChat st = URLGroup.urls g) as Hurls
      by (unfold App.currentUrlsForChat; now rewrite Hactive).
    rewrite Haccept by (rewrite Hurls; assumption). cbn [Page.app Page.kb].
    split; [|split; [|split]]; try reflexivity.
    + rewrite currentUrls_after_add, Hurls, Hnew, Hactive.
      apply Nat.ltb_lt in Hlt. now rewrite Hlt.
    + unfold App.currentDocsForChat at 1. unfold App.activeGroup at 1.
      unfold App.handleAddUrl, App.addUrlUpdater.
      cbn [App.urlGroups App.activeUrlGroupId App.setUrlGroups].
      rewrite find_map_same_id.
      2:{ intros x. destruct (_ =? _)%string; [|reflexivity]. destruct (_ && _); reflexivity. }
      fold (App.activeGroup st). rewrite Hactive. cbn [option_map].
      destruct (_ =? _)%string; [|reflexivity]. destruct (_ && _); reflexivity.
  - intros Hnone.
    assert (App.currentUrlsForChat st = []) as Hurls
      by (unfold App.currentUrlsForChat; now rewrite Hnone).
    rewrite Haccept by (rewrite Hurls; first [reflexivity | unfold App.MAX_URLS; simpl; lia]).
    cbn [Page.app Page.kb]. split; [|split]; try reflexivity.
    apply (updater_without_active _ st Hnone).
Qed.

End UrlForm.

(** The new URL goes to the end of the nine URLs of the first initial
    group. *)
Lemma X10_accepted_url_is_appended_witness :
  App.currentUrlsForChat
    (Page.app (Page.addUrl (P := Reference.platform) Examples.newUrl Page.initialState))
  = (App.GEMINI_DOCS_KNOWLEDGE_URLS ++ [KnowledgeUrl.mk Examples.newUrl Examples.newUrl])%list.
Proof.
  assert (JS.trim Examples.newUrl <> "") as Hne by (vm_compute; discriminate).
  destruct (X10_accepted_url_is_appended (P := Reference.platform) Examples.newUrl
              App.initialState KnowledgeBaseManager.initialState Hne eq_refl) as [Hadd _].
  apply (Hadd (URLGroup.mk "gemini-overview" "Gemini Docs Overview"
                 App.GEMINI_DOCS_KNOWLEDGE_URLS []) eq_refl).
  - vm_compute. lia.
  - reflexivity.
Defined.

(* ================================================================== *)
(** ** The file input and the extraction *)
(* ================================================================== *)

Lemma toLowerCase_app (a b : string) :
  JS.toLowerCase (a ++ b) = (JS.toLowerCase a ++ JS.toLowerCase b)%string.
Proof. induction a as [|c a IH]; simpl; [reflexivity|now rewrite IH]. Qed.

Lemma toLowerCase_length (s : string) : String.length (JS.toLowerCase s) = String.length s.
Proof. induction s as [|c s IH]; simpl; [reflexivity|now rewrite IH]. Qed.

Lemma substring_whole (s : string) : substring 0 (String.length s) s = s.
Proof. induction s as [|c s IH]; simpl; [reflexivity|now rewrite IH]. Qed.

Lemma substring_skip (a b : string) (n : nat) :
  substring (String.length a) n (a ++ b) = substring 0 n b.
Proof. induction a as [|c a IH]; simpl; [reflexivity|exact IH]. Qed.

(** [(a + b).endsWith(b)] *)
Lemma endsWith_app (a b : string) : JS.endsWith (a ++ b) b = true.
Proof.
  unfold JS.endsWith. rewrite append_length.
  replace (String.length a + String.length b - String.length b) with (String.length a) by lia.
  rewrite substring_skip, substring_whole, String.eqb_refl.
  assert ((String.length b <=? String.length a + String.length b) = true) as ->
    by (apply Nat.leb_le; lia).
  reflexivity.
Qed.

Section FileInput.
Context {P : Platform}.

(** X11: the file input and [handleAddDocument] agree on the files they
    take, whatever the case of the letters of the ending: a name that
    ends in [.docx] or [.pdf] written in any mix of capitals is passed on
    and decoded as a Word file or as a PDF; the input passes a file on
    exactly when its lower-cased name has one of the two endings, and for
    such a file, once its bytes are read, the text is what the decoder of
    its kind gives, never the unsupported-type error. *)
Theorem X11_file_input_and_handler_agree (file : File.t) :
  (forall base ending bytes,
     JS.toLowerCase ending = ".docx" ->
     App.isDocx (File.mk (base ++ ending) bytes) = true
     /\ KnowledgeBaseManager.handleFileChange (Some (File.mk (base ++ ending) bytes))
        = KnowledgeBaseManager.CallOnAddDocument (File.mk (base ++ ending) bytes))
  /\ (forall base ending bytes,
        JS.toLowerCase ending = ".pdf" ->
        App.isPdf (File.mk (base ++ ending) bytes) = true
        /\ KnowledgeBaseManager.handleFileChange (Some (File.mk (base ++ ending) bytes))
           = KnowledgeBaseManager.CallOnAddDocument (File.mk (base ++ ending) bytes))
  /\ (KnowledgeBaseManager.handleFileChange (Some file)
      = KnowledgeBaseManager.CallOnAddDocument file
      <-> App.isDocx file = true \/ App.isPdf file = true)
  /\ (forall bytes,
        KnowledgeBaseManager.handleFileChange (Some file)
        = KnowledgeBaseManager.CallOnAddDocument file ->
        File.arrayBuffer file = JS.Ok bytes ->
        App.extractTextContent file
        = if App.isDocx file then mammoth_extractRawText bytes
          else (pdf <- pdfjs_getDocument bytes ;;
                extractedText <- App.extractPages pdf "" ;;
                JS.Ok (JS.trim extractedText))).
Proof.
  assert (KnowledgeBaseManager.handleFileChange (Some file)
          = KnowledgeBaseManager.CallOnAddDocument file
          <-> App.isDocx file = true \/ App.isPdf file = true) as Hiff.
  { unfold KnowledgeBaseManager.handleFileChange, App.isDocx, App.isPdf.
    destruct (JS.endsWith (JS.toLowerCase (File.name file)) ".docx");
      destruct (JS.endsWith (JS.toLowerCase (File.name file)) ".pdf"); simpl;
      split; auto; try discriminate; intros [H|H]; discriminate. }
  split; [|split; [|split; [exact Hiff|]]].
  - intros base ending bytes Hending.
    assert (App.isDocx (File.mk (base ++ ending) bytes) = true) as Hdocx.
    { unfold App.isDocx. cbn [File.name]. rewrite toLowerCase_app, Hending.
      apply endsWith_app. }
    split; [exact Hdocx|].
    unfold KnowledgeBaseManager.handleFileChange. unfold App.isDocx in Hdocx.
    now rewrite Hdocx.
  - intros base ending bytes Hending.
    assert (App.isPdf (File.mk (base ++ ending) bytes) = true) as Hpdf.
    { unfold App.isPdf. cbn [File.name]. rewrite toLowerCase_app, Hending.
      apply endsWith_app. }
    split; [exact Hpdf|].
    unfold KnowledgeBaseManager.handleFileChange. unfold App.isPdf in Hpdf.
    rewrite Hpdf. now rewrite orb_true_r.
  - intros bytes Hpassed Hbytes. apply Hiff in Hpassed.
    unfold App.extractTextContent. rewrite Hbytes. cbn [JS.bind].
    destruct (App.isDocx file); [reflexivity|].
    destruct Hpassed as [H|H]; [discriminate|]. now rewrite H.
Qed.

End FileInput.

(** A Word file and a PDF named in capitals are passed on. *)
Lemma X11_file_input_and_handler_agree_witness :
  KnowledgeBaseManager.handleFileChange (Some (Examples.textFile "Report.DOCX" "some text"))
  = KnowledgeBaseManager.CallOnAddDocument (Examples.textFile "Report.DOCX" "some text")
  /\ App.isPdf (Examples.textFile "Scan.Pdf" "some text") = true.
Proof.
  destruct (X11_file_input_and_handler_agree (P := Reference.platform)
              (Examples.textFile "Report.DOCX" "some text")) as [Hdocx [Hpdf _]].
  split.
  - apply (Hdocx "Report" ".DOCX" (JS.Ok (list_byte_of_string "some text"))). reflexivity.
  - apply (Hpdf "Scan" ".Pdf" (JS.Ok (list_byte_of_string "some text"))). reflexivity.
Defined.

(* ================================================================== *)
(** ** The pages of a PDF *)
(* ================================================================== *)


Lemma extractPages_rejected (before : list (list TextContentItem)) (e : JS.Thrown)
    (rest : PdfDocument) (extractedText : string) :
  App.extractPages (map JS.Ok before ++ JS.Throw e :: rest)%list extractedText = JS.Throw e.
Proof.
  revert extractedText. induction before as [|items before IH]; intros extractedText.
  - reflexivity.
  - cbn [map app App.extractPages JS.bind]. apply IH.
Qed.



Section PdfIngestion.
Context {P : Platform}.



(** X13: when a step of the extraction fails, [handleAddDocument] adds
    nothing and reports that failure: reading the bytes, opening the PDF,
    or loading one page after any number of pages that loaded, whatever
    the pages after it hold. The groups stay as they are, processing has
    ended, and the document error is the message of the error thrown, or
    the read-failure message when the value thrown is not an [Error]. *)
Theorem X13_extraction_failure_is_reported (now : N) (file : File.t) (e : JS.Thrown)
    (st : App.State) :
  (File.arrayBuffer file = JS.Throw e
   \/ (exists bytes,
         File.arrayBuffer file = JS.Ok bytes /\ App.isDocx file = true
         /\ mammoth_extractRawText bytes = JS.Throw e)
   \/ (exists bytes,
         File.arrayBuffer file = JS.Ok bytes /\ App.isDocx file = false
         /\ App.isPdf file = true
         /\ (pdfjs_getDocument bytes = JS.Throw e
             \/ exists before rest,
                  pdfjs_getDocument bytes
                  = JS.Ok (map JS.Ok before ++ JS.Throw e :: rest)%list))) ->
  App.urlGroups (App.handleAddDocument now file st) = App.urlGroups st
  /\ App.docError (App.handleAddDocument now file st)
     = Some match e with
            | JS.ErrorObject message => message
            | JS.OtherValue _ => App.readFailureMessage
            end
  /\ App.isProcessingDoc (App.handleAddDocument now file st) = false.
Proof.
  intros Hfails.
  apply (handleAddDocument_error now file st e).
  unfold App.newDocument, App.extractTextContent.
  destruct Hfails as [Hbytes|[[bytes [Hbytes [Hdocx Hword]]]|[bytes [Hbytes [Hdocx [Hpdf Hdoc]]]]]].
  - now rewrite Hbytes.
  - rewrite Hbytes. cbn [JS.bind]. now rewrite Hdocx, Hword.
  - rewrite Hbytes. cbn [JS.bind]. rewrite Hdocx, Hpdf.
    destruct Hdoc as [Hdoc|[before [rest Hdoc]]]; rewrite Hdoc; [reflexivity|].
    cbn [JS.bind]. now rewrite extractPages_rejected.
Qed.

End PdfIngestion.


(** A file whose bytes cannot be read. *)
Lemma X13_extraction_failure_is_reported_witness :
  App.docError (App.handleAddDocument (P := Reference.platform) 7
                  (File.mk "notes.pdf" (JS.Throw (JS.ErrorObject "The file could not be read.")))
                  App.initialState)
  = Some "The file could not be read.".
Proof.
  apply (X13_extraction_failure_is_reported (P := Reference.platform) 7
           (File.mk "notes.pdf" (JS.Throw (JS.ErrorObject "The file could not be read.")))
           (JS.ErrorObject "The file could not be read.") App.initialState).
  left. reflexivity.
Defined.

(* ================================================================== *)
(** ** Sessions *)
(* ================================================================== *)

Section Sessions.
Context {P : Platform}.

Lemma store_step_chat (st : App.State) (op : Store.Op) :
  App.chatMessages (Store.step st op) = App.chatMessages st
  /\ App.isLoading (Store.step st op) = App.isLoading st
  /\ App.isFetchingSuggestions (Store.step st op) = App.isFetchingSuggestions st.
Proof.
  destruct op; unfold Store.step; try (repeat split; reflexivity).
  unfold App.handleAddDocument, App.handleAddDocument_finish.
  destruct (App.newDocument now file); [|repeat split; reflexivity].
  destruct (App.addDocumentOverflows _ _); repeat split; reflexivity.
Qed.

(** The settled fetch keeps the log or appends one system message. *)
Lemma suggestions_settle_chat (now timestamp : N) (outcome : JS.Result SuggestionsResponse.t)
    (st : App.State) :
  App.isLoading (App.fetchAndSetInitialSuggestions_settle now timestamp outcome st)
  = App.isLoading st
  /\ App.isFetchingSuggestions (App.fetchAndSetInitialSuggestions_settle now timestamp outcome st)
     = false
  /\ (App.chatMessages (App.fetchAndSetInitialSuggestions_settle now timestamp outcome st)
      = App.chatMessages st
      \/ exists idPrefix text,
           App.chatMessages (App.fetchAndSetInitialSuggestions_settle now timestamp outcome st)
           = (App.chatMessages st ++ [App.systemMessage idPrefix now timestamp text])%list).
Proof.
  unfold App.fetchAndSetInitialSuggestions_settle.
  destruct outcome as [response|e].
  - destruct (SuggestionsResponse.text response) as [text|]; [|repeat split; now left].
    destruct (JS.isEmpty text); [repeat split; now left|].
    destruct (App.parseSuggestions text); repeat split; try (now left);
      right; eexists; eexists; reflexivity.
  - repeat split. right. eexists; eexists; reflexivity.
Qed.

Lemma finish_chat (activeId : string) (now : N) (file : File.t) (st : App.State) :
  App.chatMessages (App.handleAddDocument_finish activeId now file st) = App.chatMessages st
  /\ App.isLoading (App.handleAddDocument_finish activeId now file st) = App.isLoading st
  /\ App.isFetchingSuggestions (App.handleAddDocument_finish activeId now file st)
     = App.isFetchingSuggestions st.
Proof.
  unfold App.handleAddDocument_finish.
  destruct (App.newDocument now file); [|repeat split; reflexivity].
  destruct (App.addDocumentOverflows _ _); repeat split; reflexivity.
Qed.

(** The suggestions effect raises [isFetchingSuggestions] exactly when it
    issues the request. *)
Lemma suggestionsEffect_flag (apiKey : option string) (st : App.State) :
  App.isFetchingSuggestions (fst (Effects.suggestionsEffect apiKey st))
  = snd (Effects.suggestionsEffect apiKey st) || App.isFetchingSuggestions st.
Proof.
  unfold Effects.suggestionsEffect, App.fetchAndSetInitialSuggestions_start.
  destruct (_ && JS.truthyStr apiKey); [|reflexivity].
  destruct (_ && _); reflexivity.
Qed.

Lemma called_on_own_render (apiKey : option string) (clock : App.SendClock)
    (query : string) (st : App.State) :
  App.handleSendMessage_called st apiKey clock query st
  = App.handleSendMessage_start apiKey clock query st.
Proof. reflexivity. Qed.

Lemma called_ignored (render : App.State) (apiKey : option string) (clock : App.SendClock)
    (query : string) (st : App.State) :
  JS.trim query = "" \/ App.isLoading render = true
  \/ App.isFetchingSuggestions render = true ->
  App.handleSendMessage_called render apiKey clock query st = (st, App.Ignored).
Proof.
  intros Hguard. unfold App.handleSendMessage_called.
  destruct Hguard as [H|[H|H]]; rewrite H; cbn [JS.isEmpty orb];
    repeat rewrite orb_true_r; reflexivity.
Qed.

Lemma called_accepted (render : App.State) (apiKey : option string) (clock : App.SendClock)
    (query : string) (st : App.State) :
  JS.trim query <> "" ->
  App.isLoading render = false ->
  App.isFetchingSuggestions render = false ->
  JS.truthyStr apiKey = true ->
  App.handleSendMessage_called render apiKey clock query st
  = (App.setChatMessages
       (fun prev => prev ++ [App.userMessage clock query; App.modelPlaceholderMessage clock])%list
       (App.setInitialQuerySuggestions [] (App.setIsLoading true st)),
     App.Requested (App.modelPlaceholderMessage clock)).
Proof.
  intros Hquery Hidle Hfetch Hkey. apply isEmpty_false in Hquery.
  unfold App.handleSendMessage_called. now rewrite Hquery, Hidle, Hfetch, Hkey.
Qed.

Lemma withApp_same (st : Live.State) : Live.withApp (Live.app st) st = st.
Proof. now destruct st. Qed.

Lemma send_ignored (apiKey : option string) (clock : App.SendClock) (query : string)
    (st : Live.State) :
  JS.trim query = "" \/ App.isLoading (Live.rendered st) = true
  \/ App.isFetchingSuggestions (Live.rendered st) = true ->
  Live.step apiKey st (Live.Send clock query) = st.
Proof.
  intros Hguard. cbn [Live.step]. rewrite (called_ignored _ apiKey clock query _ Hguard).
  apply withApp_same.
Qed.

(** An event that is neither a query nor an answer leaves the chat
    requests and [isLoading], and adds to the log only messages that do
    not show as loading. *)
Lemma step_keeps_chat (apiKey : option string) (st : Live.State) (event : Live.Event) :
  match event with Live.Send _ _ | Live.Answer _ _ => False | _ => True end ->
  Live.chatRequests (Live.step apiKey st event) = Live.chatRequests st
  /\ App.isLoading (Live.app (Live.step apiKey st event)) = App.isLoading (Live.app st)
  /\ forall message,
       In message (App.chatMessages (Live.app (Live.step apiKey st event))) ->
       In message (App.chatMessages (Live.app st)) \/ MessageItem.loading message = false.
Proof.
  destruct event as [welcome suggest|clock query|n outcome|now timestamp outcome
                    |url|url|docId|groupId|file|n now]; intros Hother; try contradiction;
    cbn [Live.step].
  - assert (App.isLoading
              match welcome with
              | Some (now, timestamp) => App.welcomeEffect apiKey now timestamp (Live.app st)
              | None => Live.app st
              end = App.isLoading (Live.app st)
            /\ forall message,
                 In message
                   (App.chatMessages
                      match welcome with
                      | Some (now, timestamp) =>
                          App.welcomeEffect apiKey now timestamp (Live.app st)
                      | None => Live.app st
                      end) ->
                 In message (App.chatMessages (Live.app st))
                 \/ MessageItem.loading message = false) as [Hflag Hlog].
    { destruct welcome as [[now timestamp]|]; [|auto].
      split; [reflexivity|]. intros message [<-|[]]. now right. }
    destruct suggest; [|cbn [Live.chatRequests Live.app]; auto].
    match goal with
    | |- context [Effects.suggestionsEffect apiKey ?welcomed] =>
        destruct (suggestionsEffect_cells apiKey welcomed) as [_ [_ [Hchat [Hloading _]]]];
        destruct (Effects.suggestionsEffect apiKey welcomed) as [app' requested]
    end.
    cbn [fst] in Hchat, Hloading. cbn [Live.chatRequests Live.app].
    rewrite Hchat, Hloading. auto.
  - destruct (Live.suggestionFetches st) as [|fetches]; [auto|].
    cbn [Live.chatRequests Live.app].
    destruct (suggestions_settle_chat now timestamp outcome (Live.app st))
      as [Hflag [_ Hlog]].
    split; [reflexivity|]. split; [exact Hflag|].
    destruct Hlog as [->|[idPrefix [text ->]]]; [auto|].
    intros message Hin. apply in_app_iff in Hin as [Hin|[<-|[]]]; [auto|now right].
  - cbn; auto.
  - cbn; auto.
  - cbn; auto.
  - cbn; auto.
  - cbn; auto.
  - destruct (nth_error (Live.uploads st) n) as [[activeId file]|]; [|auto].
    cbn [Live.chatRequests Live.app].
    destruct (finish_chat activeId now file (Live.app st)) as [-> [-> _]]. auto.
Qed.

(** A fetch of suggestions is in flight whenever
    [isFetchingSuggestions] is set. *)
Lemma step_flag_needs_fetch (apiKey : option string) (st : Live.State) (event : Live.Event) :
  (App.isFetchingSuggestions (Live.app st) = true -> 0 < Live.suggestionFetches st) ->
  App.isFetchingSuggestions (Live.app (Live.step apiKey st event)) = true ->
  0 < Live.suggestionFetches (Live.step apiKey st event).
Proof.
  intros Hst.
  destruct event as [welcome suggest|clock query|n outcome|now timestamp outcome
                    |url|url|docId|groupId|file|n now]; cbn [Live.step].
  - assert (App.isFetchingSuggestions
              match welcome with
              | Some (now, timestamp) => App.welcomeEffect apiKey now timestamp (Live.app st)
              | None => Live.app st
              end = App.isFetchingSuggestions (Live.app st)) as Hflag
      by (destruct welcome as [[now timestamp]|]; reflexivity).
    destruct suggest; [|cbn [Live.suggestionFetches Live.app]; now rewrite Hflag].
    match goal with
    | |- context [Effects.suggestionsEffect apiKey ?welcomed] =>
        pose proof (suggestionsEffect_flag apiKey welcomed) as Hraised;
        destruct (Effects.suggestionsEffect apiKey welcomed) as [app' requested]
    end.
    cbn [fst snd] in Hraised. cbn [Live.suggestionFetches Live.app].
    rewrite Hraised, Hflag. destruct requested; [lia|exact Hst].
  - unfold App.handleSendMessage_called.
    destruct (_ || _); [exact Hst|]. destruct (negb _); exact Hst.
  - destruct (nth_error (Live.chatRequests st) n) as [placeholder|]; [|exact Hst].
    cbn [Live.suggestionFetches Live.app]. now destruct outcome.
  - destruct (Live.suggestionFetches st) as [|fetches] eqn:Hcount; [now rewrite Hcount|].
    cbn [Live.suggestionFetches Live.app].
    destruct (suggestions_settle_chat now timestamp outcome (Live.app st)) as [_ [-> _]].
    discriminate.
  - exact Hst.
  - exact Hst.
  - exact Hst.
  - exact Hst.
  - exact Hst.
  - destruct (nth_error (Live.uploads st) n) as [[activeId file]|]; [|exact Hst].
    cbn [Live.suggestionFetches Live.app].
    destruct (finish_chat activeId now file (Live.app st)) as [_ [_ ->]]. exact Hst.
Qed.

Lemma run_flag_needs_fetch (apiKey : option string) (events : list Live.Event)
    (st : Live.State) :
  (App.isFetchingSuggestions (Live.app st) = true -> 0 < Live.suggestionFetches st) ->
  App.isFetchingSuggestions (Live.app (Live.run apiKey events st)) = true ->
  0 < Live.suggestionFetches (Live.run apiKey events st).
Proof.
  unfold Live.run. revert st. induction events as [|event events IH]; intros st Hst;
    [exact Hst|].
  cbn [fold_left]. apply IH. now apply step_flag_needs_fetch.
Qed.

(** A step that keeps the chat requests and the flag, and adds only
    messages that do not show as loading, keeps the agreement. *)
Lemma consistent_extend (st st' : Live.State) :
  Live.chatRequests st' = Live.chatRequests st ->
  App.isLoading (Live.app st') = App.isLoading (Live.app st) ->
  (forall message, In message (App.chatMessages (Live.app st')) ->
     In message (App.chatMessages (Live.app st)) \/ MessageItem.loading message = false) ->
  Live.consistent st -> Live.consistent st'.
Proof.
  intros Hrequests Hflag Hlog. unfold Live.consistent. rewrite Hrequests, Hflag.
  destruct (Live.chatRequests st) as [|placeholder [|second rest]]; [| |auto];
    intros [Hloading Hmessages]; (split; [exact Hloading|]).
  - intros message Hin. destruct (Hlog message Hin) as [Hold|Hnot]; auto.
  - intros message Hin Hshown. destruct (Hlog message Hin) as [Hold|Hnot]; [auto|congruence].
Qed.

Lemma step_consistent (apiKey : option string) (st : Live.State) (event : Live.Event) :
  match event with Live.Send _ _ => Live.current st | _ => True end ->
  Live.consistent st -> Live.consistent (Live.step apiKey st event).
Proof.
  intros Hcurrent Hst.
  destruct event as [welcome suggest|clock query|n outcome|now timestamp outcome
                    |url|url|docId|groupId|file|n now];
    try (match goal with
         | |- Live.consistent (Live.step _ _ ?event) =>
             destruct (step_keeps_chat apiKey st event I) as [Hrequests [Hflag Hlog]];
             exact (consistent_extend _ _ Hrequests Hflag Hlog Hst)
         end).
  - cbn beta iota in Hcurrent. destruct Hcurrent as [Hloading Hfetching]. cbn [Live.step].
    unfold App.handleSendMessage_called. rewrite Hloading.
    destruct (JS.isEmpty (JS.trim query) || App.isLoading (Live.app st)
              || App.isFetchingSuggestions (Live.rendered st)) eqn:Hguard;
      [now rewrite withApp_same|].
    apply orb_false_iff in Hguard as [Hguard _].
    apply orb_false_iff in Hguard as [_ Hidle].
    assert (Live.chatRequests st = []) as Hnone.
    { unfold Live.consistent in Hst.
      destruct (Live.chatRequests st) as [|placeholder [|second rest]];
        [reflexivity| |contradiction].
      destruct Hst as [Hbusy _]. congruence. }
    unfold Live.consistent in Hst. rewrite Hnone in Hst. destruct Hst as [_ Hmessages].
    destruct (negb (JS.truthyStr apiKey)).
    + unfold Live.consistent, Live.withApp. cbn [Live.chatRequests Live.app]. rewrite Hnone.
      split; [exact Hidle|]. intros message Hin.
      apply in_app_iff in Hin as [Hin|[<-|[]]]; [auto|reflexivity].
    + unfold Live.consistent. cbn [Live.chatRequests Live.app]. rewrite Hnone. cbn [app].
      split; [reflexivity|]. intros message Hin Hshown.
      apply in_app_iff in Hin as [Hin|[<-|[<-|[]]]].
      * rewrite (Hmessages message Hin) in Hshown. discriminate.
      * discriminate.
      * reflexivity.
  - cbn [Live.step]. unfold Live.consistent in Hst.
    destruct (Live.chatRequests st) as [|placeholder [|second rest]] eqn:Hrequests;
      [|  |contradiction].
    + destruct n; cbn [nth_error]; unfold Live.consistent; now rewrite Hrequests.
    + destruct n as [|n]; cbn [nth_error].
      2:{ destruct n; cbn [nth_error]; unfold Live.consistent; now rewrite Hrequests. }
      destruct Hst as [_ Hmessages].
      unfold Live.consistent, Live.removeNth. cbn [Live.chatRequests Live.app firstn skipn app].
      split; [now destruct outcome|].
      assert (forall final, MessageItem.loading final = false ->
                forall message,
                  In message (App.replaceById placeholder final
                                (App.chatMessages (Live.app st))) ->
                  MessageItem.loading message = false) as Hreplaced.
      { intros final Hfinal message Hin. unfold App.replaceById in Hin.
        apply in_map_iff in Hin as [msg [Hmsg Hin]].
        destruct (ChatMessage.id msg =? ChatMessage.id placeholder)%string eqn:Hid.
        - now subst message.
        - subst message. destruct (MessageItem.loading msg) eqn:Hshown; [|reflexivity].
          apply (Hmessages msg Hin) in Hshown. apply String.eqb_neq in Hid. contradiction. }
      destruct outcome as [response|e]; apply Hreplaced; reflexivity.
Qed.

Lemma run_consistent (apiKey : option string) (events : list Live.Event) (st : Live.State) :
  Live.sendsAreCurrent apiKey events st ->
  Live.consistent st -> Live.consistent (Live.run apiKey events st).
Proof.
  unfold Live.run. revert st. induction events as [|event events IH]; intros st Hsends Hst;
    [exact Hst|].
  cbn [fold_left]. destruct Hsends as [Hevent Hrest].
  apply IH; [exact Hrest|]. now apply step_consistent.
Qed.

Lemma initial_consistent : Live.consistent Live.initialState.
Proof. split; [reflexivity|]. intros message []. Qed.

(** C4, amended: a query is ignored when its trimmed value is empty and
    when the render that created the handler read [isLoading] or
    [isFetchingSuggestions] as set: the state, and with it the log and
    its length, is what it was, and no request is added. Through every
    run in which each query is sent through a handler whose render read
    the flags as they are then, at most one chat request is in flight,
    and a query sent while one is in flight is ignored. The flags decide,
    not the requests: [isFetchingSuggestions] is set only while a
    suggestion fetch is in flight, and every fetch that settles clears
    it, however many others are in flight. *)
Theorem C4_send_is_ignored (apiKey : option string) (events : list Live.Event)
    (clock : App.SendClock) (query : string) :
  (forall render st,
     JS.trim query = "" \/ App.isLoading render = true
     \/ App.isFetchingSuggestions render = true ->
     App.handleSendMessage_called render apiKey clock query st = (st, App.Ignored))
  /\ (forall st,
        JS.trim query = "" \/ App.isLoading (Live.rendered st) = true
        \/ App.isFetchingSuggestions (Live.rendered st) = true ->
        Live.step apiKey st (Live.Send clock query) = st)
  /\ (Live.sendsAreCurrent apiKey events Live.initialState ->
      length (Live.chatRequests (Live.run apiKey events Live.initialState)) <= 1
      /\ (Live.current (Live.run apiKey events Live.initialState) ->
          Live.chatRequests (Live.run apiKey events Live.initialState) <> [] ->
          Live.step apiKey (Live.run apiKey events Live.initialState) (Live.Send clock query)
          = Live.run apiKey events Live.initialState))
  /\ (App.isFetchingSuggestions (Live.app (Live.run apiKey events Live.initialState)) = true ->
      0 < Live.suggestionFetches (Live.run apiKey events Live.initialState))
  /\ (forall st now timestamp outcome,
        0 < Live.suggestionFetches st ->
        App.isFetchingSuggestions
          (Live.app (Live.step apiKey st (Live.Suggested now timestamp outcome))) = false
        /\ Live.suggestionFetches (Live.step apiKey st (Live.Suggested now timestamp outcome))
           = Live.suggestionFetches st - 1).
Proof.
  split; [intros render st; apply called_ignored|].
  split; [intros st; apply send_ignored|].
  split; [|split;
           [apply run_flag_needs_fetch; cbn; discriminate
           |intros st now timestamp outcome Hfetch; cbn [Live.step];
            destruct (Live.suggestionFetches st) as [|fetches]; [lia|];
            cbn [Live.suggestionFetches Live.app];
            destruct (suggestions_settle_chat now timestamp outcome (Live.app st))
              as [_ [Hcleared _]];
            split; [exact Hcleared|lia]]].
  - intros Hsends.
    pose proof (run_consistent apiKey events Live.initialState Hsends initial_consistent)
      as Hnow.
    unfold Live.consistent in Hnow.
    destruct (Live.chatRequests (Live.run apiKey events Live.initialState))
      as [|placeholder [|second rest]] eqn:Hrequests; [| |contradiction].
    + split; [cbn; lia|]. intros _ Hsome. now contradiction Hsome.
    + split; [cbn; lia|]. intros [Hloading _] _. destruct Hnow as [Hbusy _].
      apply send_ignored. right. left. congruence.
Qed.

(** X14: through every run in which each query is sent through a handler
    whose render read the flags as they are then (queries sent, chat
    requests answered or rejected, URLs, documents and the active group
    changed, uploads begun and ended, renders with their effects,
    suggestion fetches settled, in any order), the loading flag and the
    log agree with the chat request in flight. At most one waits; while
    none waits [isLoading] is false and no message of the log shows the
    loading dots; while one waits [isLoading] is true and only messages
    with the id of its placeholder show them. Two calls of the handler of
    one render break this: both queries are accepted, two requests are in
    flight, and the answer to the first clears [isLoading] while the
    second still waits. *)
Theorem X14_loading_flag_follows_the_request (apiKey : option string)
    (events : list Live.Event) :
  (Live.sendsAreCurrent apiKey events Live.initialState ->
   Live.consistent (Live.run apiKey events Live.initialState)
   /\ (Live.chatRequests (Live.run apiKey events Live.initialState) = [] ->
       forall message,
         In message
           (App.chatMessages (Live.app (Live.run apiKey events Live.initialState))) ->
         MessageItem.bubbleContent message <> MessageItem.LoadingDots))
  /\ (forall st clock1 query1 clock2 query2 outcome,
        JS.truthyStr apiKey = true ->
        JS.trim query1 <> "" -> JS.trim query2 <> "" ->
        App.isLoading (Live.rendered st) = false ->
        App.isFetchingSuggestions (Live.rendered st) = false ->
        let twice :=
          Live.step apiKey (Live.step apiKey st (Live.Send clock1 query1))
            (Live.Send clock2 query2) in
        Live.chatRequests twice
        = (Live.chatRequests st
           ++ [App.modelPlaceholderMessage clock1; App.modelPlaceholderMessage clock2])%list
        /\ (Live.chatRequests st = [] ->
            Live.chatRequests (Live.step apiKey twice (Live.Answer 0 outcome))
            = [App.modelPlaceholderMessage clock2]
            /\ App.isLoading (Live.app (Live.step apiKey twice (Live.Answer 0 outcome)))
               = false)).
Proof.
  split.
  - intros Hsends.
    pose proof (run_consistent apiKey events Live.initialState Hsends initial_consistent)
      as Hnow.
    split; [exact Hnow|]. intros Hnone message Hin.
    unfold Live.consistent in Hnow. rewrite Hnone in Hnow. destruct Hnow as [_ Hmessages].
    unfold MessageItem.bubbleContent, MessageItem.renderMessageContent.
    rewrite (Hmessages message Hin). now destruct (MessageItem.isModel message && _).
  - intros st clock1 query1 clock2 query2 outcome Hkey Hquery1 Hquery2 Hidle Hfetch twice.
    assert (Live.chatRequests twice
            = (Live.chatRequests st
               ++ [App.modelPlaceholderMessage clock1; App.modelPlaceholderMessage clock2])%list)
      as Hrequests.
    { unfold twice. cbn [Live.step].
      rewrite (called_accepted _ apiKey clock1 query1 _ Hquery1 Hidle Hfetch Hkey).
      cbn [Live.rendered Live.app Live.chatRequests].
      rewrite (called_accepted _ apiKey clock2 query2 _ Hquery2 Hidle Hfetch Hkey).
      cbn [Live.chatRequests]. now rewrite <- app_assoc. }
    split; [exact Hrequests|]. intros Hnone. rewrite Hnone in Hrequests.
    cbn [app] in Hrequests. cbn [Live.step]. rewrite Hrequests. cbn [nth_error].
    unfold Live.removeNth. cbn [Live.chatRequests Live.app firstn skipn app].
    split; [reflexivity|now destruct outcome].
Qed.

Lemma settle_keeps_other_ids (placeholder final : ChatMessage.t) (log : list ChatMessage.t) :
  (forall message, In message log -> ChatMessage.id message <> ChatMessage.id placeholder) ->
  App.replaceById placeholder final log = log.
Proof.
  intros Hother. unfold App.replaceById. apply map_fixed. intros message Hin.
  apply Hother, String.eqb_neq in Hin. now rewrite Hin.
Qed.

(** X15: an answer that arrives after the log was reset is dropped. When
    the welcome effect ran while a request was in flight (the user
    switched the group or changed its URLs or documents), settling the
    request, with an answer or with an error, leaves the log as the one
    welcome message: neither the answer nor the error is ever shown, and
    [isLoading] is false again. On every log the settled request keeps
    the length and, at its position, every message whose id is not the
    id of its placeholder; a message with that id becomes the final
    message. *)
Theorem X15_answer_after_reset_is_dropped (apiKey : option string) (clock : App.SendClock)
    (now timestamp : N) (outcome : JS.Result GenerateResponse.t) (st : App.State) :
  let reset := App.welcomeEffect apiKey now timestamp st in
  let settled := App.handleSendMessage_settle (App.modelPlaceholderMessage clock) outcome reset in
  App.chatMessages settled = App.chatMessages reset
  /\ length (App.chatMessages settled) = 1
  /\ Forall (fun message => ChatMessage.sender message = SYSTEM) (App.chatMessages settled)
  /\ App.isLoading settled = false
  /\ (forall placeholder st',
        replacedInPlace (ChatMessage.id placeholder)
          match outcome with
          | JS.Ok response => App.resolvedMessage placeholder response
          | JS.Throw e => App.failedMessage placeholder e
          end
          (App.chatMessages st')
          (App.chatMessages (App.handleSendMessage_settle placeholder outcome st'))).
Proof.
  intros reset settled.
  assert (App.chatMessages settled = App.chatMessages reset) as Hlog.
  { unfold settled, App.handleSendMessage_settle.
    destruct outcome as [response|e]; cbn [App.setIsLoading App.setChatMessages App.chatMessages];
      apply settle_keeps_other_ids; intros message [<-|[]]; discriminate. }
  split; [exact Hlog|]. rewrite Hlog.
  split; [reflexivity|]. split; [now repeat constructor|]. split; [now destruct outcome|].
  intros placeholder st'. unfold App.handleSendMessage_settle.
  destruct outcome as [response|e]; cbn [App.setIsLoading App.setChatMessages App.chatMessages];
    apply replaceById_in_place.
Qed.

Lemma step_without_key (apiKey : option string) (st : Session.State) (event : Session.Event) :
  JS.truthyStr apiKey = false ->
  Session.readsKey apiKey event ->
  Session.pending st = None ->
  App.isLoading (Session.app st) = false ->
  App.isFetchingSuggestions (Session.app st) = false ->
  Forall (fun message => ChatMessage.sender message = SYSTEM) (App.chatMessages (Session.app st)) ->
  Session.pending (Session.step st event) = None
  /\ App.isLoading (Session.app (Session.step st event)) = false
  /\ App.isFetchingSuggestions (Session.app (Session.step st event)) = false
  /\ Forall (fun message => ChatMessage.sender message = SYSTEM)
       (App.chatMessages (Session.app (Session.step st event))).
Proof.
  intros Hkey Hreads. destruct st as [app pending].
  cbn [Session.pending Session.app]. intros -> Hidle Hfetch Hlog.
  destruct event as [key clock query|outcome|op|key now timestamp|key
                    |now timestamp outcome]; cbn [Session.readsKey] in Hreads;
    try subst key; cbn [Session.step Session.app Session.pending].
  - unfold App.handleSendMessage_start. rewrite Hkey.
    destruct (_ || _); cbn [negb Session.pending Session.app]; [auto|].
    repeat split; auto. cbn [App.setChatMessages App.chatMessages].
    apply Forall_app. split; [exact Hlog|now repeat constructor].
  - auto.
  - destruct (store_step_chat app op) as [-> [-> ->]]. auto.
  - repeat split; auto. now repeat constructor.
  - unfold Effects.suggestionsEffect. rewrite Hkey, andb_false_r. auto.
  - destruct (suggestions_settle_chat now timestamp outcome app) as [-> [-> Hsettled]].
    repeat split; auto.
    destruct Hsettled as [->|[idPrefix [text ->]]]; [exact Hlog|].
    apply Forall_app. split; [exact Hlog|now repeat constructor].
Qed.

(** X16: without an API key ([process.env.API_KEY] undefined or empty) the
    service is never asked. Through any events, from the initial state, no
    chat request becomes pending, [isLoading] and [isFetchingSuggestions]
    stay false, and the log holds system messages only: a query that is
    then sent is not recorded as a user message, the log gains the one
    message that the key is not configured, and the suggestions stay as
    they were. *)
Theorem X16_without_key_nothing_is_requested (apiKey : option string)
    (events : list Session.Event)
    (Hkey : JS.truthyStr apiKey = false)
    (Hreads : Forall (Session.readsKey apiKey) events) :
  let st := Session.run events Session.initialState in
  Session.pending st = None
  /\ App.isLoading (Session.app st) = false
  /\ App.isFetchingSuggestions (Session.app st) = false
  /\ Forall (fun message => ChatMessage.sender message = SYSTEM) (App.chatMessages (Session.app st))
  /\ (forall clock query outcome,
        JS.trim query <> "" ->
        App.chatMessages (App.handleSendMessage apiKey clock query outcome (Session.app st))
        = (App.chatMessages (Session.app st)
           ++ [App.apiKeyErrorMessage (App.userIdNow clock) (App.userTimestamp clock)])%list
        /\ App.initialQuerySuggestions
             (App.handleSendMessage apiKey clock query outcome (Session.app st))
           = App.initialQuerySuggestions (Session.app st)).
Proof.
  intros st.
  assert (forall st0,
            Session.pending st0 = None ->
            App.isLoading (Session.app st0) = false ->
            App.isFetchingSuggestions (Session.app st0) = false ->
            Forall (fun message => ChatMessage.sender message = SYSTEM)
              (App.chatMessages (Session.app st0)) ->
            Session.pending (Session.run events st0) = None
            /\ App.isLoading (Session.app (Session.run events st0)) = false
            /\ App.isFetchingSuggestions (Session.app (Session.run events st0)) = false
            /\ Forall (fun message => ChatMessage.sender message = SYSTEM)
                 (App.chatMessages (Session.app (Session.run events st0)))) as Hrun.
  { unfold Session.run. induction Hreads as [|event events Hevent _ IH]; intros st0 H1 H2 H3 H4;
      [auto|].
    cbn [fold_left].
    destruct (step_without_key apiKey st0 event Hkey Hevent H1 H2 H3 H4) as [H1' [H2' [H3' H4']]].
    now apply IH. }
  destruct (Hrun Session.initialState eq_refl eq_refl eq_refl (Forall_nil _))
    as [Hpending [Hidle [Hfetch Hlog]]].
  fold st in Hpending, Hidle, Hfetch, Hlog.
  repeat (split; [assumption|]).
  intros clock query outcome Hquery. apply isEmpty_false in Hquery.
  unfold App.handleSendMessage, App.handleSendMessage_start.
  rewrite Hquery, Hidle, Hfetch, Hkey. split; reflexivity.
Qed.

End Sessions.

(** C4, as stated, fails for the suggestion fetch. The component fetches
    suggestions when it is mounted; a URL is added before the answer, and
    a second fetch starts; the answer to the first fetch clears
    [isFetchingSuggestions]. One fetch is still in flight, and the query
    that is sent then, through the handler of the render that followed,
    is accepted: it adds two messages to the log and its placeholder
    waits for the answer. *)
Lemma C4_query_accepted_during_fetch :
  Live.suggestionFetches Scenarios.secondFetchPending = 1
  /\ Live.chatRequests Scenarios.secondFetchPending = []
  /\ Live.rendered Scenarios.secondFetchPending = Live.app Scenarios.secondFetchPending
  /\ Live.chatRequests
       (Live.step (P := Reference.platform) (Some "key") Scenarios.secondFetchPending
          (Live.Send Examples.scenarioClock "What is x?"))
     = [App.modelPlaceholderMessage Examples.scenarioClock]
  /\ length
       (App.chatMessages
          (Live.app
             (Live.step (P := Reference.platform) (Some "key") Scenarios.secondFetchPending
                (Live.Send Examples.scenarioClock "What is x?"))))
     = length (App.chatMessages (Live.app Scenarios.secondFetchPending)) + 2.
Proof. vm_compute. repeat split. Qed.

(** After a query that waits for its answer, and the render that
    follows, a second query is ignored. *)
Lemma C4_send_is_ignored_witness :
  Live.step (P := Reference.platform) (Some "key")
    (Live.run (P := Reference.platform) (Some "key") Scenarios.oneQuery Live.initialState)
    (Live.Send Examples.scenarioClock "And what is y?")
  = Live.run (P := Reference.platform) (Some "key") Scenarios.oneQuery Live.initialState.
Proof.
  destruct (C4_send_is_ignored (P := Reference.platform) (Some "key") Scenarios.oneQuery
              Examples.scenarioClock "And what is y?") as [_ [_ [Hsingle _]]].
  destruct Hsingle as [_ Hignored].
  - vm_compute. repeat split.
  - apply Hignored.
    + vm_compute. split; reflexivity.
    + vm_compute. discriminate.
Defined.

(** The run of one query keeps the agreement: its placeholder is the one
    request in flight. *)
Lemma X14_loading_flag_follows_the_request_witness :
  Live.consistent
    (Live.run (P := Reference.platform) (Some "key") Scenarios.oneQuery Live.initialState).
Proof.
  apply (X14_loading_flag_follows_the_request (P := Reference.platform) (Some "key")
           Scenarios.oneQuery).
  vm_compute. repeat split.
Defined.

(** With an empty key, a query sent after a change of group. *)
Lemma X16_without_key_nothing_is_requested_witness :
  App.isLoading
    (Session.app
       (Session.run (P := Reference.platform)
          [Session.Change (Store.SetActiveGroup "model-capabilities");
           Session.Welcome (Some "") 5 5; Session.Suggest (Some "");
           Session.Send (Some "") Examples.scenarioClock "What is x?"]
          Session.initialState)) = false.
Proof.
  assert (Forall (Session.readsKey (Some ""))
            [Session.Change (Store.SetActiveGroup "model-capabilities");
             Session.Welcome (Some "") 5 5; Session.Suggest (Some "");
             Session.Send (Some "") Examples.scenarioClock "What is x?"]) as Hreads
    by (repeat constructor).
  exact (proj1 (proj2 (X16_without_key_nothing_is_requested (P := Reference.platform)
                         (Some "") _ eq_refl Hreads))).
Defined.

(* ================================================================== *)
(** ** The suggestions effect *)
(* ================================================================== *)

Section SuggestionsEffect.
Context {P : Platform}.

(** X17: the suggestions effect asks the service for suggestions exactly
    when the active group has a URL or a document and the API key is set.
    In every case it empties the suggestions shown and leaves the log and
    the groups alone; [isFetchingSuggestions] is raised exactly when the
    request is issued, so the early return of
    [fetchAndSetInitialSuggestions] for an empty knowledge base is never
    taken from here. With an active id that names no group, nothing is
    requested. *)
Theorem X17_suggestions_requested_iff (apiKey : option string) (st : App.State) :
  let after := fst (Effects.suggestionsEffect apiKey st) in
  let requested := snd (Effects.suggestionsEffect apiKey st) in
  (requested = true
   <-> (App.currentUrlsForChat st <> [] \/ App.currentDocsForChat st <> [])
       /\ apiKey <> None /\ apiKey <> Some "")
  /\ App.initialQuerySuggestions after = []
  /\ App.isFetchingSuggestions after = requested || App.isFetchingSuggestions st
  /\ App.chatMessages after = App.chatMessages st
  /\ App.urlGroups after = App.urlGroups st
  /\ App.isLoading after = App.isLoading st
  /\ (App.activeGroup st = None -> requested = false).
Proof.
  intros after requested. subst after requested.
  unfold Effects.suggestionsEffect, App.fetchAndSetInitialSuggestions_start.
  rewrite length_map.
  assert (JS.truthyStr apiKey = true <-> apiKey <> None /\ apiKey <> Some "") as Hkey.
  { destruct apiKey as [[|c key]|]; simpl; split; try discriminate; try tauto;
      try (intros [H1 H2]; congruence); intros _; split; discriminate. }
  assert (App.activeGroup st = None ->
          App.currentUrlsForChat st = [] /\ App.currentDocsForChat st = []) as Hnone.
  { unfold App.currentUrlsForChat, App.currentDocsForChat. now intros ->. }
  destruct (App.currentUrlsForChat st) as [|item urls];
    destruct (App.currentDocsForChat st) as [|doc docs];
    destruct (JS.truthyStr apiKey) eqn:Htruthy; cbn -[App.activeGroup];
    repeat split; try discriminate; try tauto; try reflexivity;
    try (intros _; apply Hkey; reflexivity);
    try (intros [_ H]; apply Hkey in H; discriminate);
    try (intros H; apply Hnone in H; destruct H; discriminate);
    first [right; discriminate | left; discriminate].
Qed.

End SuggestionsEffect.

(* ================================================================== *)
(** ** What the fence pattern matches *)
(* ================================================================== *)

Section Completeness.
Context {A : Type}.

Lemma greedyStar_complete (p : ascii -> bool) (k : string -> option A) (s : string) :
  k s <> None -> FenceRegex.greedyStar p k s <> None.
Proof.
  intros Hk. destruct s as [|c s]; [exact Hk|]. cbn [FenceRegex.greedyStar].
  destruct (p c); [|exact Hk]. now destruct (FenceRegex.greedyStar p k s).
Qed.

Lemma optional_complete (p : ascii -> bool) (k : string -> option A) (s : string) :
  k s <> None -> FenceRegex.optional p k s <> None.
Proof.
  intros Hk. destruct s as [|c s]; [exact Hk|]. cbn [FenceRegex.optional].
  destruct (p c); [|exact Hk]. now destruct (k s).
Qed.

Lemma lazyAny_complete (k : string -> string -> option A) (a b captured : string) :
  k (captured ++ a)%string b <> None -> FenceRegex.lazyAny k captured (a ++ b) <> None.
Proof.
  revert captured. induction a as [|c a IH]; intros captured Hk.
  - rewrite append_empty_r in Hk. cbn [append].
    destruct b; cbn [FenceRegex.lazyAny]; now destruct (k captured _).
  - cbn [append FenceRegex.lazyAny]. destruct (k captured (String c (a ++ b))); [discriminate|].
    apply IH. now rewrite append_assoc.
Qed.

Lemma literal_app (lit : string) (k : string -> option A) (r : string) :
  FenceRegex.literal lit k (lit ++ r) = k r.
Proof.
  induction lit as [|c lit IH]; [reflexivity|].
  cbn [append FenceRegex.literal]. now rewrite Ascii.eqb_refl.
Qed.

End Completeness.

(** X18: the fence pattern of [fetchAndSetInitialSuggestions] matches a
    string exactly when the string starts with three backquotes and ends
    with three more: everything between the two fences is optional. The
    second group of a match is a part of the string between the fences,
    after a run of word characters and white space and before a run of
    white space. *)
Theorem X18_fence_pattern_matches (s : string) :
  (FenceRegex.exec s <> None
   <-> exists middle, s = ("```" ++ middle ++ "```")%string)
  /\ (forall captured,
        FenceRegex.exec s = Some captured ->
        exists before after,
          s = ("```" ++ before ++ captured ++ after ++ "```")%string
          /\ JS.allChars (fun c => JS.isWordChar c || JS.isSpace c) before = true
          /\ JS.allChars JS.isSpace after = true).
Proof.
  assert (forall captured,
            FenceRegex.exec s = Some captured ->
            exists before after,
              s = ("```" ++ before ++ captured ++ after ++ "```")%string
              /\ JS.allChars (fun c => JS.isWordChar c || JS.isSpace c) before = true
              /\ JS.allChars JS.isSpace after = true) as Hsound.
  { intros captured Hexec.
    destruct (exec_sound s captured Hexec) as [tag [blanks1 [blanks2 [-> [Htag [H1 H2]]]]]].
    exists (tag ++ blanks1)%string, blanks2. unfold fenced. rewrite !append_assoc.
    split; [reflexivity|]. split; [|exact H2].
    rewrite allChars_app. apply andb_true_iff. split.
    - clear -Htag. induction tag as [|c tag IH]; [reflexivity|].
      cbn [JS.allChars] in *. apply andb_true_iff in Htag as [Hc Htag].
      now rewrite Hc, (IH Htag).
    - clear -H1. induction blanks1 as [|c blanks IH]; [reflexivity|].
      cbn [JS.allChars] in *. apply andb_true_iff in H1 as [Hc H1].
      now rewrite Hc, orb_true_r, (IH H1). }
  split; [|exact Hsound]. split.
  - destruct (FenceRegex.exec s) as [captured|] eqn:Hexec; [intros _|congruence].
    destruct (Hsound captured eq_refl) as [before [after [-> _]]].
    exists (before ++ captured ++ after)%string. now rewrite !append_assoc.
  - intros [middle ->]. unfold FenceRegex.exec.
    change "```"%string with FenceRegex.fence. rewrite literal_app.
    apply greedyStar_complete, greedyStar_complete, optional_complete, lazyAny_complete.
    cbn [append]. change (FenceRegex.closing middle ("" ++ FenceRegex.fence) <> None).
    now rewrite (closing_complete middle "" eq_refl).
Qed.

(* ================================================================== *)
(** ** How the messages are shown *)
(* ================================================================== *)

Lemma orElse_empty (s : string) : JS.orElse (Some s) "" = s.
Proof. now destruct s. Qed.

(** X19: what the bubble of a message shows. A message that is loading
    shows the dots, whoever sent it. Only a settled message of the model
    goes through [marked.parse] and is inserted as HTML: the query of the
    user, the welcome and API-key messages and the error text of a failed
    request are shown as plain text. The placeholder shows the dots, the
    answer is rendered from the text of the response (or from the
    empty-response text), and a failed request lists no URL context. *)
Theorem X19_only_model_answers_are_markup (message : ChatMessage.t) (clock : App.SendClock)
    (query : string) (response : GenerateResponse.t) (e : JS.Thrown) :
  (MessageItem.loading message = true ->
   MessageItem.bubbleContent message = MessageItem.LoadingDots)
  /\ (forall source,
        MessageItem.bubbleContent message = MessageItem.Markdown source ->
        ChatMessage.sender message = MODEL /\ MessageItem.loading message = false
        /\ source = ChatMessage.text message)
  /\ (ChatMessage.sender message = MODEL -> MessageItem.loading message = false ->
      MessageItem.bubbleContent message = MessageItem.Markdown (ChatMessage.text message))
  /\ MessageItem.bubbleContent (App.userMessage clock query) = MessageItem.PlainText query
  /\ MessageItem.bubbleContent (App.modelPlaceholderMessage clock) = MessageItem.LoadingDots
  /\ MessageItem.bubbleContent (App.resolvedMessage (App.modelPlaceholderMessage clock) response)
     = MessageItem.Markdown (JS.orElse (GenerateResponse.text response) App.emptyResponseMessage)
  /\ MessageItem.bubbleContent (App.failedMessage (App.modelPlaceholderMessage clock) e)
     = MessageItem.PlainText ("Error: " ++ App.failureReason e)
  /\ MessageItem.urlContextRows (App.failedMessage (App.modelPlaceholderMessage clock) e) = None
  /\ MessageItem.bubbleContent
       (App.apiKeyErrorMessage (App.userIdNow clock) (App.userTimestamp clock))
     = MessageItem.PlainText App.missingKeyMessage.
Proof.
  unfold MessageItem.bubbleContent, MessageItem.renderMessageContent, MessageItem.isModel.
  split; [now intros ->|]. split; [|split].
  - intros source. destruct (MessageItem.loading message); [discriminate|].
    destruct (ChatMessage.sender message); cbn [andb negb]; try discriminate.
    rewrite orElse_empty. intros H. injection H as <-. auto.
  - intros -> ->. cbn [andb negb]. now rewrite orElse_empty.
  - repeat split. cbn [App.resolvedMessage MessageItem.loading ChatMessage.isLoading
                       ChatMessage.sender ChatMessage.text App.modelPlaceholderMessage
                       andb negb].
    now rewrite orElse_empty.
Qed.

Lemma substring_after (a b : string) :
  substring (String.length a) (String.length (a ++ b) - String.length a) (a ++ b) = b.
Proof.
  rewrite append_length.
  replace (String.length a + String.length b - String.length a) with (String.length b) by lia.
  now rewrite substring_skip, substring_whole.
Qed.

Lemma prefix_app (a b : string) : String.prefix a (a ++ b) = true.
Proof.
  induction a as [|c a IH]; [now destruct b|].
  cbn [append String.prefix]. destruct (ascii_dec c c); [exact IH|contradiction].
Qed.

(** X20: the label of a retrieved URL is its status without the prefix
    [URL_RETRIEVAL_STATUS_]: a status that starts with the prefix is shown
    as what follows it, and only the first occurrence is removed; a status
    in which the prefix does not occur is shown as it is. The success
    highlight is on exactly for the status [URL_RETRIEVAL_STATUS_SUCCESS],
    whose label is [SUCCESS]. The list has one row per item, in the order
    of the response, and only a message of the model with at least one
    item has a list. *)
Theorem X20_status_labels (url rest : string) (message : ChatMessage.t) :
  MessageItem.statusText
    (UrlContextMetadataItem.mk url (MessageItem.statusPrefix ++ rest)) = rest
  /\ (forall status,
        String.index 0 MessageItem.statusPrefix status = None ->
        MessageItem.statusText (UrlContextMetadataItem.mk url status) = status)
  /\ (forall status,
        MessageItem.isSuccess (UrlContextMetadataItem.mk url status) = true
        <-> status = "URL_RETRIEVAL_STATUS_SUCCESS")
  /\ (forall status,
        MessageItem.isSuccess (UrlContextMetadataItem.mk url status) = true ->
        MessageItem.statusText (UrlContextMetadataItem.mk url status) = "SUCCESS")
  /\ (forall rows,
        MessageItem.urlContextRows message = Some rows ->
        ChatMessage.sender message = MODEL
        /\ rows <> []
        /\ exists items,
             ChatMessage.urlContext message = Some items
             /\ map (fun row => fst (fst row)) rows
                = map UrlContextMetadataItem.retrievedUrl items
             /\ map (fun row => snd (fst row)) rows = map MessageItem.statusText items
             /\ map snd rows = map MessageItem.isSuccess items).
Proof.
  assert (forall rest',
            MessageItem.statusText
              (UrlContextMetadataItem.mk url (MessageItem.statusPrefix ++ rest')) = rest')
    as Hstrip.
  { intros rest'. unfold MessageItem.statusText, MessageItem.replaceFirst.
    cbn [UrlContextMetadataItem.urlRetrievalStatus].
    assert (String.index 0 MessageItem.statusPrefix (MessageItem.statusPrefix ++ rest')
            = Some 0) as ->.
    { pose proof (prefix_app MessageItem.statusPrefix rest') as Hprefix.
      unfold MessageItem.statusPrefix in *.
      cbn [append String.index] in *. cbn [append] in Hprefix. now rewrite Hprefix. }
    cbn [Nat.add]. rewrite substring_after.
    now destruct (MessageItem.statusPrefix ++ rest')%string. }
  split; [apply Hstrip|]. split; [|split; [|split]].
  - intros status Habsent. unfold MessageItem.statusText, MessageItem.replaceFirst.
    cbn [UrlContextMetadataItem.urlRetrievalStatus]. now rewrite Habsent.
  - intros status. unfold MessageItem.isSuccess.
    cbn [UrlContextMetadataItem.urlRetrievalStatus]. apply String.eqb_eq.
  - intros status Hsuccess. unfold MessageItem.isSuccess in Hsuccess.
    cbn [UrlContextMetadataItem.urlRetrievalStatus] in Hsuccess.
    apply String.eqb_eq in Hsuccess. subst status. apply (Hstrip "SUCCESS").
  - intros rows. unfold MessageItem.urlContextRows, MessageItem.isModel.
    destruct (ChatMessage.sender message); try discriminate.
    destruct (ChatMessage.urlContext message) as [[|item items]|]; try discriminate.
    intros H. injection H as <-. split; [reflexivity|]. split; [discriminate|].
    exists (item :: items). cbn [map fst snd]. rewrite !map_map. repeat split.
Qed.

(* ================================================================== *)
(** ** The groups themselves *)
(* ================================================================== *)

Lemma Forall2_same_labels (R : URLGroup.t -> URLGroup.t -> Prop)
    (before after : list URLGroup.t) :
  (forall a b, R a b -> URLGroup.id b = URLGroup.id a /\ URLGroup.name b = URLGroup.name a) ->
  Forall2 R before after ->
  map URLGroup.id after = map URLGroup.id before
  /\ map URLGroup.name after = map URLGroup.name before.
Proof.
  intros HR H. induction H as [|a b before after Hab _ [IHid IHname]]; [split; reflexivity|].
  destruct (HR a b Hab) as [Hid Hname]. cbn [map]. now rewrite Hid, Hname, IHid, IHname.
Qed.

Lemma find_id_some (groupId : string) (groups : list URLGroup.t) :
  In groupId (map URLGroup.id groups) ->
  exists group,
    find (fun group => (URLGroup.id group =? groupId)%string) groups = Some group.
Proof.
  induction groups as [|g groups IH]; [intros []|]. cbn [map find].
  destruct (URLGroup.id g =? groupId)%string eqn:Hid; [eauto|].
  intros [Hhead|Htail]; [|auto]. apply String.eqb_neq in Hid. contradiction.
Qed.

Section Groups.
Context {P : Platform}.

Lemma step_labels (st : App.State) (op : Store.Op) :
  map URLGroup.id (App.urlGroups (Store.step st op)) = map URLGroup.id (App.urlGroups st)
  /\ map URLGroup.name (App.urlGroups (Store.step st op))
     = map URLGroup.name (App.urlGroups st).
Proof.
  destruct op as [url|url|now file|docId|groupId]; unfold Store.step.
  - apply (Forall2_same_labels (Frame.urlsOnly (App.activeUrlGroupId st)));
      [unfold Frame.urlsOnly; tauto|apply addUrlUpdater_frame].
  - apply (Forall2_same_labels (Frame.urlsOnly (App.activeUrlGroupId st)));
      [unfold Frame.urlsOnly; tauto|apply removeUrlUpdater_frame].
  - apply (Forall2_same_labels (Frame.documentsOnly (App.activeUrlGroupId st)));
      [unfold Frame.documentsOnly; tauto|].
    apply (handleAddDocument_finish_frame _ now file (App.handleAddDocument_start st)).
  - apply (Forall2_same_labels (Frame.documentsOnly (App.activeUrlGroupId st)));
      [unfold Frame.documentsOnly; tauto|apply removeDocumentUpdater_frame].
  - split; reflexivity.
Qed.

Lemma step_active_id (st : App.State) (op : Store.Op) :
  App.activeUrlGroupId (Store.step st op)
  = match op with
    | Store.SetActiveGroup groupId => groupId
    | _ => App.activeUrlGroupId st
    end.
Proof.
  destruct op; unfold Store.step; try reflexivity.
  unfold App.handleAddDocument, App.handleAddDocument_finish.
  destruct (App.newDocument now file); [|reflexivity].
  now destruct (App.addDocumentOverflows _ _).
Qed.

(** X21: no operation of the store creates, deletes, renames or reorders
    a group: after any sequence of adds, removals and selections the ids
    and the names of the groups are those of the two initial groups, in
    their order, so the group selector always offers the same options.
    When every selection passed the value of one of these options, as the
    selector does, the active id names a group: the active group exists
    and carries the active id. *)
Theorem X21_groups_are_fixed (ops : list Store.Op) :
  let st := Store.run ops App.initialState in
  KnowledgeBaseManager.groupOptions (App.urlGroups st)
  = ["gemini-overview"; "model-capabilities"]%list
  /\ map URLGroup.name (App.urlGroups st)
     = ["Gemini Docs Overview"; "Model Capabilities"]%list
  /\ (Forall (Store.fromSelector ["gemini-overview"; "model-capabilities"]%list) ops ->
      exists group,
        App.activeGroup st = Some group
        /\ URLGroup.id group = App.activeUrlGroupId st
        /\ App.currentUrlsForChat st = URLGroup.urls group
        /\ App.currentDocsForChat st = URLGroup.documents group).
Proof.
  intros st. subst st. unfold KnowledgeBaseManager.groupOptions.
  assert (forall st0,
            map URLGroup.id (App.urlGroups (Store.run ops st0))
            = map URLGroup.id (App.urlGroups st0)
            /\ map URLGroup.name (App.urlGroups (Store.run ops st0))
               = map URLGroup.name (App.urlGroups st0)
            /\ (Forall (Store.fromSelector (map URLGroup.id (App.urlGroups st0))) ops ->
                In (App.activeUrlGroupId st0) (map URLGroup.id (App.urlGroups st0)) ->
                In (App.activeUrlGroupId (Store.run ops st0))
                  (map URLGroup.id (App.urlGroups st0)))) as Hrun.
  { unfold Store.run. induction ops as [|op ops IH]; intros st0; [auto|].
    cbn [fold_left]. destruct (IH (Store.step st0 op)) as [Hid [Hname Hactive]].
    destruct (step_labels st0 op) as [Hid0 Hname0].
    rewrite Hid, Hname, Hid0, Hname0. repeat split.
    intros Hops Hin. inversion Hops as [|? ? Hop Hrest]; subst.
    rewrite Hid0 in Hactive. apply (Hactive Hrest).
    rewrite step_active_id. destruct op; auto. }
  destruct (Hrun App.initialState) as [Hid [Hname Hactive]].
  split; [exact Hid|]. split; [exact Hname|].
  intros Hops. specialize (Hactive Hops (or_introl eq_refl)).
  rewrite <- Hid in Hactive. apply find_id_some in Hactive as [group Hgroup].
  exists group. unfold App.currentUrlsForChat, App.currentDocsForChat.
  fold (App.activeGroup (Store.run ops App.initialState)) in Hgroup. rewrite Hgroup.
  split; [reflexivity|]. split; [|split; reflexivity].
  now apply activeGroup_some in Hgroup.
Qed.

End Groups.
